(** * Disaster response coordination platform: the enrichment and caching layer

    A shallow embedding of the server half of [src/frontend/src/App.js]
    (the Express handlers and their helpers, lines 427-914) and the
    properties of its cache, geocoding, verification, resource and
    broadcast paths.

    Conventions of the embedding.
    - JavaScript values are terms of [JsVal]; truthiness, property access,
      optional chaining and template-literal conversion are written out.
      A string is the UTF-8 text of the JavaScript string, and an object
      is the list of its properties in the order they were written, which
      is also the order in which a stored object is taken to come back.
    - Everything the server reaches over the network (Supabase, Nominatim,
      the two Gemini clients), the clock and [Math.random] are fields of an
      environment [Env]; each one reads the current [World], whose [trace]
      grows with every call, so an answer may differ from call to call.
    - The Supabase tables the handlers touch are fields of [World]; the
      client reports a failure as [{data: null, error}] and never throws,
      which is how the code consumes it.  A row goes to the cache table
      as JSON, so a value is stored as [JSON.stringify] writes it
      ([to_json]).
    - Time is a number of milliseconds since the epoch, in [Z].  A handler
      reads the clock where the code evaluates [new Date()] or [Date.now()];
      the clock moves between runs ([advance]).  The instants the server
      computes are taken to be dates ([valid_date]): the arithmetic on them
      is the integer one.
    - [Math.random() * 3] is computed over the rationals.  IEEE rounding is
      monotone and the largest product, 3 - 3 * 2^-53, rounds below 3, so
      the bounds proved on the score carry over to doubles. *)

From Stdlib Require Import ZArith QArith Qround String Ascii List Bool Lia.
From stdpp Require Import base gmap strings list.

Open Scope string_scope.
Open Scope list_scope.
Open Scope Z_scope.

(** ** JavaScript values *)

Inductive number :=
| NaN
| Infinity (negative : bool)
| Fin (q : Q).

#[warnings="-register-all"]
Inductive JsVal :=
| JUndefined
| JNull
| JBool (b : bool)
| JNum (n : number)
| JStr (s : string)
| JArr (items : list JsVal)
| JObj (fields : list (string * JsVal)).

Record Error := { message : string }.

Inductive Completion (A : Type) :=
| Normal (a : A)
| Throw (e : Error).
Arguments Normal {A} a.
Arguments Throw {A} e.

(** ToBoolean, as applied by [if (x)], [x && y] and [!x]. *)
Definition truthy (v : JsVal) : bool :=
  match v with
  | JUndefined | JNull => false
  | JBool b => b
  | JNum NaN => false
  | JNum (Infinity _) => true
  | JNum (Fin q) => negb (Qeq_bool q 0)
  | JStr s => negb (String.eqb s "")
  | JArr _ | JObj _ => true
  end.

Definition nullish (v : JsVal) : bool :=
  match v with
  | JUndefined | JNull => true
  | _ => false
  end.

Fixpoint assoc_get (fields : list (string * JsVal)) (k : string) : JsVal :=
  match fields with
  | [] => JUndefined
  | (k', v) :: rest => if String.eqb k' k then v else assoc_get rest k
  end.

Definition num (z : Z) : JsVal := JNum (Fin (inject_Z z)).

(** What [JSON.stringify] leaves of a value, read back: NaN and the
    infinities are null, a property whose value is undefined is left out,
    an undefined element of an array is null, and so is an undefined value
    handed over as a column. *)
Fixpoint to_json (v : JsVal) : JsVal :=
  match v with
  | JUndefined => JNull
  | JNum (Fin _) => v
  | JNum _ => JNull
  | JArr items => JArr (map to_json items)
  | JObj fields =>
      JObj ((fix properties (l : list (string * JsVal)) : list (string * JsVal) :=
               match l with
               | [] => []
               | (k, x) :: rest =>
                   match x with
                   | JUndefined => properties rest
                   | _ => (k, to_json x) :: properties rest
                   end
               end) fields)
  | _ => v
  end.

(** [s.trim()] strips the white space and line terminators of ECMAScript
    from both ends of [s].  In UTF-8 they are U+0009 to U+000D and U+0020,
    of one byte; U+00A0, of two bytes; U+1680, U+2000 to U+200A, U+2028,
    U+2029, U+202F, U+205F, U+3000 and U+FEFF, of three bytes. *)
Definition is_space (c : ascii) : bool :=
  let n := nat_of_ascii c in
  ((9 <=? n) && (n <=? 13))%nat || (n =? 32)%nat.

Definition is_space2 (a b : ascii) : bool :=
  ((nat_of_ascii a =? 194) && (nat_of_ascii b =? 160))%nat.

Definition is_space3 (a b c : ascii) : bool :=
  let x := nat_of_ascii a in
  let y := nat_of_ascii b in
  let z := nat_of_ascii c in
  (((x =? 225) && (y =? 154) && (z =? 128))
   || ((x =? 226) && (y =? 128)
       && (((128 <=? z) && (z <=? 138)) || (z =? 168) || (z =? 169) || (z =? 175)))
   || ((x =? 226) && (y =? 129) && (z =? 159))
   || ((x =? 227) && (y =? 128) && (z =? 128))
   || ((x =? 239) && (y =? 187) && (z =? 191)))%nat.

(** The rest of [l] after one white space at its head, if it has one;
    [two] and [three] recognise a white space of two and of three bytes. *)
Definition head_space (two : ascii -> ascii -> bool) (three : ascii -> ascii -> ascii -> bool)
    (l : list ascii) : option (list ascii) :=
  match l with
  | [] => None
  | a :: rest =>
      if is_space a then Some rest
      else
        match rest with
        | [] => None
        | b :: rest2 =>
            if two a b then Some rest2
            else
              match rest2 with
              | [] => None
              | c :: rest3 => if three a b c then Some rest3 else None
              end
        end
  end.

(** [l] without the white space at its head. *)
Fixpoint drop_spaces (two : ascii -> ascii -> bool) (three : ascii -> ascii -> ascii -> bool)
    (l : list ascii) : list ascii :=
  match l with
  | [] => []
  | a :: rest =>
      if is_space a then drop_spaces two three rest
      else
        match rest with
        | [] => l
        | b :: rest2 =>
            if two a b then drop_spaces two three rest2
            else
              match rest2 with
              | [] => l
              | c :: rest3 => if three a b c then drop_spaces two three rest3 else l
              end
        end
  end.

Definition trim_start (s : string) : string :=
  string_of_list_ascii (drop_spaces is_space2 is_space3 (list_ascii_of_string s)).

(** The end of [s] is the head of its bytes read backwards. *)
Definition trim_end (s : string) : string :=
  string_of_list_ascii
    (rev (drop_spaces (fun a b => is_space2 b a) (fun a b c => is_space3 c b a)
            (rev (list_ascii_of_string s)))).

Definition trim (s : string) : string := trim_end (trim_start s).

(** The time values a [Date] can hold. *)
Definition valid_date (t : Z) : Prop := -8640000000000000 <= t <= 8640000000000000.

(** ** The world the server runs in *)

Record CacheRow := { value : JsVal; expires_at : Z }.

Record Resource := { resource_disaster_id : string; resource_row : JsVal }.

Record Report := {
  report_id : Z;
  report_disaster_id : string;
  report_user_id : string;
  report_content : string;
  report_image_url : option string;
  verification_status : JsVal }.

(** One request sent to the Supabase client. *)
Inductive PgOp :=
| SelectCache (key : string)
| UpsertCache (key : string) (row : CacheRow)
| InsertDisaster (payload : JsVal)
| SelectResources (disaster_id : string)
| RpcNearbyResources (disaster_id : string) (user_lat user_lng radius_meters : number)
| UpdateReports (image_url : string) (status : JsVal).

Inductive Effect :=
| Pg (op : PgOp) (failed : bool)
| NominatimGet (q : JsVal)
| GeminiPost (prompt : string)
| GenerateContent (prompt : string)
| RandomDraw
| Emit (event : string) (payload : JsVal)
| ConsoleLog (line : string)
| ConsoleError (label : string) (e : Error).

Record World := {
  clock : Z;
  cache : gmap string CacheRow;
  disasters : list JsVal;
  resources : list Resource;
  reports : list Report;
  trace : list Effect }.

Definition log (e : Effect) (w : World) : World :=
  {| clock := clock w; cache := cache w; disasters := disasters w;
     resources := resources w; reports := reports w;
     trace := trace w ++ [e] |}.

Definition with_cache (c : gmap string CacheRow) (w : World) : World :=
  {| clock := clock w; cache := c; disasters := disasters w;
     resources := resources w; reports := reports w; trace := trace w |}.

Definition with_disasters (d : list JsVal) (w : World) : World :=
  {| clock := clock w; cache := cache w; disasters := d;
     resources := resources w; reports := reports w; trace := trace w |}.

Definition with_reports (r : list Report) (w : World) : World :=
  {| clock := clock w; cache := cache w; disasters := disasters w;
     resources := resources w; reports := r; trace := trace w |}.

(** Time passing between two runs. *)
Definition advance (d : Z) (w : World) : World :=
  {| clock := clock w + d; cache := cache w; disasters := disasters w;
     resources := resources w; reports := reports w; trace := trace w |}.

(** What [generateContent] resolves to: [result.response.text()] returns a
    string or throws (a blocked or empty candidate). *)
Record GenerateContentResult := { response_text : Completion string }.

(** What the code cannot decide: the collaborators' answers. *)
Record Env := {
  Number_toString : Q -> string;
  parseFloat : JsVal -> number;
  parseInt : JsVal -> number;
  Date_toJSON : Z -> string;
  Math_random : World -> Q;
  pg_fault : World -> PgOp -> option Error;
  pg_inserted_row : World -> JsVal -> JsVal;
  pg_nearby_resources : World -> string -> number -> number -> number -> JsVal;
  axios_get_nominatim : World -> JsVal -> Completion JsVal;
  axios_post_gemini : World -> string -> Completion JsVal;
  genAI_generateContent : World -> string -> Completion GenerateContentResult }.

(** ** Template literals

    [`${v}`] converts [v] to a string.  The conversion of an object looks
    for a [toString] method first: a plain object has the one of
    [Object.prototype], unless a property of its own named [toString] hides
    it.  No value of JSON can be called, and [valueOf] yields the object
    itself, so the conversion of such an object ends in a TypeError.  An
    array is joined, which converts each element that is not null or
    undefined. *)
Fixpoint cannot_convert (v : JsVal) : bool :=
  match v with
  | JObj fields => existsb (fun kv => String.eqb (fst kv) "toString") fields
  | JArr items => existsb cannot_convert items
  | _ => false
  end.

Definition TypeError_convert : Error :=
  {| message := "Cannot convert object to primitive value" |}.

Section ToString.
Variable E : Env.

Definition number_string (n : number) : string :=
  match n with
  | NaN => "NaN"
  | Infinity false => "Infinity"
  | Infinity true => "-Infinity"
  | Fin q => Number_toString E q
  end.

(** The string [v] is converted to, when the conversion does not throw. *)
Fixpoint ToString (v : JsVal) : string :=
  match v with
  | JUndefined => "undefined"
  | JNull => "null"
  | JBool true => "true"
  | JBool false => "false"
  | JNum n => number_string n
  | JStr s => s
  | JArr items =>
      (fix join (l : list JsVal) : string :=
         match l with
         | [] => ""
         | x :: rest =>
             let sx := if nullish x then "" else ToString x in
             match rest with
             | [] => sx
             | _ => sx +:+ "," +:+ join rest
             end
         end) items
  | JObj _ => "[object Object]"
  end.
End ToString.

(** ** State and exceptions *)

Definition M (A : Type) : Type := World -> Completion A * World.

Definition ret {A} (a : A) : M A := fun w => (Normal a, w).

Definition bind {A B} (m : M A) (k : A -> M B) : M B :=
  fun w =>
    match m w with
    | (Normal a, w') => k a w'
    | (Throw e, w') => (Throw e, w')
    end.

Definition throw {A} (e : Error) : M A := fun w => (Throw e, w).

Definition try_catch {A} (body : M A) (handler : Error -> M A) : M A :=
  fun w =>
    match body w with
    | (Normal a, w') => (Normal a, w')
    | (Throw e, w') => handler e w'
    end.

Definition effect (e : Effect) : M unit := fun w => (Normal tt, log e w).

Definition await {A} (c : World -> Completion A) : M A := fun w => (c w, w).

Definition Date_now : M Z := fun w => (Normal (clock w), w).

Notation "x <- m ;; k" := (bind m (fun x => k))
  (at level 100, m at next level, right associativity).
Notation "m ;;; k" := (bind m (fun _ => k))
  (at level 100, right associativity).

(** [o.k] for the property names the server reads, none of which a string,
    a number, a boolean or an array has: a TypeError on null and undefined,
    undefined on the other values that are not objects. *)
Definition member (o : JsVal) (k : string) : M JsVal :=
  match o with
  | JUndefined | JNull =>
      throw {| message := "Cannot read properties of " +:+
                            (if o is JNull then "null" else "undefined") |}
  | JObj fields => ret (assoc_get fields k)
  | _ => ret JUndefined
  end.

(** [o[0]]. *)
Definition index0 (o : JsVal) : M JsVal :=
  match o with
  | JUndefined | JNull =>
      throw {| message := "Cannot read properties of " +:+
                            (if o is JNull then "null" else "undefined") |}
  | JArr (x :: _) => ret x
  | JStr (String c _) => ret (JStr (String c EmptyString))
  | JObj fields => ret (assoc_get fields "0")
  | _ => ret JUndefined
  end.

(** [o?.k], [o?.[0]] and [s?.trim()].  Each link of an optional chain
    yields undefined on a nullish receiver, so a chain of them is undefined
    from the first nullish link on, which is the short circuit of [?.]. *)
Definition opt_member (o : JsVal) (k : string) : M JsVal :=
  if nullish o then ret JUndefined else member o k.

Definition opt_index0 (o : JsVal) : M JsVal :=
  if nullish o then ret JUndefined else index0 o.

Definition opt_trim (o : JsVal) : M JsVal :=
  match o with
  | JUndefined | JNull => ret JUndefined
  | JStr s => ret (JStr (trim s))
  | _ => throw {| message := "trim is not a function" |}
  end.

Definition dquote : string := String "034"%char EmptyString.

(** [`${v}`]. *)
Definition interpolate (E : Env) (v : JsVal) : M string :=
  if cannot_convert v then throw TypeError_convert else ret (ToString E v).

(** [parseFloat(v)], which converts [v] to a string first. *)
Definition parse_float (E : Env) (v : JsVal) : M number :=
  if cannot_convert v then throw TypeError_convert else ret (parseFloat E v).

(** ** The server *)

Section Server.
Variable E : Env.

(** *** The Supabase client

    [{ data, error }] of one request; a fault leaves the tables as they
    are. *)

(** [supabase.from('cache').select('value, expires_at').eq('key', key).single()]:
    [data] is the row, or null when there is none or the request failed. *)
Definition cache_select (key : string) : M (option CacheRow) :=
  fun w =>
    match pg_fault E w (SelectCache key) with
    | Some _ => (Normal None, log (Pg (SelectCache key) true) w)
    | None => (Normal (cache w !! key), log (Pg (SelectCache key) false) w)
    end.

(** [supabase.from('cache').upsert({ key, value, expires_at })]: the table
    has one row per [key], which the upsert replaces; the row is sent as
    JSON. *)
Definition as_stored (row : CacheRow) : CacheRow :=
  {| value := to_json (value row); expires_at := expires_at row |}.

Definition cache_upsert (key : string) (row : CacheRow) : M unit :=
  fun w =>
    match pg_fault E w (UpsertCache key row) with
    | Some _ => (Normal tt, log (Pg (UpsertCache key row) true) w)
    | None =>
        (Normal tt,
         log (Pg (UpsertCache key row) false)
           (with_cache (<[key := as_stored row]> (cache w)) w))
    end.

(** *** Cache helper functions (lines 475-493) *)

Definition getCache (key : string) : M JsVal :=
  data <- cache_select key ;;
  match data with
  | Some row =>
      now <- Date_now ;;
      if expires_at row >? now then ret (value row) else ret JNull
  | None => ret JNull
  end.

Definition default_ttlMinutes : Z := 60.

(** [expiresAt] is the date of the instant computed, for an instant that
    is one ([valid_date]). *)
Definition setCache (key : string) (v : JsVal) (ttlMinutes : Z) : M unit :=
  now <- Date_now ;;
  let expiresAt := now + ttlMinutes * 60 * 1000 in
  cache_upsert key {| value := v; expires_at := expiresAt |}.

(** *** Geocoding (lines 496-523) *)

Definition nominatim_search (q : JsVal) : M JsVal :=
  fun w => (axios_get_nominatim E w q, log (NominatimGet q) w).

(** The cache key of a place name that can be converted. *)
Definition geocode_key (locationName : JsVal) : string :=
  "geocode_" +:+ ToString E locationName.

Definition geocodeLocation (locationName : JsVal) : M JsVal :=
  name <- interpolate E locationName ;;
  let cacheKey := "geocode_" +:+ name in
  cached <- getCache cacheKey ;;
  if truthy cached then ret cached
  else
    returned <-
      try_catch
        (response_data <- nominatim_search locationName ;;
         result <- index0 response_data ;;
         if truthy result then
           lat <- member result "lat" ;;
           lat_number <- parse_float E lat ;;
           lon <- member result "lon" ;;
           lon_number <- parse_float E lon ;;
           let coords := JObj [("lat", JNum lat_number); ("lng", JNum lon_number)] in
           setCache cacheKey coords default_ttlMinutes ;;;
           ret (Some coords)
         else ret None)
        (fun error => effect (ConsoleError "Geocoding error:" error) ;;; ret None) ;;
    match returned with
    | Some coords => ret coords
    | None => ret JNull
    end.

(** *** Location extraction (lines 526-560) *)

Definition gemini_generate (prompt : string) : M JsVal :=
  fun w => (axios_post_gemini E w prompt, log (GeminiPost prompt) w).

Definition extract_key (text : JsVal) : string :=
  "extract_location_" +:+ ToString E text.

Definition extract_prompt_of (text : string) : string :=
  "Extract the most specific location name from this text. Return only the location name (city, state/country format preferred): "
  +:+ dquote +:+ text +:+ dquote.

Definition extract_prompt (text : JsVal) : string :=
  extract_prompt_of (ToString E text).

Definition extractLocationWithGemini (text : JsVal) : M JsVal :=
  shown <- interpolate E text ;;
  let cacheKey := "extract_location_" +:+ shown in
  cached <- getCache cacheKey ;;
  if truthy cached then ret cached
  else
    returned <-
      try_catch
        (quoted <- interpolate E text ;;
         response_data <- gemini_generate (extract_prompt_of quoted) ;;
         candidates <- member response_data "candidates" ;;
         candidate <- opt_index0 candidates ;;
         content <- opt_member candidate "content" ;;
         parts <- opt_member content "parts" ;;
         part <- opt_index0 parts ;;
         part_text <- opt_member part "text" ;;
         locationName <- opt_trim part_text ;;
         if truthy locationName then
           setCache cacheKey locationName default_ttlMinutes ;;;
           ret (Some locationName)
         else ret None)
        (fun error =>
           effect (ConsoleError "Gemini API (extractLocation) error:" error) ;;;
           ret None) ;;
    match returned with
    | Some locationName => ret locationName
    | None => ret JNull
    end.

(** *** Image verification (lines 564-586) *)

Definition generateContent (prompt : string) : M GenerateContentResult :=
  fun w => (genAI_generateContent E w prompt, log (GenerateContent prompt) w).

Definition random : M Q :=
  fun w => (Normal (Math_random E w), log RandomDraw w).

Definition verify_key (imageUrl : JsVal) : string :=
  "verify_image_" +:+ ToString E imageUrl.

Definition verify_prompt_of (imageUrl : string) : string :=
  "Analyze this disaster-related image for authenticity and context. Rate from 1-10 (10 being most authentic) and provide brief reasoning: "
  +:+ imageUrl.

Definition verify_prompt (imageUrl : JsVal) : string :=
  verify_prompt_of (ToString E imageUrl).

Definition degraded : JsVal :=
  JObj [("score", num 5); ("reasoning", JStr "Unable to verify"); ("status", JStr "pending")].

Definition verifyImageWithGemini (imageUrl : JsVal) : M JsVal :=
  shown <- interpolate E imageUrl ;;
  let cacheKey := "verify_image_" +:+ shown in
  cached <- getCache cacheKey ;;
  if truthy cached then ret cached
  else
    try_catch
      (written <- interpolate E imageUrl ;;
       result <- generateContent (verify_prompt_of written) ;;
       r <- random ;;
       reasoning <- await (fun _ => response_text result) ;;
       let verification :=
         JObj [("score", num (Qfloor (r * 3) + 7));
               ("reasoning", JStr (trim reasoning));
               ("status", JStr "verified")] in
       setCache cacheKey verification default_ttlMinutes ;;;
       ret verification)
      (fun error =>
         effect (ConsoleError "Gemini image verification error:" error) ;;;
         ret degraded).

(** *** More of the Supabase client *)

(** [supabase.from('disasters').insert(payload).select().single()]. *)
Definition disasters_insert (payload : JsVal) : M (JsVal * option Error) :=
  fun w =>
    match pg_fault E w (InsertDisaster payload) with
    | Some e => (Normal (JNull, Some e), log (Pg (InsertDisaster payload) true) w)
    | None =>
        let row := pg_inserted_row E w payload in
        (Normal (row, None),
         log (Pg (InsertDisaster payload) false) (with_disasters (disasters w ++ [row]) w))
    end.

(** [supabase.from('resources').select('*').eq('disaster_id', id)]: the
    plain filter of the resources of one incident. *)
Definition resources_of (id : string) (w : World) : JsVal :=
  JArr (map resource_row
          (List.filter (fun r => String.eqb (resource_disaster_id r) id) (resources w))).

Definition resources_select (id : string) : M (JsVal * option Error) :=
  fun w =>
    match pg_fault E w (SelectResources id) with
    | Some e => (Normal (JNull, Some e), log (Pg (SelectResources id) true) w)
    | None => (Normal (resources_of id w, None), log (Pg (SelectResources id) false) w)
    end.

(** [supabase.rpc('get_nearby_resources', { ... })]. *)
Definition rpc_get_nearby_resources (id : string) (user_lat user_lng radius_meters : number)
  : M (JsVal * option Error) :=
  fun w =>
    let op := RpcNearbyResources id user_lat user_lng radius_meters in
    match pg_fault E w op with
    | Some e => (Normal (JNull, Some e), log (Pg op true) w)
    | None =>
        (Normal (pg_nearby_resources E w id user_lat user_lng radius_meters, None),
         log (Pg op false) w)
    end.

(** [supabase.from('reports').update({ verification_status }).eq('image_url', image_url)]:
    the filter compares the column with the text of [image_url], which the
    verifier has converted before; an undefined status is dropped from the
    JSON body and sets nothing. *)
Definition set_status (url : string) (status : JsVal) (r : Report) : Report :=
  if decide (report_image_url r = Some url) then
    {| report_id := report_id r; report_disaster_id := report_disaster_id r;
       report_user_id := report_user_id r; report_content := report_content r;
       report_image_url := report_image_url r; verification_status := status |}
  else r.

Definition reports_update (image_url status : JsVal) : M unit :=
  fun w =>
    let url := ToString E image_url in
    match pg_fault E w (UpdateReports url status) with
    | Some _ => (Normal tt, log (Pg (UpdateReports url status) true) w)
    | None =>
        (Normal tt,
         log (Pg (UpdateReports url status) false)
           (match status with
            | JUndefined => w
            | _ => with_reports (map (set_status url status) (reports w)) w
            end))
    end.

(** *** Routes *)

Record Response := { status : Z; body : JsVal }.

Definition json (data : JsVal) : M Response :=
  ret {| status := 200; body := data |}.

Definition status_json (code : Z) (data : JsVal) : M Response :=
  ret {| status := code; body := data |}.

Definition error_body (msg : string) : JsVal := JObj [("error", JStr msg)].

Definition io_emit (event : string) (payload : JsVal) : M unit :=
  effect (Emit event payload).

(** [POST /geocode] (lines 634-655). *)
Definition post_geocode (req_body : JsVal) : M Response :=
  try_catch
    (text <- member req_body "text" ;;
     locationName <- extractLocationWithGemini text ;;
     if negb (truthy locationName) then
       status_json 400 (error_body "Could not extract location")
     else
       coords <- geocodeLocation locationName ;;
       if negb (truthy coords) then
         status_json 400 (error_body "Could not geocode location")
       else
         json (JObj [("locationName", locationName); ("coordinates", coords)]))
    (fun error =>
       effect (ConsoleError "Geocoding error:" error) ;;;
       status_json 500 (error_body "Geocoding failed")).

(** [POST /disasters] (lines 658-694). *)
Definition or_default (v dflt : JsVal) : JsVal :=
  match v with
  | JUndefined => dflt
  | _ => v
  end.

(** [let location = null; if (location_name) { ... }] (lines 662-668, and
    the same lines 720-726 in the update). *)
Definition location_of (location_name : JsVal) : M JsVal :=
  if truthy location_name then
    coords <- geocodeLocation location_name ;;
    if truthy coords then
      lng <- member coords "lng" ;;
      lng_text <- interpolate E lng ;;
      lat <- member coords "lat" ;;
      lat_text <- interpolate E lat ;;
      ret (JStr ("POINT(" +:+ lng_text +:+ " " +:+ lat_text +:+ ")"))
    else ret JNull
  else ret JNull.

Definition post_disasters (req_body : JsVal) : M Response :=
  try_catch
    (title <- member req_body "title" ;;
     location_name <- member req_body "location_name" ;;
     description <- member req_body "description" ;;
     tags <- member req_body "tags" ;;
     owner_id0 <- member req_body "owner_id" ;;
     let owner_id := or_default owner_id0 (JStr "netrunnerX") in
     location <- location_of location_name ;;
     now <- Date_now ;;
     inserted <-
       disasters_insert
         (JObj [("title", title); ("location_name", location_name);
                ("location", location); ("description", description);
                ("tags", tags); ("owner_id", owner_id);
                ("audit_trail",
                 JArr [JObj [("action", JStr "create"); ("user_id", owner_id);
                             ("timestamp", JStr (Date_toJSON E now))]])]) ;;
     match inserted with
     | (_, Some error) => throw error
     | (data, None) =>
         title_text <- interpolate E title ;;
         name_text <- interpolate E location_name ;;
         effect (ConsoleLog ("Disaster created: " +:+ title_text +:+ " at " +:+ name_text)) ;;;
         io_emit "disaster_updated" (JObj [("action", JStr "create"); ("disaster", data)]) ;;;
         json data
     end)
    (fun error =>
       effect (ConsoleError "Error creating disaster:" error) ;;;
       status_json 500 (error_body "Failed to create disaster")).

(** [GET /disasters/:id/resources] (lines 791-828).  The values of
    [req.query] are what the parser of the query string builds: strings,
    and arrays and objects of them, none with a property named toString,
    so [parseFloat] and [parseInt] convert them. *)
Definition get_resources (id : string) (req_query : JsVal) : M Response :=
  try_catch
    (lat <- member req_query "lat" ;;
     lng <- member req_query "lng" ;;
     radius0 <- member req_query "radius" ;;
     let radius := or_default radius0 (num 10000) in
     let query := resources_select id in
     if truthy lat && truthy lng then
       nearby <- rpc_get_nearby_resources id (parseFloat E lat) (parseFloat E lng)
                   (parseInt E radius) ;;
       match nearby with
       | (_, Some _) =>
           fallback <- query ;;
           match fallback with
           | (_, Some fallbackError) => throw fallbackError
           | (fallbackData, None) => json fallbackData
           end
       | (data, None) => json data
       end
     else
       plain <- query ;;
       match plain with
       | (_, Some error) => throw error
       | (data, None) => json data
       end)
    (fun error =>
       effect (ConsoleError "Error fetching resources:" error) ;;;
       status_json 500 (error_body "Failed to fetch resources")).

(** [POST /disasters/:id/verify-image] (lines 842-858). *)
Definition post_verify_image (id : string) (req_body : JsVal) : M Response :=
  try_catch
    (image_url <- member req_body "image_url" ;;
     verification <- verifyImageWithGemini image_url ;;
     new_status <- member verification "status" ;;
     reports_update image_url new_status ;;;
     json verification)
    (fun error =>
       effect (ConsoleError "Error verifying image:" error) ;;;
       status_json 500 (error_body "Failed to verify image")).

End Server.

(** ** Observations on a trace *)

Definition is_emit (e : Effect) : bool :=
  match e with
  | Emit _ _ => true
  | _ => false
  end.

Definition is_nominatim_call (e : Effect) : bool :=
  match e with
  | NominatimGet _ => true
  | _ => false
  end.

Definition is_vision_call (e : Effect) : bool :=
  match e with
  | GenerateContent _ => true
  | _ => false
  end.

Definition is_cache_write (e : Effect) : bool :=
  match e with
  | Pg (UpsertCache _ _) _ => true
  | _ => false
  end.

(** What the geocoding stage does: a request to Nominatim, or a cache
    request under a [geocode_] key. *)
Definition is_geocoding_effect (e : Effect) : bool :=
  match e with
  | NominatimGet _ => true
  | Pg (SelectCache key) _ | Pg (UpsertCache key _) _ => String.prefix "geocode_" key
  | _ => false
  end.

Definition is_insert (e : Effect) : bool :=
  match e with
  | Pg (InsertDisaster _) _ => true
  | _ => false
  end.

Definition count (p : Effect -> bool) (t : list Effect) : nat :=
  length (List.filter p t).

(** The cache row of [key] is live in [w]. *)
Definition live (w : World) (key : string) (row : CacheRow) : Prop :=
  cache w !! key = Some row /\ clock w < expires_at row.

(** ** Reasoning about runs *)

(** [wp m Q w]: the run of [m] from [w] ends in a completion and a world
    that satisfy [Q]. *)
Definition wp {A} (m : M A) (Q : Completion A -> World -> Prop) (w : World) : Prop :=
  Q (fst (m w)) (snd (m w)).

(** [w] is [w0] after more effects, each of which satisfies [P]. *)
Definition grows (P : Effect -> Prop) (w0 w : World) : Prop :=
  exists evs, trace w = trace w0 ++ evs /\ Forall P evs.

(** Neither a cache write nor a step of the geocoding stage. *)
Definition quiet (e : Effect) : Prop :=
  is_cache_write e = false /\ is_geocoding_effect e = false.

(** A step that leaves the world as it is. *)
Definition stateless {A} (m : M A) : Prop := forall w, snd (m w) = w.

(** Neither a broadcast nor an insert into the incidents table. *)
Definition silent (e : Effect) : Prop :=
  is_emit e = false /\ is_insert e = false.

(** The broadcast of [POST /disasters]. *)
Definition created_event (data : JsVal) : Effect :=
  Emit "disaster_updated" (JObj [("action", JStr "create"); ("disaster", data)]).

(** The four ways a run of [POST /disasters] that started in [w] can end:
    the effects [evs] it added and its completion [c]. *)
Definition write_confirmed (evs : list Effect) (c : Completion Response) : Prop :=
  exists pre payload line data,
    evs = pre ++ [Pg (InsertDisaster payload) false; ConsoleLog line; created_event data]
    /\ Forall silent pre
    /\ c = Normal {| status := 200; body := data |}.

Definition write_failed (evs : list Effect) (c : Completion Response) : Prop :=
  exists pre payload e,
    evs = pre ++ [Pg (InsertDisaster payload) true; ConsoleError "Error creating disaster:" e]
    /\ Forall silent pre
    /\ c = Normal {| status := 500; body := error_body "Failed to create disaster" |}.

(** The insert is confirmed and the log line that follows throws. *)
Definition write_unannounced (evs : list Effect) (c : Completion Response) : Prop :=
  exists pre payload e,
    evs = pre ++ [Pg (InsertDisaster payload) false; ConsoleError "Error creating disaster:" e]
    /\ Forall silent pre
    /\ c = Normal {| status := 500; body := error_body "Failed to create disaster" |}.

Definition write_not_attempted (evs : list Effect) (c : Completion Response) : Prop :=
  Forall silent evs
  /\ c = Normal {| status := 500; body := error_body "Failed to create disaster" |}.

Definition create_outcome (w : World) (c : Completion Response) (w' : World) : Prop :=
  exists evs, trace w' = trace w ++ evs
              /\ (write_confirmed evs c \/ write_failed evs c
                  \/ write_unannounced evs c \/ write_not_attempted evs c).

(** ** The first claim as the specification words it

    On a provider failure the verifier returns the degraded result, the
    result is in the cache afterwards, and a repeated call within the hour
    returns it without a new request to the provider. *)
Definition degraded_result_cached (E : Env) (url : string) (w : World) : Prop :=
  forall cached w1 e,
    getCache E (verify_key E (JStr url)) w = (Normal cached, w1) ->
    truthy cached = false ->
    genAI_generateContent E w1 (verify_prompt E (JStr url)) = Throw e ->
    let first := verifyImageWithGemini E (JStr url) w in
    fst first = Normal degraded
    /\ (exists row, cache (snd first) !! verify_key E (JStr url) = Some row
                    /\ value row = degraded)
    /\ forall d, 0 <= d < 60 * 60 * 1000 ->
         let second := verifyImageWithGemini E (JStr url) (advance d (snd first)) in
         fst second = Normal degraded
         /\ count is_vision_call (trace (snd second))
            = count is_vision_call (trace (snd first)).

(** ** The fifth claim as the specification words it

    For the key, the value and the TTL, a get after the expiry is a miss
    and a get before the expiry returns the value that was set. *)
Definition get_returns_what_was_set (E : Env) (key : string) (v : JsVal) (ttl : Z)
    (w0 : World) : Prop :=
  forall d,
    let w := advance d (snd (setCache E key v ttl w0)) in
    (ttl * 60 * 1000 < d -> fst (getCache E key w) = Normal JNull)
    /\ (0 <= d < ttl * 60 * 1000 -> fst (getCache E key w) = Normal v).

(** ** Sample collaborators and worlds *)

Definition refused : Error := {| message := "connect ECONNREFUSED" |}.

Definition sample_parseFloat (v : JsVal) : number :=
  match v with
  | JStr "40.7831" => Fin (407831 # 10000)
  | JStr "-73.9712" => Fin (-739712 # 10000)
  | JStr "40.78" => Fin (4078 # 100)
  | JStr "-73.97" => Fin (-7397 # 100)
  | _ => NaN
  end.

Definition sample_parseInt (v : JsVal) : number :=
  match v with
  | JNum n => n
  | JStr "500" => Fin 500
  | _ => NaN
  end.

Definition sample_env
    (nominatim : World -> JsVal -> Completion JsVal)
    (gemini : World -> string -> Completion JsVal)
    (vision : World -> string -> Completion GenerateContentResult)
    (fault : World -> PgOp -> option Error) : Env :=
  {| Number_toString := fun _ => "0";
     parseFloat := sample_parseFloat;
     parseInt := sample_parseInt;
     Date_toJSON := fun _ => "2025-06-01T00:00:00.000Z";
     Math_random := fun _ => (1 # 2)%Q;
     pg_fault := fault;
     pg_inserted_row :=
       fun w payload =>
         JObj [("id", num (Z.of_nat (length (disasters w)))); ("row", payload)];
     pg_nearby_resources := fun _ _ _ _ _ => JArr [];
     axios_get_nominatim := nominatim;
     axios_post_gemini := gemini;
     genAI_generateContent := vision |}.

Definition no_fault : World -> PgOp -> option Error := fun _ _ => None.

Definition manhattan_hit : JsVal :=
  JArr [JObj [("lat", JStr "40.7831"); ("lon", JStr "-73.9712")]].

Definition manhattan_answer : JsVal :=
  JObj [("candidates",
         JArr [JObj [("content",
                      JObj [("parts", JArr [JObj [("text", JStr " Manhattan, NYC ")]])])]])].

Definition authentic : GenerateContentResult :=
  {| response_text := Normal "  Likely authentic: water level matches reports. " |}.

(** Every provider answers. *)
Definition online : Env :=
  sample_env (fun _ _ => Normal manhattan_hit) (fun _ _ => Normal manhattan_answer)
    (fun _ _ => Normal authentic) no_fault.

(** No provider can be reached. *)
Definition offline : Env :=
  sample_env (fun _ _ => Throw refused) (fun _ _ => Throw refused)
    (fun _ _ => Throw refused) no_fault.

(** Nominatim knows no such place; the model answers with no candidate. *)
Definition nothing_found : Env :=
  sample_env (fun _ _ => Normal (JArr [])) (fun _ _ => Normal (JObj [("candidates", JArr [])]))
    (fun _ _ => Normal authentic) no_fault.

(** The vision provider answers during the first hour and fails later. *)
Definition flaky : Env :=
  sample_env (fun _ _ => Normal manhattan_hit) (fun _ _ => Normal manhattan_answer)
    (fun w _ => if clock w <? 3600000 then Normal authentic else Throw refused) no_fault.

(** The database has no [get_nearby_resources] function. *)
Definition no_rpc : Env :=
  sample_env (fun _ _ => Normal manhattan_hit) (fun _ _ => Normal manhattan_answer)
    (fun _ _ => Normal authentic)
    (fun _ op =>
       match op with
       | RpcNearbyResources _ _ _ _ =>
           Some {| message := "Could not find the function get_nearby_resources" |}
       | _ => None
       end).

(** The incidents table rejects every insert. *)
Definition no_insert : Env :=
  sample_env (fun _ _ => Normal manhattan_hit) (fun _ _ => Normal manhattan_answer)
    (fun _ _ => Normal authentic)
    (fun _ op =>
       match op with
       | InsertDisaster _ => Some {| message := "new row violates row-level security policy" |}
       | _ => None
       end).

Definition flood_jpg : string := "https://img.example/flood.jpg".

Definition sample_reports : list Report :=
  [ {| report_id := 1; report_disaster_id := "d1"; report_user_id := "citizen1";
       report_content := "Water rising on 5th"; report_image_url := Some flood_jpg;
       verification_status := JStr "verified" |};
    {| report_id := 2; report_disaster_id := "d2"; report_user_id := "citizen1";
       report_content := "Same picture, other incident"; report_image_url := Some flood_jpg;
       verification_status := JStr "pending" |};
    {| report_id := 3; report_disaster_id := "d1"; report_user_id := "reliefAdmin";
       report_content := "Shelter open"; report_image_url := None;
       verification_status := JStr "pending" |} ].

Definition sample_resources : list Resource :=
  [ {| resource_disaster_id := "d1"; resource_row := JObj [("name", JStr "Red Cross Shelter")] |};
    {| resource_disaster_id := "d2"; resource_row := JObj [("name", JStr "Food bank")] |};
    {| resource_disaster_id := "d1"; resource_row := JObj [("name", JStr "Field hospital")] |} ].

Definition sample_world : World :=
  {| clock := 1000; cache := ∅; disasters := [];
     resources := sample_resources; reports := sample_reports; trace := [] |}.

Definition manhattan_coords : JsVal :=
  JObj [("lat", JNum (Fin (407831 # 10000))); ("lng", JNum (Fin (-739712 # 10000)))].

(** A world whose cache holds the coordinates of Manhattan for an hour. *)
Definition primed_world : World :=
  with_cache {[ "geocode_Manhattan, NYC" := {| value := manhattan_coords;
                                               expires_at := 1000 + 3600000 |} ]}
    sample_world.

Definition verify_request : list (string * JsVal) := [("image_url", JStr flood_jpg)].

Definition verified_result : list (string * JsVal) :=
  [("score", num 8);
   ("reasoning", JStr "Likely authentic: water level matches reports.");
   ("status", JStr "verified")].

Definition nearby_request : list (string * JsVal) :=
  [("lat", JStr "40.78"); ("lng", JStr "-73.97"); ("radius", JStr "500")].

Definition nearby_rpc : PgOp :=
  RpcNearbyResources "d1" (Fin (4078 # 100)) (Fin (-7397 # 100)) (Fin 500).

(** The cache row written at time 1000 for an hour, and a world that has
    it an hour and a millisecond, or a millisecond less than an hour,
    later. *)
Definition written_world : World := snd (setCache online "k" (num 7) 60 sample_world).
Definition late_world : World := advance 3600001 written_world.
Definition early_world : World := advance 3599999 written_world.

Definition manhattan_request : JsVal := JObj [("text", JStr "Flooding near Manhattan, NYC")].

Definition create_request : JsVal :=
  JObj [("title", JStr "NYC Flood"); ("location_name", JStr "Manhattan, NYC");
        ("description", JStr "Heavy flooding"); ("tags", JArr [JStr "flood"])].

Definition statuses (w : World) : list JsVal := map verification_status (reports w).

(** The coordinates the geocoder builds from a match whose [lat] and [lon]
    are not numbers. *)
Definition unparsed_coords : JsVal := JObj [("lat", JNum NaN); ("lng", JNum NaN)].

(** U+00A0, the no-break space, in UTF-8. *)
Definition nbsp : string := String "194" (String "160" EmptyString).

(** U+3000, the ideographic space, in UTF-8. *)
Definition wide_space : string := String "227" (String "128" (String "128" EmptyString)).

(** A request whose title is an object with a property named toString. *)
Definition odd_title : list (string * JsVal) :=
  [("title", JObj [("toString", num 1)]); ("description", JStr "Heavy flooding")].

(** ** More of the server

    The remaining helpers and routes.  A [Date] is written as the text it
    has in JSON, which is how a response, a broadcast and the cache carry
    it.  The requests to the incidents and reports tables that these routes
    send are answered by a [Backend]; they leave no entry in the trace. *)

Record Backend := {
  pg_delete_fault : World -> string -> option Error;
  pg_select_fault : World -> string -> option Error;
  pg_update_fault : World -> string -> JsVal -> option Error;
  pg_report_fault : World -> JsVal -> option Error;
  pg_stored_report : World -> JsVal -> Report;
  pg_report_row : World -> JsVal -> JsVal }.

Section MoreServer.
Variable E : Env.
Variable B : Backend.

(** *** Mock social media API (lines 589-596) *)

Definition social_post (post user : string) (now : Z) : JsVal :=
  JObj [("post", JStr post); ("user", JStr user); ("timestamp", JStr (Date_toJSON E now))].

Definition getMockSocialMediaData : M JsVal :=
  t1 <- Date_now ;;
  t2 <- Date_now ;;
  t3 <- Date_now ;;
  t4 <- Date_now ;;
  ret (JArr [social_post "#floodrelief Need food in NYC Lower East Side" "citizen1" t1;
             social_post "SOS: Family trapped in Manhattan basement #emergency" "citizen2" t2;
             social_post "Red Cross shelter at 42nd Street has space #disaster"
               "reliefworker1" t3;
             social_post "URGENT: Medical supplies needed in Brooklyn #help" "medic1" t4]).

(** *** Official updates (lines 599-629) *)

Definition official_update (source title content url : string) (now : Z) : JsVal :=
  JObj [("source", JStr source); ("title", JStr title); ("content", JStr content);
        ("url", JStr url); ("timestamp", JStr (Date_toJSON E now))].

Definition official_updates_key : string := "official_updates".

Definition fetchOfficialUpdates : M JsVal :=
  let cacheKey := official_updates_key in
  cached <- getCache E cacheKey ;;
  if truthy cached then ret cached
  else
    try_catch
      (t1 <- Date_now ;;
       t2 <- Date_now ;;
       let updates :=
         JArr [official_update "FEMA" "Emergency Response Activated"
                 "Federal emergency response activated for NYC flooding"
                 "https://fema.gov/emergency-response" t1;
               official_update "Red Cross" "Shelter Operations"
                 "Multiple shelters opened across affected areas"
                 "https://redcross.org/shelter-updates" t2] in
       setCache E cacheKey updates default_ttlMinutes ;;;
       ret updates)
      (fun error =>
         effect (ConsoleError "Error fetching official updates:" error) ;;;
         ret (JArr [])).

(** *** More of the Supabase client *)

(** [.eq('id', id)]: the row whose id reads as the text [id]. *)
Definition has_id (id : string) (row : JsVal) : bool :=
  match row with
  | JObj fields => String.eqb (ToString E (assoc_get fields "id")) id
  | _ => false
  end.

(** [supabase.from('disasters').delete().eq('id', id)]. *)
Definition disasters_delete (id : string) : M (option Error) :=
  fun w =>
    match pg_delete_fault B w id with
    | Some e => (Normal (Some e), w)
    | None =>
        (Normal None,
         with_disasters (List.filter (fun row => negb (has_id id row)) (disasters w)) w)
    end.

(** [supabase.from('disasters').select('audit_trail').eq('id', id).single()]:
    [data] is null unless exactly one row has the id. *)
Definition disasters_select_audit_trail (id : string) : M JsVal :=
  fun w =>
    match pg_select_fault B w id with
    | Some _ => (Normal JNull, w)
    | None =>
        match List.filter (has_id id) (disasters w) with
        | [JObj fields] => (Normal (JObj [("audit_trail", assoc_get fields "audit_trail")]), w)
        | _ => (Normal JNull, w)
        end
    end.

Fixpoint set_field (k : string) (v : JsVal) (fields : list (string * JsVal))
  : list (string * JsVal) :=
  match fields with
  | [] => [(k, v)]
  | (k', v') :: rest =>
      if String.eqb k' k then (k, v) :: rest else (k', v') :: set_field k v rest
  end.

(** The columns an update sets: a field that is undefined is not part of
    the JSON body. *)
Fixpoint patch (changes fields : list (string * JsVal)) : list (string * JsVal) :=
  match changes with
  | [] => fields
  | (k, JUndefined) :: rest => patch rest fields
  | (k, v) :: rest => patch rest (set_field k v fields)
  end.

Definition no_single_row : Error :=
  {| message := "JSON object requested, multiple (or no) rows returned" |}.

(** [supabase.from('disasters').update(changes).eq('id', id).select().single()]:
    the updated row, or an error and no change unless exactly one row has
    the id. *)
Definition disasters_update (id : string) (changes : list (string * JsVal))
  : M (JsVal * option Error) :=
  fun w =>
    match pg_update_fault B w id (JObj changes) with
    | Some e => (Normal (JNull, Some e), w)
    | None =>
        match List.filter (has_id id) (disasters w) with
        | [JObj fields] =>
            let row := JObj (patch changes fields) in
            (Normal (row, None),
             with_disasters (map (fun r => if has_id id r then row else r) (disasters w)) w)
        | _ => (Normal (JNull, Some no_single_row), w)
        end
    end.

(** [supabase.from('reports').insert(payload).select().single()]: how the
    table stores the payload is the database's business. *)
Definition reports_insert (payload : JsVal) : M (JsVal * option Error) :=
  fun w =>
    match pg_report_fault B w payload with
    | Some e => (Normal (JNull, Some e), w)
    | None =>
        (Normal (pg_report_row B w payload, None),
         with_reports (reports w ++ [pg_stored_report B w payload]) w)
    end.

(** *** More routes *)

(** [[...v]] for the values JSON has: the items of an array, the characters
    of a string (its bytes, for a string of ASCII), a TypeError on anything
    else. *)
Definition spread (v : JsVal) : M (list JsVal) :=
  match v with
  | JArr items => ret items
  | JStr s => ret (map (fun c => JStr (String c EmptyString)) (list_ascii_of_string s))
  | _ => throw {| message := "object is not iterable" |}
  end.

(** [content.substring(0, 50)] (the first 50 bytes, for a string of
    ASCII). *)
Definition substring_0_50 (content : JsVal) : M string :=
  match content with
  | JStr s => ret (String.substring 0 50 s)
  | JUndefined | JNull =>
      throw {| message := "Cannot read properties of " +:+
                            (if content is JNull then "null" else "undefined") |}
  | _ => throw {| message := "content.substring is not a function" |}
  end.

(** [PUT /disasters/:id] (lines 715-755). *)
Definition put_disaster (id : string) (req_body : JsVal) : M Response :=
  try_catch
    (title <- member req_body "title" ;;
     location_name <- member req_body "location_name" ;;
     description <- member req_body "description" ;;
     tags <- member req_body "tags" ;;
     owner_id0 <- member req_body "owner_id" ;;
     let owner_id := or_default owner_id0 (JStr "netrunnerX") in
     location <- location_of E location_name ;;
     current <- disasters_select_audit_trail id ;;
     stored_trail <- opt_member current "audit_trail" ;;
     earlier <- spread (if truthy stored_trail then stored_trail else JArr []) ;;
     now <- Date_now ;;
     let newAuditTrail :=
       JArr (earlier ++ [JObj [("action", JStr "update"); ("user_id", owner_id);
                               ("timestamp", JStr (Date_toJSON E now))]]) in
     updated <-
       disasters_update id
         [("title", title); ("location_name", location_name); ("location", location);
          ("description", description); ("tags", tags); ("audit_trail", newAuditTrail)] ;;
     match updated with
     | (_, Some error) => throw error
     | (data, None) =>
         title_text <- interpolate E title ;;
         effect (ConsoleLog ("Disaster updated: " +:+ title_text)) ;;;
         io_emit "disaster_updated" (JObj [("action", JStr "update"); ("disaster", data)]) ;;;
         json data
     end)
    (fun error =>
       effect (ConsoleError "Error updating disaster:" error) ;;;
       status_json 500 (error_body "Failed to update disaster")).

(** [DELETE /disasters/:id] (lines 757-776). *)
Definition delete_disaster (id : string) : M Response :=
  try_catch
    (error <- disasters_delete id ;;
     match error with
     | Some error => throw error
     | None =>
         effect (ConsoleLog ("Disaster deleted: " +:+ id)) ;;;
         io_emit "disaster_updated" (JObj [("action", JStr "delete"); ("id", JStr id)]) ;;;
         json (JObj [("message", JStr "Disaster deleted successfully")])
     end)
    (fun error =>
       effect (ConsoleError "Error deleting disaster:" error) ;;;
       status_json 500 (error_body "Failed to delete disaster")).

(** [GET /disasters/:id/social-media] (lines 779-788). *)
Definition get_social_media (id : string) : M Response :=
  try_catch
    (socialMediaData <- getMockSocialMediaData ;;
     io_emit "social_media_updated"
       (JObj [("disaster_id", JStr id); ("data", socialMediaData)]) ;;;
     json socialMediaData)
    (fun error =>
       effect (ConsoleError "Error fetching social media:" error) ;;;
       status_json 500 (error_body "Failed to fetch social media data")).

(** [GET /disasters/:id/official-updates] (lines 831-839). *)
Definition get_official_updates (id : string) : M Response :=
  try_catch
    (updates <- fetchOfficialUpdates ;;
     json updates)
    (fun error =>
       effect (ConsoleError "Error fetching official updates:" error) ;;;
       status_json 500 (error_body "Failed to fetch official updates")).

(** [POST /reports] (lines 861-885). *)
Definition report_payload (disaster_id user_id content image_url : JsVal) : JsVal :=
  JObj [("disaster_id", disaster_id); ("user_id", user_id); ("content", content);
        ("image_url", image_url); ("verification_status", JStr "pending")].

Definition post_reports (req_body : JsVal) : M Response :=
  try_catch
    (disaster_id <- member req_body "disaster_id" ;;
     user_id0 <- member req_body "user_id" ;;
     let user_id := or_default user_id0 (JStr "citizen1") in
     content <- member req_body "content" ;;
     image_url <- member req_body "image_url" ;;
     inserted <- reports_insert (report_payload disaster_id user_id content image_url) ;;
     match inserted with
     | (_, Some error) => throw error
     | (data, None) =>
         excerpt <- substring_0_50 content ;;
         effect (ConsoleLog ("Report processed: " +:+ excerpt +:+ "...")) ;;;
         json data
     end)
    (fun error =>
       effect (ConsoleError "Error creating report:" error) ;;;
       status_json 500 (error_body "Failed to create report")).

End MoreServer.

(** ** The forms of the page (lines 66-74 and 126-134) *)

(** [s.split(',')]. *)
Fixpoint split_comma (s : string) : list string :=
  match s with
  | EmptyString => [EmptyString]
  | String c rest =>
      if Ascii.eqb c "," then EmptyString :: split_comma rest
      else
        match split_comma rest with
        | piece :: pieces => String c piece :: pieces
        | [] => [String c EmptyString]
        end
  end.

(** [tags.split(',').map(tag => tag.trim()).filter(Boolean)]. *)
Definition parse_tags (tags : string) : list string :=
  List.filter (fun tag => negb (String.eqb tag "")) (map trim (split_comma tags)).

Record DisasterForm := {
  form_title : string;
  form_location_name : string;
  form_description : string;
  form_tags : string }.

(** The body [createDisaster] posts: the form, with [tags] replaced. *)
Definition createDisaster_body (disasterForm : DisasterForm) : JsVal :=
  JObj [("title", JStr (form_title disasterForm));
        ("location_name", JStr (form_location_name disasterForm));
        ("description", JStr (form_description disasterForm));
        ("tags", JArr (map JStr (parse_tags (form_tags disasterForm))))].

Record ReportForm := { form_content : string; form_image_url : string }.

(** The body [createReport] posts for the selected incident. *)
Definition createReport_body (selected_id : JsVal) (reportForm : ReportForm) : JsVal :=
  JObj [("disaster_id", selected_id);
        ("content", JStr (form_content reportForm));
        ("image_url", JStr (form_image_url reportForm))].
(** ** The bytes of a trimmed string *)

Definition bytes_trimmed (l : list ascii) : list ascii :=
  rev (drop_spaces (fun a b => is_space2 b a) (fun a b c => is_space3 c b a)
         (rev (drop_spaces is_space2 is_space3 l))).


(** ** What a helper may change *)

(** The tables other than the cache, and the clock, are the same. *)
Definition same_tables (w w' : World) : Prop :=
  clock w' = clock w /\ disasters w' = disasters w
  /\ resources w' = resources w /\ reports w' = reports w.

(** Every value in the cache is truthy. *)
Definition cache_truthy (w : World) : Prop :=
  forall k row, cache w !! k = Some row -> truthy (value row) = true.

(** A run from [w] of a helper whose argument is [arg]: it threw before any
    effect if [arg] cannot be converted and returned otherwise, changed
    nothing but the cache, and changed the cache at most by storing a
    truthy value under [key] for an hour. *)
Definition helper_post (arg : JsVal) (key : string) (w : World) (c : Completion JsVal)
    (w' : World) : Prop :=
  (if cannot_convert arg then c = Throw TypeError_convert /\ w' = w else exists v, c = Normal v)
  /\ same_tables w w'
  /\ (cache w' = cache w
      \/ exists v, truthy v = true
                   /\ cache w' = <[key := {| value := v;
                                             expires_at := clock w + 60 * 60 * 1000 |}]> (cache w)).

(** The run changed no table but the cache, and the cache at most at [key]. *)
Definition confined (key : string) (w w' : World) : Prop :=
  same_tables w w' /\ forall k, k <> key -> cache w' !! k = cache w !! k.

Definition is_model_call (e : Effect) : bool :=
  match e with
  | GeminiPost _ => true
  | _ => false
  end.

Definition is_random_draw (e : Effect) : bool :=
  match e with
  | RandomDraw => true
  | _ => false
  end.

(** The object [POST /disasters] hands to the insert. *)
Definition create_payload (E : Env) (fields : list (string * JsVal)) (location : JsVal)
    (now : Z) : JsVal :=
  let owner_id := or_default (assoc_get fields "owner_id") (JStr "netrunnerX") in
  JObj [("title", assoc_get fields "title");
        ("location_name", assoc_get fields "location_name");
        ("location", location);
        ("description", assoc_get fields "description");
        ("tags", assoc_get fields "tags");
        ("owner_id", owner_id);
        ("audit_trail",
         JArr [JObj [("action", JStr "create"); ("user_id", owner_id);
                     ("timestamp", JStr (Date_toJSON E now))]])].

(** [o.k] for a value [o] that is neither null nor undefined. *)
Definition property (o : JsVal) (k : string) : JsVal :=
  match o with
  | JObj fields => assoc_get fields k
  | _ => JUndefined
  end.

(** Coordinates that [`POINT(${coords.lng} ${coords.lat})`] cannot take. *)
Definition point_fails (coords : JsVal) : bool :=
  cannot_convert (property coords "lng") || cannot_convert (property coords "lat").

(** The coordinates the geocoder has for the name in [w], if it has any,
    can be written in a point. *)
Definition point_converts (E : Env) (location_name : JsVal) (w : World) : Prop :=
  forall coords,
    fst (geocodeLocation E location_name w) = Normal coords -> truthy coords = true ->
    point_fails coords = false.

(** What the geocoding block of the two incident routes can leave in
    [location]: null or a point. *)
Definition is_location (E : Env) (location : JsVal) : Prop :=
  location = JNull
  \/ exists lng lat,
       location = JStr ("POINT(" +:+ ToString E lng +:+ " " +:+ ToString E lat +:+ ")").

(** How a run of [POST /disasters] on the body [fields] that started in
    [w] can end: [c] is its answer and [w'] the world it leaves. *)
Definition creation (E : Env) (fields : list (string * JsVal)) (w : World)
    (c : Completion Response) (w' : World) : Prop :=
  let title := assoc_get fields "title" in
  let location_name := assoc_get fields "location_name" in
  let failure := Normal {| status := 500; body := error_body "Failed to create disaster" |} in
  exists pre,
    Forall silent pre
    /\ ((exists e,
           trace w' = trace w ++ pre ++ [ConsoleError "Error creating disaster:" e]
           /\ c = failure /\ disasters w' = disasters w
           /\ truthy location_name = true
           /\ (cannot_convert location_name = true
               \/ exists coords,
                    fst (geocodeLocation E location_name w) = Normal coords
                    /\ truthy coords = true /\ point_fails coords = true))
        \/ (exists location failed post,
              trace w'
              = trace w ++ pre
                  ++ [Pg (InsertDisaster (create_payload E fields location (clock w))) failed]
                  ++ post
              /\ is_location E location
              /\ (truthy location_name = false -> pre = [] /\ location = JNull)
              /\ if failed then
                   exists e, post = [ConsoleError "Error creating disaster:" e]
                             /\ c = failure /\ disasters w' = disasters w
                 else if cannot_convert title then
                   post = [ConsoleError "Error creating disaster:" TypeError_convert]
                   /\ c = failure /\ exists row, disasters w' = disasters w ++ [row]
                 else
                   exists line data,
                     post = [ConsoleLog line; created_event data]
                     /\ c = Normal {| status := 200; body := data |}
                     /\ disasters w' = disasters w ++ [data])).

(** The value an update sets for column [k], if it sets one. *)
Fixpoint changed (changes : list (string * JsVal)) (k : string) : option JsVal :=
  match changes with
  | [] => None
  | (k', v) :: rest =>
      match changed rest k with
      | Some later => Some later
      | None =>
          if String.eqb k' k then
            match v with
            | JUndefined => None
            | _ => Some v
            end
          else None
      end
  end.

(** The columns [PUT /disasters/:id] sends. *)
Definition update_changes (E : Env) (fields : list (string * JsVal)) (location : JsVal)
    (trail : list JsVal) (now : Z) : list (string * JsVal) :=
  [("title", assoc_get fields "title");
   ("location_name", assoc_get fields "location_name");
   ("location", location);
   ("description", assoc_get fields "description");
   ("tags", assoc_get fields "tags");
   ("audit_trail",
    JArr (trail ++ [JObj [("action", JStr "update");
                          ("user_id", or_default (assoc_get fields "owner_id")
                                        (JStr "netrunnerX"));
                          ("timestamp", JStr (Date_toJSON E now))]]))].

(** The broadcasts among the effects of a trace. *)
Definition emitted (t : list Effect) : list Effect := List.filter is_emit t.

(** The two bulletins [fetchOfficialUpdates] builds, with the times its two
    [new Date()] read. *)
Definition bulletins_at (E : Env) (t1 t2 : Z) : JsVal :=
  JArr [official_update E "FEMA" "Emergency Response Activated"
          "Federal emergency response activated for NYC flooding"
          "https://fema.gov/emergency-response" t1;
        official_update E "Red Cross" "Shelter Operations"
          "Multiple shelters opened across affected areas"
          "https://redcross.org/shelter-updates" t2].

Definition bulletins (E : Env) (now : Z) : JsVal := bulletins_at E now now.

Definition is_resource_request (e : Effect) : bool :=
  match e with
  | Pg (SelectResources _) _ | Pg (RpcNearbyResources _ _ _ _) _ => true
  | _ => false
  end.

(** ** The server as a whole

    The routes modelled here, as Express dispatches them.  [GET /disasters]
    and [GET /reports/:disaster_id] are left out: they are one ordered query
    each, whose order is the database's. *)
Inductive Request :=
| PostGeocode (req_body : JsVal)
| PostDisasters (req_body : JsVal)
| PutDisaster (id : string) (req_body : JsVal)
| DeleteDisaster (id : string)
| GetSocialMedia (id : string)
| GetResources (id : string) (req_query : JsVal)
| GetOfficialUpdates (id : string)
| PostVerifyImage (id : string) (req_body : JsVal)
| PostReports (req_body : JsVal).

Definition handle (E : Env) (B : Backend) (r : Request) : M Response :=
  match r with
  | PostGeocode req_body => post_geocode E req_body
  | PostDisasters req_body => post_disasters E req_body
  | PutDisaster id req_body => put_disaster E B id req_body
  | DeleteDisaster id => delete_disaster E B id
  | GetSocialMedia id => get_social_media E id
  | GetResources id req_query => get_resources E id req_query
  | GetOfficialUpdates id => get_official_updates E id
  | PostVerifyImage id req_body => post_verify_image E id req_body
  | PostReports req_body => post_reports B req_body
  end.

(** Requests served one after the other, each after some time has passed. *)
Fixpoint serve (E : Env) (B : Backend) (requests : list (Z * Request)) (w : World) : World :=
  match requests with
  | [] => w
  | (d, r) :: rest => serve E B rest (snd (handle E B r (advance d w)))
  end.

Definition preserves (I : World -> Prop) {A} (m : M A) : Prop :=
  forall w, I w -> I (snd (m w)).

(** A verification as the verifier stores it. *)
Definition verified_object (v : JsVal) : Prop :=
  exists score reasoning,
    v = JObj [("score", num score); ("reasoning", JStr reasoning);
              ("status", JStr "verified")].

Definition verifications_ok (w : World) : Prop :=
  forall k row, cache w !! k = Some row -> String.prefix "verify_image_" k = true ->
                verified_object (value row).

Definition status_ok (st : JsVal) : Prop := st = JStr "pending" \/ st = JStr "verified".

Definition statuses_ok (w : World) : Prop :=
  forall r, r ∈ reports w -> status_ok (verification_status r).

(** The reports table stores the status it is given. *)
Definition stores_status (B : Backend) : Prop :=
  forall w disaster_id user_id content image_url,
    verification_status
      (pg_stored_report B w (report_payload disaster_id user_id content image_url))
    = JStr "pending".

(** What a cached verification may say of its status. *)
Definition status_of_object_ok (ok_status : JsVal -> Prop) (v : JsVal) : Prop :=
  forall fields, v = JObj fields ->
                 assoc_get fields "status" = JUndefined \/ ok_status (assoc_get fields "status").

(** What a request may broadcast, given its answer [c]: [news] are the
    events it emitted. *)
Definition broadcast_rule (r : Request) (c : Completion Response) (news : list Effect) : Prop :=
  match r with
  | PostGeocode _ | GetResources _ _ | GetOfficialUpdates _
  | PostVerifyImage _ _ | PostReports _ => news = []
  | GetSocialMedia id =>
      exists posts,
        news = [Emit "social_media_updated" (JObj [("disaster_id", JStr id); ("data", posts)])]
        /\ c = Normal {| status := 200; body := posts |}
  | PostDisasters _ | PutDisaster _ _ | DeleteDisaster _ =>
      (news = [] /\ exists answer, c = Normal {| status := 500; body := answer |})
      \/ (exists payload answer,
            news = [Emit "disaster_updated" payload]
            /\ c = Normal {| status := 200; body := answer |})
  end.

(** ** More sample collaborators and worlds *)

Definition text_of (payload : JsVal) (k : string) : string :=
  match payload with
  | JObj fields =>
      match assoc_get fields k with
      | JStr s => s
      | _ => ""
      end
  | _ => ""
  end.

Definition sample_stored_report (w : World) (payload : JsVal) : Report :=
  {| report_id := Z.of_nat (length (reports w)) + 1;
     report_disaster_id := text_of payload "disaster_id";
     report_user_id := text_of payload "user_id";
     report_content := text_of payload "content";
     report_image_url :=
       match payload with
       | JObj fields =>
           match assoc_get fields "image_url" with
           | JStr s => Some s
           | _ => None
           end
       | _ => None
       end;
     verification_status :=
       match payload with
       | JObj fields => assoc_get fields "verification_status"
       | _ => JNull
       end |}.

(** A database that answers every request. *)
Definition reliable : Backend :=
  {| pg_delete_fault := fun _ _ => None;
     pg_select_fault := fun _ _ => None;
     pg_update_fault := fun _ _ _ => None;
     pg_report_fault := fun _ _ => None;
     pg_stored_report := sample_stored_report;
     pg_report_row := fun _ payload => payload |}.

Definition created_by_reliefAdmin : JsVal :=
  JObj [("action", JStr "create"); ("user_id", JStr "reliefAdmin");
        ("timestamp", JStr "2025-05-31T00:00:00.000Z")].

Definition incident_d1 : list (string * JsVal) :=
  [("id", JStr "d1"); ("title", JStr "NYC Flood"); ("location_name", JStr "Manhattan, NYC");
   ("location", JStr "POINT(0 0)"); ("owner_id", JStr "reliefAdmin");
   ("audit_trail", JArr [created_by_reliefAdmin])].

Definition incident_d2 : JsVal := JObj [("id", JStr "d2"); ("title", JStr "Brush fire")].

Definition incident_world : World :=
  with_disasters [JObj incident_d1; incident_d2] sample_world.

Definition retitle : list (string * JsVal) :=
  [("title", JStr "NYC Flood, day 2"); ("owner_id", JStr "citizen1")].

(** Nominatim answers with a match whose coordinates are not numbers. *)
Definition blurred : Env :=
  sample_env (fun _ _ => Normal (JArr [JObj [("lat", JStr "n/a"); ("lon", JStr "n/a")]]))
    (fun _ _ => Normal manhattan_answer) (fun _ _ => Normal authentic) no_fault.

Definition manhattan_match : list (string * JsVal) :=
  [("lat", JStr "40.7831"); ("lon", JStr "-73.9712")].

Definition drill_form : DisasterForm :=
  {| form_title := "Drill"; form_location_name := "";
     form_description := "Exercise"; form_tags := "drill, test ,,nyc" |}.

Definition rising_form : ReportForm :=
  {| form_content := "Water rising on 5th"; form_image_url := "" |}.

Definition numeric_report : list (string * JsVal) :=
  [("disaster_id", JStr "d1"); ("content", JNum (Fin 5))].

Definition sample_requests : list (Z * Request) :=
  [(0, PostGeocode manhattan_request);
   (1000, PostReports (createReport_body (JStr "d1") rising_form));
   (1000, PostVerifyImage "d1" (JObj verify_request));
   (5, GetOfficialUpdates "d1");
   (3600001, PostVerifyImage "d2" (JObj verify_request))].

Definition at_expiry_world : World := advance 3600000 written_world.

(** * Properties *)

(** ** The monad *)

Lemma bind_normal {A B} (m : M A) (k : A -> M B) w a w' :
  m w = (Normal a, w') -> bind m k w = k a w'.
Proof. intros H. unfold bind. now rewrite H. Qed.

Lemma try_catch_normal {A} (m : M A) h w a w' :
  m w = (Normal a, w') -> try_catch m h w = (Normal a, w').
Proof. intros H. unfold try_catch. now rewrite H. Qed.

(** ** Template literals *)

Section InterpolateFacts.
Variable E : Env.

Lemma interpolate_converts v w :
  cannot_convert v = false -> interpolate E v w = (Normal (ToString E v), w).
Proof. intros H. unfold interpolate. now rewrite H. Qed.

Lemma interpolate_throws v w :
  cannot_convert v = true -> interpolate E v w = (Throw TypeError_convert, w).
Proof. intros H. unfold interpolate. now rewrite H. Qed.

Lemma bind_interpolate {B} v (k : string -> M B) w :
  cannot_convert v = false -> bind (interpolate E v) k w = k (ToString E v) w.
Proof. intros H. unfold bind. now rewrite (interpolate_converts v w H). Qed.

Lemma bind_interpolate_throws {B} v (k : string -> M B) w :
  cannot_convert v = true -> bind (interpolate E v) k w = (Throw TypeError_convert, w).
Proof. intros H. unfold bind. now rewrite (interpolate_throws v w H). Qed.

Lemma try_interpolate {A} v (k : string -> M A) h w :
  cannot_convert v = false ->
  try_catch (bind (interpolate E v) k) h w = try_catch (k (ToString E v)) h w.
Proof. intros H. unfold try_catch. now rewrite (bind_interpolate v k w H). Qed.

(** What is falsy can be converted. *)
Lemma falsy_converts v : truthy v = false -> cannot_convert v = false.
Proof. now destruct v. Qed.

End InterpolateFacts.

(** ** JSON *)

Lemma to_json_truthy v :
  match v with JStr _ | JArr _ | JObj _ => True | _ => False end ->
  truthy (to_json v) = truthy v.
Proof. now destruct v. Qed.

(** ** The cache helpers *)

Section CacheFacts.
Variable E : Env.

Lemma getCache_fault key w e :
  pg_fault E w (SelectCache key) = Some e ->
  getCache E key w = (Normal JNull, log (Pg (SelectCache key) true) w).
Proof. intros H. unfold getCache, bind, cache_select. now rewrite H. Qed.

Lemma getCache_absent key w :
  cache w !! key = None ->
  fst (getCache E key w) = Normal JNull.
Proof.
  intros H. unfold getCache, bind, cache_select.
  destruct (pg_fault E w (SelectCache key)); [reflexivity|].
  now rewrite H.
Qed.

Lemma getCache_expired key w row :
  cache w !! key = Some row -> expires_at row <= clock w ->
  fst (getCache E key w) = Normal JNull.
Proof.
  intros H Hexp. unfold getCache, bind, cache_select.
  destruct (pg_fault E w (SelectCache key)); [reflexivity|].
  rewrite H. cbn.
  destruct (Z.gtb_spec (expires_at row) (clock w)); [lia | reflexivity].
Qed.

Lemma getCache_live key w row :
  live w key row -> pg_fault E w (SelectCache key) = None ->
  getCache E key w = (Normal (value row), log (Pg (SelectCache key) false) w).
Proof.
  intros [H Hlive] Hok. unfold getCache, bind, cache_select.
  rewrite Hok, H. cbn.
  destruct (Z.gtb_spec (expires_at row) (clock w)); [reflexivity | lia].
Qed.

(** Whatever [getCache] does, it only adds its request to the trace. *)
Lemma getCache_world key w :
  exists failed, snd (getCache E key w) = log (Pg (SelectCache key) failed) w.
Proof.
  unfold getCache, bind, cache_select.
  destruct (pg_fault E w (SelectCache key)); [now exists true|].
  exists false. destruct (cache w !! key) as [row|]; cbn; [|reflexivity].
  now destruct (expires_at row >? clock w).
Qed.

Lemma getCache_normal key w : exists v, fst (getCache E key w) = Normal v.
Proof.
  unfold getCache, bind, cache_select.
  destruct (pg_fault E w (SelectCache key)); [now exists JNull|].
  destruct (cache w !! key) as [row|]; cbn; [|now exists JNull].
  destruct (expires_at row >? clock w); eauto.
Qed.

Lemma setCache_stored key v ttl w :
  pg_fault E w (UpsertCache key {| value := v; expires_at := clock w + ttl * 60 * 1000 |}) = None ->
  cache (snd (setCache E key v ttl w)) !! key
  = Some {| value := to_json v; expires_at := clock w + ttl * 60 * 1000 |}.
Proof.
  intros H. unfold setCache, bind, Date_now, cache_upsert. rewrite H. cbn.
  apply lookup_insert_eq.
Qed.

(** C5, as the code has it. An entry written by [setCache] at time
    [clock w0] with a TTL of [ttl] minutes whose expiry instant is a date,
    and not overwritten since, is a miss for every [getCache] at a time
    strictly after [clock w0 + ttl] (the result is null, as for an absent
    key).  A [getCache] before that time returns the value as JSON holds
    it, which is the value stored when JSON can hold it. *)
Theorem C5_entry_expires_after_ttl (key : string) (v : JsVal) (ttl : Z) (w0 w : World) :
  let expiry := clock w0 + ttl * 60 * 1000 in
  let written := {| value := v; expires_at := expiry |} in
  pg_fault E w0 (UpsertCache key written) = None ->
  cache w !! key = cache (snd (setCache E key v ttl w0)) !! key ->
  valid_date expiry ->
  (expiry < clock w ->
     fst (getCache E key w) = Normal JNull
     /\ fst (getCache E key w) = fst (getCache E key (with_cache (delete key (cache w)) w)))
  /\ (clock w < expiry ->
      pg_fault E w (SelectCache key) = None ->
      fst (getCache E key w) = Normal (to_json v)
      /\ (to_json v = v -> fst (getCache E key w) = Normal v)).
Proof.
  intros expiry written Hset Hkept _.
  rewrite (setCache_stored _ _ _ _ Hset) in Hkept. fold expiry in Hkept.
  set (stored := {| value := to_json v; expires_at := expiry |}) in Hkept.
  split.
  - intros Hlate.
    assert (Hnull : fst (getCache E key w) = Normal JNull).
    { apply (getCache_expired _ _ stored Hkept). cbn. lia. }
    split; [exact Hnull|].
    rewrite Hnull. symmetry. apply getCache_absent. cbn. apply lookup_delete_eq.
  - intros Hearly Hok.
    assert (Hget : fst (getCache E key w) = Normal (to_json v)).
    { rewrite (getCache_live key w stored); [reflexivity | | exact Hok].
      split; [exact Hkept | cbn; lia]. }
    split; [exact Hget|]. intros Hclean. now rewrite Hclean in Hget.
Qed.

End CacheFacts.

(** ** The geocoder *)

Section GeocoderFacts.
Variable E : Env.

Lemma count_app p (t1 t2 : list Effect) :
  count p (t1 ++ t2) = (count p t1 + count p t2)%nat.
Proof. unfold count. now rewrite List.filter_app, length_app. Qed.

Lemma getCache_frame key w v w1 :
  getCache E key w = (Normal v, w1) ->
  cache w1 = cache w /\ reports w1 = reports w /\ clock w1 = clock w
  /\ exists failed, trace w1 = trace w ++ [Pg (SelectCache key) failed].
Proof.
  intros H. destruct (getCache_world E key w) as [failed Hw].
  rewrite H in Hw. cbn in Hw. subst w1. cbn. eauto.
Qed.

Lemma geocodeLocation_throws p w :
  cannot_convert p = true -> geocodeLocation E p w = (Throw TypeError_convert, w).
Proof. intros Hp. unfold geocodeLocation. now apply bind_interpolate_throws. Qed.

Lemma geocodeLocation_hit p w v w1 :
  cannot_convert p = false ->
  getCache E (geocode_key E p) w = (Normal v, w1) -> truthy v = true ->
  geocodeLocation E p w = (Normal v, w1).
Proof.
  intros Hp H Ht. unfold geocodeLocation. rewrite (bind_interpolate E _ _ _ Hp).
  rewrite (bind_normal _ _ _ _ _ H). now rewrite Ht.
Qed.

Lemma geocodeLocation_provider_error p w v w1 e :
  cannot_convert p = false ->
  getCache E (geocode_key E p) w = (Normal v, w1) -> truthy v = false ->
  axios_get_nominatim E w1 p = Throw e ->
  geocodeLocation E p w
  = (Normal JNull, log (ConsoleError "Geocoding error:" e) (log (NominatimGet p) w1)).
Proof.
  intros Hc H Ht Hp. unfold geocodeLocation. rewrite (bind_interpolate E _ _ _ Hc).
  rewrite (bind_normal _ _ _ _ _ H). rewrite Ht.
  unfold bind at 1, try_catch, bind at 1, nominatim_search. now rewrite Hp.
Qed.

Lemma geocodeLocation_no_match p w v w1 :
  cannot_convert p = false ->
  getCache E (geocode_key E p) w = (Normal v, w1) -> truthy v = false ->
  axios_get_nominatim E w1 p = Normal (JArr []) ->
  geocodeLocation E p w = (Normal JNull, log (NominatimGet p) w1).
Proof.
  intros Hc H Ht Hp. unfold geocodeLocation. rewrite (bind_interpolate E _ _ _ Hc).
  rewrite (bind_normal _ _ _ _ _ H). rewrite Ht.
  unfold bind at 1, try_catch, bind at 1, nominatim_search. now rewrite Hp.
Qed.

(** C4. When the lookup under the place name's key misses and Nominatim
    answers with zero matches or the request fails, [geocodeLocation]
    returns null in both cases, never throws, and writes nothing to the
    cache. *)
Theorem C4_geocoder_not_found (p : string) (w w1 : World) (cached : JsVal) :
  getCache E (geocode_key E (JStr p)) w = (Normal cached, w1) ->
  truthy cached = false ->
  axios_get_nominatim E w1 (JStr p) = Normal (JArr [])
  \/ (exists e, axios_get_nominatim E w1 (JStr p) = Throw e) ->
  fst (geocodeLocation E (JStr p) w) = Normal JNull
  /\ cache (snd (geocodeLocation E (JStr p) w)) = cache w
  /\ count is_cache_write (trace (snd (geocodeLocation E (JStr p) w)))
     = count is_cache_write (trace w).
Proof.
  intros Hget Hmiss Hprov.
  destruct (getCache_frame _ _ _ _ Hget) as (Hc & _ & _ & failed & Ht).
  destruct Hprov as [Hnone | [e Herr]].
  - rewrite (geocodeLocation_no_match (JStr p) _ _ _ eq_refl Hget Hmiss Hnone).
    cbn [fst snd log trace cache].
    rewrite Ht, !count_app. cbn. repeat split; [exact Hc | lia].
  - rewrite (geocodeLocation_provider_error (JStr p) _ _ _ _ eq_refl Hget Hmiss Herr).
    cbn [fst snd log trace cache].
    rewrite Ht, !count_app. cbn. repeat split; [exact Hc | lia].
Qed.

(** C9. With a live coordinates entry under the place name's key, two
    successive calls of [geocodeLocation], the second one [d] milliseconds
    later and still before the entry expires, both return the stored
    coordinates, and neither sends a request to Nominatim. *)
Theorem C9_primed_geocoder_hits_cache
    (p : string) (w : World) (row : CacheRow) (lat lng : number) (d : Z) :
  let key := geocode_key E (JStr p) in
  let first := geocodeLocation E (JStr p) w in
  let second := geocodeLocation E (JStr p) (advance d (snd first)) in
  live w key row ->
  value row = JObj [("lat", JNum lat); ("lng", JNum lng)] ->
  0 <= d -> clock w + d < expires_at row ->
  pg_fault E w (SelectCache key) = None ->
  pg_fault E (advance d (log (Pg (SelectCache key) false) w)) (SelectCache key) = None ->
  fst first = Normal (value row)
  /\ fst second = Normal (value row)
  /\ count is_nominatim_call (trace (snd first)) = count is_nominatim_call (trace w)
  /\ count is_nominatim_call (trace (snd second)) = count is_nominatim_call (trace w).
Proof.
  intros key first second Hlive Hcoords Hd Hstill Hok1 Hok2.
  assert (Htruthy : truthy (value row) = true) by now rewrite Hcoords.
  assert (H1 : first = (Normal (value row), log (Pg (SelectCache key) false) w)).
  { apply geocodeLocation_hit; [reflexivity | | exact Htruthy]. now apply getCache_live. }
  assert (Hlive2 : live (advance d (log (Pg (SelectCache key) false) w)) key row).
  { destruct Hlive as [Hrow _]. split; [exact Hrow | cbn; lia]. }
  assert (H2 : second
               = (Normal (value row),
                  log (Pg (SelectCache key) false)
                    (advance d (log (Pg (SelectCache key) false) w)))).
  { subst second. rewrite H1. cbn [snd].
    apply geocodeLocation_hit; [reflexivity | | exact Htruthy]. now apply getCache_live. }
  rewrite H1, H2. cbn [fst snd log advance trace].
  rewrite !count_app. cbn. repeat split; lia.
Qed.

End GeocoderFacts.

(** ** Rules for runs *)

Lemma wp_ret {A} (a : A) Q w : Q (Normal a) w -> wp (ret a) Q w.
Proof. exact id. Qed.

Lemma wp_throw {A} (e : Error) (Q : Completion A -> World -> Prop) w :
  Q (Throw e) w -> wp (throw e) Q w.
Proof. exact id. Qed.

Lemma wp_bind {A B} (m : M A) (k : A -> M B) Q w :
  wp m (fun c w' => match c with
                    | Normal a => wp (k a) Q w'
                    | Throw e => Q (Throw e) w'
                    end) w ->
  wp (bind m k) Q w.
Proof. unfold wp, bind. destruct (m w) as [[a|e] w']; exact id. Qed.

Lemma wp_try_catch {A} (m : M A) (h : Error -> M A) Q w :
  wp m (fun c w' => match c with
                    | Normal a => Q (Normal a) w'
                    | Throw e => wp (h e) Q w'
                    end) w ->
  wp (try_catch m h) Q w.
Proof. unfold wp, try_catch. destruct (m w) as [[a|e] w']; exact id. Qed.

Lemma wp_stateless {A} (m : M A) Q w :
  stateless m -> (forall c, Q c w) -> wp m Q w.
Proof. intros Hm HQ. unfold wp. rewrite Hm. apply HQ. Qed.

Lemma wp_effect e Q w : Q (Normal tt) (log e w) -> wp (effect e) Q w.
Proof. exact id. Qed.

Lemma wp_Date_now Q w : Q (Normal (clock w)) w -> wp Date_now Q w.
Proof. exact id. Qed.

Lemma wp_mono {A} (m : M A) (Q Q' : Completion A -> World -> Prop) w :
  (forall c w', Q c w' -> Q' c w') -> wp m Q w -> wp m Q' w.
Proof. unfold wp. auto. Qed.

Lemma member_stateless o k : stateless (member o k).
Proof. intros w. now destruct o. Qed.

Lemma index0_stateless o : stateless (index0 o).
Proof. intros w. destruct o as [| | | |[|c s]|[|x l]|]; reflexivity. Qed.

Lemma opt_member_stateless o k : stateless (opt_member o k).
Proof. intros w. now destruct o. Qed.

Lemma opt_index0_stateless o : stateless (opt_index0 o).
Proof. intros w. destruct o as [| | | |[|c s]|[|x l]|]; reflexivity. Qed.

Lemma opt_trim_stateless o : stateless (opt_trim o).
Proof. intros w. now destruct o. Qed.

Lemma wp_opt_trim o (Q : Completion JsVal -> World -> Prop) w :
  (forall s, Q (Normal (JStr s)) w) -> Q (Normal JUndefined) w -> (forall e, Q (Throw e) w) ->
  wp (opt_trim o) Q w.
Proof. intros Hs Hu He. unfold wp. destruct o; cbn; auto. Qed.

Lemma grows_refl P w : grows P w w.
Proof. exists []. split; [now rewrite app_nil_r | constructor]. Qed.

Lemma grows_log (P : Effect -> Prop) e w0 w :
  P e -> grows P w0 w -> grows P w0 (log e w).
Proof.
  intros He (evs & Ht & Hall). exists (evs ++ [e]). split.
  - cbn. now rewrite Ht, app_assoc.
  - apply Forall_app. split; [exact Hall | now constructor].
Qed.

Lemma grows_same_trace P w0 w w' : trace w' = trace w -> grows P w0 w -> grows P w0 w'.
Proof. intros Ht (evs & H & A). exists evs. now rewrite Ht. Qed.

Section Rules.
Variable E : Env.

Lemma wp_getCache key Q w :
  (forall v failed, Q (Normal v) (log (Pg (SelectCache key) failed) w)) ->
  wp (getCache E key) Q w.
Proof.
  intros H. unfold wp.
  destruct (getCache_normal E key w) as [v ->].
  destruct (getCache_world E key w) as [failed ->]. apply H.
Qed.

Lemma wp_setCache key v ttl Q w :
  let row := {| value := v; expires_at := clock w + ttl * 60 * 1000 |} in
  Q (Normal tt) (log (Pg (UpsertCache key row) true) w) ->
  Q (Normal tt)
    (log (Pg (UpsertCache key row) false) (with_cache (<[key := as_stored row]> (cache w)) w)) ->
  wp (setCache E key v ttl) Q w.
Proof.
  intros row H1 H2. unfold wp, setCache, bind, Date_now, cache_upsert. fold row.
  now destruct (pg_fault E w (UpsertCache key row)).
Qed.

Lemma wp_interpolate v (Q : Completion string -> World -> Prop) w :
  (cannot_convert v = false -> Q (Normal (ToString E v)) w) ->
  (cannot_convert v = true -> Q (Throw TypeError_convert) w) ->
  wp (interpolate E v) Q w.
Proof.
  intros Hok Hthrow. unfold wp, interpolate.
  destruct (cannot_convert v); [now apply Hthrow | now apply Hok].
Qed.

Lemma interpolate_stateless v : stateless (interpolate E v).
Proof. intros w. unfold interpolate. now destruct (cannot_convert v). Qed.

Lemma parse_float_stateless v : stateless (parse_float E v).
Proof. intros w. unfold parse_float. now destruct (cannot_convert v). Qed.

Lemma parse_float_converts v w :
  cannot_convert v = false -> parse_float E v w = (Normal (parseFloat E v), w).
Proof. intros H. unfold parse_float. now rewrite H. Qed.

Lemma wp_nominatim_search q Q w :
  (forall c, Q c (log (NominatimGet q) w)) -> wp (nominatim_search E q) Q w.
Proof. intros H. apply H. Qed.

Lemma wp_gemini_generate prompt Q w :
  (forall c, Q c (log (GeminiPost prompt) w)) -> wp (gemini_generate E prompt) Q w.
Proof. intros H. apply H. Qed.

End Rules.

(** ** The location extractor and the orchestrator *)

Section ExtractorFacts.
Variable E : Env.

Lemma select_extract_quiet text failed :
  quiet (Pg (SelectCache (extract_key E text)) failed).
Proof. now split. Qed.

(** A run of the extractor that returns a falsy value returned null, wrote
    nothing to the cache and did nothing but its own lookup, its request
    to the model and its logging. *)
Lemma extract_none_frame text w :
  wp (extractLocationWithGemini E text)
     (fun c w' =>
        forall r, c = Normal r -> truthy r = false ->
                  r = JNull /\ cache w' = cache w /\ grows quiet w w') w.
Proof.
  unfold extractLocationWithGemini.
  apply wp_bind, wp_interpolate; [intros Hc | intros _ r [=]].
  apply wp_bind, wp_getCache. intros cached failed.
  set (w1 := log (Pg (SelectCache (extract_key E text)) failed) w).
  assert (G1 : grows quiet w w1).
  { apply grows_log; [apply select_extract_quiet | apply grows_refl]. }
  destruct (truthy cached) eqn:Hcached.
  { apply wp_ret. intros r [= <-] Hr. congruence. }
  (* what the try block hands over: a truthy name, or nothing and no write *)
  pose (attempted := fun (c : Completion (option JsVal)) (w' : World) =>
          match c with
          | Normal (Some locationName) => truthy locationName = true
          | Normal None => cache w' = cache w /\ grows quiet w w'
          | Throw _ => False
          end).
  apply wp_bind, (wp_mono _ attempted).
  { intros [[locationName|]|e] w' H; cbn in H; [| |contradiction];
      apply wp_ret; intros r [= <-] Hr; [congruence | now split]. }
  apply wp_try_catch, wp_bind, wp_interpolate; [intros _ | congruence].
  apply wp_bind, wp_gemini_generate.
  set (w2 := log (GeminiPost (extract_prompt E text)) w1).
  assert (G2 : grows quiet w w2) by (apply grows_log; [now split | exact G1]).
  assert (Hcatch : forall e,
             wp (bind (effect (ConsoleError "Gemini API (extractLocation) error:" e))
                   (fun _ => ret None)) attempted w2).
  { intros e. apply wp_bind, wp_effect, wp_ret. split; [reflexivity|].
    apply grows_log; [now split | exact G2]. }
  intros [response_data | e]; [| apply Hcatch].
  apply wp_bind, wp_stateless; [apply member_stateless|].
  intros [candidates | e]; [| apply Hcatch].
  apply wp_bind, wp_stateless; [apply opt_index0_stateless|].
  intros [candidate | e]; [| apply Hcatch].
  apply wp_bind, wp_stateless; [apply opt_member_stateless|].
  intros [content | e]; [| apply Hcatch].
  apply wp_bind, wp_stateless; [apply opt_member_stateless|].
  intros [parts | e]; [| apply Hcatch].
  apply wp_bind, wp_stateless; [apply opt_index0_stateless|].
  intros [part | e]; [| apply Hcatch].
  apply wp_bind, wp_stateless; [apply opt_member_stateless|].
  intros [part_text | e]; [| apply Hcatch].
  apply wp_bind, wp_stateless; [apply opt_trim_stateless|].
  intros [locationName | e]; [| apply Hcatch].
  destruct (truthy locationName) eqn:Hloc.
  - apply wp_bind, wp_setCache; apply wp_ret; exact Hloc.
  - apply wp_ret. now split.
Qed.

Lemma extract_throws text w :
  cannot_convert text = true -> extractLocationWithGemini E text w = (Throw TypeError_convert, w).
Proof. intros Hc. unfold extractLocationWithGemini. now apply bind_interpolate_throws. Qed.

Lemma extract_normal text w :
  cannot_convert text = false -> exists r, fst (extractLocationWithGemini E text w) = Normal r.
Proof.
  intros Hc. unfold extractLocationWithGemini.
  apply (wp_bind _ _ (fun c _ => exists r, c = Normal r)), wp_interpolate; [intros _ | congruence].
  apply (wp_bind _ _ (fun c _ => exists r, c = Normal r)), wp_getCache.
  intros cached failed.
  destruct (truthy cached); [apply wp_ret; eauto|].
  apply wp_bind.
  apply (wp_mono _ (fun c _ => exists o, c = Normal o)).
  { intros c w' [[l|] ->]; apply wp_ret; eauto. }
  apply wp_try_catch.
  set (body := bind _ _).
  unfold wp. destruct (body _) as [[a|e] w']; cbn; eauto.
Qed.

Lemma post_geocode_no_location fields w r w1 :
  extractLocationWithGemini E (assoc_get fields "text") w = (Normal r, w1) ->
  truthy r = false ->
  post_geocode E (JObj fields) w
  = (Normal {| status := 400; body := error_body "Could not extract location" |}, w1).
Proof.
  intros Hx Hr. unfold post_geocode.
  apply try_catch_normal. cbn [member].
  unfold bind at 1. cbn [ret].
  rewrite (bind_normal _ _ _ _ _ Hx). now rewrite Hr.
Qed.

(** C3. When the extractor yields no location for the request's text, the
    orchestrator answers 400, stops where the extractor stopped (the
    geocoding stage does not run: no request to Nominatim and no cache
    request under a geocode key), and no cache entry is written. *)
Theorem C3_no_location_short_circuits (fields : list (string * JsVal)) (w : World) (r : JsVal) :
  let text := assoc_get fields "text" in
  let extraction := extractLocationWithGemini E text w in
  let run := post_geocode E (JObj fields) w in
  fst extraction = Normal r -> truthy r = false ->
  fst run = Normal {| status := 400; body := error_body "Could not extract location" |}
  /\ snd run = snd extraction
  /\ cache (snd run) = cache w
  /\ exists evs, trace (snd run) = trace w ++ evs
                 /\ Forall (fun e => is_cache_write e = false
                                     /\ is_geocoding_effect e = false) evs.
Proof.
  intros text extraction run Hx Hr.
  pose proof (extract_none_frame text w r Hx Hr) as (_ & Hcache & Hgrows).
  subst run extraction.
  destruct (extractLocationWithGemini E text w) as [c w1] eqn:Hrun.
  cbn [fst snd] in *. subst c.
  rewrite (post_geocode_no_location fields w r w1 Hrun Hr). cbn [fst snd].
  repeat split; assumption.
Qed.

(** The two ways the claim names for the extractor to yield nothing. *)
Lemma extract_provider_error text w cached w1 e :
  cannot_convert text = false ->
  getCache E (extract_key E text) w = (Normal cached, w1) -> truthy cached = false ->
  axios_post_gemini E w1 (extract_prompt E text) = Throw e ->
  fst (extractLocationWithGemini E text w) = Normal JNull.
Proof.
  intros Hc Hget Hmiss Hp. unfold extractLocationWithGemini.
  rewrite (bind_interpolate E _ _ _ Hc).
  rewrite (bind_normal _ _ _ _ _ Hget). rewrite Hmiss.
  unfold bind at 1. rewrite (try_interpolate E _ _ _ _ Hc).
  unfold try_catch, bind at 1, gemini_generate. fold (extract_prompt E text). now rewrite Hp.
Qed.

Lemma extract_absent_response text w cached w1 data part_text :
  cannot_convert text = false ->
  getCache E (extract_key E text) w = (Normal cached, w1) -> truthy cached = false ->
  axios_post_gemini E w1 (extract_prompt E text) = Normal data ->
  data = JObj [("candidates", JArr [])]
  \/ data = JObj []
  \/ (data = JObj [("candidates",
                    JArr [JObj [("content",
                                 JObj [("parts", JArr [JObj [("text", JStr part_text)]])])]])]
      /\ trim part_text = "") ->
  fst (extractLocationWithGemini E text w) = Normal JNull.
Proof.
  intros Hc Hget Hmiss Hp Hdata. unfold extractLocationWithGemini.
  rewrite (bind_interpolate E _ _ _ Hc).
  rewrite (bind_normal _ _ _ _ _ Hget). rewrite Hmiss.
  unfold bind at 1. rewrite (try_interpolate E _ _ _ _ Hc).
  unfold try_catch, bind at 1, gemini_generate. fold (extract_prompt E text). rewrite Hp.
  destruct Hdata as [-> | [-> | [-> Hblank]]]; cbn; [reflexivity | reflexivity |].
  unfold bind, opt_trim, ret. cbn. now rewrite Hblank.
Qed.

End ExtractorFacts.

(** ** The image verifier *)

Section VerifierFacts.
Variable E : Env.

Lemma verify_throws url w :
  cannot_convert url = true -> verifyImageWithGemini E url w = (Throw TypeError_convert, w).
Proof. intros Hc. unfold verifyImageWithGemini. now apply bind_interpolate_throws. Qed.

Lemma verify_hit url w v w1 :
  cannot_convert url = false ->
  getCache E (verify_key E url) w = (Normal v, w1) -> truthy v = true ->
  verifyImageWithGemini E url w = (Normal v, w1).
Proof.
  intros Hc H Ht. unfold verifyImageWithGemini. rewrite (bind_interpolate E _ _ _ Hc).
  rewrite (bind_normal _ _ _ _ _ H). now rewrite Ht.
Qed.

Lemma verify_rejected url w v w1 e :
  cannot_convert url = false ->
  getCache E (verify_key E url) w = (Normal v, w1) -> truthy v = false ->
  genAI_generateContent E w1 (verify_prompt E url) = Throw e ->
  verifyImageWithGemini E url w
  = (Normal degraded,
     log (ConsoleError "Gemini image verification error:" e)
       (log (GenerateContent (verify_prompt E url)) w1)).
Proof.
  intros Hc H Ht Hp. unfold verifyImageWithGemini. rewrite (bind_interpolate E _ _ _ Hc).
  rewrite (bind_normal _ _ _ _ _ H). rewrite Ht. rewrite (try_interpolate E _ _ _ _ Hc).
  unfold try_catch, bind at 1, generateContent. fold (verify_prompt E url). now rewrite Hp.
Qed.

Lemma verify_text_throws url w v w1 result e :
  cannot_convert url = false ->
  getCache E (verify_key E url) w = (Normal v, w1) -> truthy v = false ->
  genAI_generateContent E w1 (verify_prompt E url) = Normal result ->
  response_text result = Throw e ->
  verifyImageWithGemini E url w
  = (Normal degraded,
     log (ConsoleError "Gemini image verification error:" e)
       (log RandomDraw (log (GenerateContent (verify_prompt E url)) w1))).
Proof.
  intros Hc H Ht Hp Htext. unfold verifyImageWithGemini. rewrite (bind_interpolate E _ _ _ Hc).
  rewrite (bind_normal _ _ _ _ _ H). rewrite Ht. rewrite (try_interpolate E _ _ _ _ Hc).
  unfold try_catch, bind at 1, generateContent. fold (verify_prompt E url). rewrite Hp.
  unfold bind at 1, random. unfold bind at 1, await. now rewrite Htext.
Qed.

Lemma verify_success url w v w1 result text :
  cannot_convert url = false ->
  getCache E (verify_key E url) w = (Normal v, w1) -> truthy v = false ->
  genAI_generateContent E w1 (verify_prompt E url) = Normal result ->
  response_text result = Normal text ->
  let w2 := log (GenerateContent (verify_prompt E url)) w1 in
  let w3 := log RandomDraw w2 in
  let verification :=
    JObj [("score", num (Qfloor (Math_random E w2 * 3) + 7));
          ("reasoning", JStr (trim text)); ("status", JStr "verified")] in
  let row := {| value := verification; expires_at := clock w3 + 60 * 60 * 1000 |} in
  let op := UpsertCache (verify_key E url) row in
  verifyImageWithGemini E url w
  = (Normal verification,
     match pg_fault E w3 op with
     | Some _ => log (Pg op true) w3
     | None => log (Pg op false) (with_cache (<[verify_key E url := row]> (cache w3)) w3)
     end).
Proof.
  intros Hc H Ht Hp Htext w2 w3 verification row op. unfold verifyImageWithGemini.
  rewrite (bind_interpolate E _ _ _ Hc).
  rewrite (bind_normal _ _ _ _ _ H). rewrite Ht. rewrite (try_interpolate E _ _ _ _ Hc).
  unfold try_catch, bind at 1, generateContent. fold (verify_prompt E url). rewrite Hp.
  unfold bind at 1, random. unfold bind at 1, await. rewrite Htext.
  unfold setCache, Date_now, cache_upsert, default_ttlMinutes, bind, ret.
  fold w2 w3. cbn [clock log]. fold verification. fold row. fold (verify_key E url).
  fold op. change (as_stored row) with row.
  now destruct (pg_fault E w3 op).
Qed.

Lemma floor_of_draw (r : Q) : (0 <= r)%Q -> (r < 1)%Q -> 0 <= Qfloor (r * 3) <= 2.
Proof.
  intros H0 H1. split.
  - change 0 with (Qfloor 0). apply Qfloor_resp_le.
    apply Qmult_le_0_compat; [exact H0 | discriminate].
  - assert (Hlt : (r * 3 < inject_Z 3)%Q).
    { change (inject_Z 3) with (1 * 3)%Q. apply Qmult_lt_compat_r; [reflexivity | exact H1]. }
    pose proof (Qfloor_le (r * 3)) as Hfl.
    assert (Hz : (inject_Z (Qfloor (r * 3)) < inject_Z 3)%Q)
      by (eapply Qle_lt_trans; eauto).
    rewrite <- Zlt_Qlt in Hz. lia.
Qed.

(** C2. When the lookup misses and the provider answers with a text, the
    verifier's score is [floor (r * 3) + 7] for the number [r] drawn from
    [Math.random], whatever the text says; it lies between 7 and 10; the
    reasoning is the provider's text, trimmed. *)
Theorem C2_score_is_drawn_not_read
    (url : string) (w w1 : World) (cached : JsVal)
    (result : GenerateContentResult) (text : string) :
  let draw := Math_random E (log (GenerateContent (verify_prompt E (JStr url))) w1) in
  getCache E (verify_key E (JStr url)) w = (Normal cached, w1) -> truthy cached = false ->
  genAI_generateContent E w1 (verify_prompt E (JStr url)) = Normal result ->
  response_text result = Normal text ->
  (0 <= draw)%Q -> (draw < 1)%Q ->
  exists score : Z,
    fst (verifyImageWithGemini E (JStr url) w)
    = Normal (JObj [("score", num score); ("reasoning", JStr (trim text));
                    ("status", JStr "verified")])
    /\ score = Qfloor (draw * 3) + 7
    /\ 7 <= score <= 10.
Proof.
  intros draw Hget Hmiss Hp Htext H0 H1.
  exists (Qfloor (draw * 3) + 7).
  rewrite (verify_success (JStr url) _ _ _ _ _ eq_refl Hget Hmiss Hp Htext). cbn [fst].
  pose proof (floor_of_draw draw H0 H1). repeat split; lia.
Qed.

(** The draw never yields 10: the score is 7, 8 or 9. *)
Lemma score_at_most_9 (r : Q) : (0 <= r)%Q -> (r < 1)%Q -> 7 <= Qfloor (r * 3) + 7 <= 9.
Proof. intros H0 H1. pose proof (floor_of_draw r H0 H1). lia. Qed.

(** Every run of the verifier whose lookup misses sends one request to the
    provider. *)
Lemma verify_miss_invokes_provider url w v w1 :
  cannot_convert url = false ->
  getCache E (verify_key E url) w = (Normal v, w1) -> truthy v = false ->
  count is_vision_call (trace (snd (verifyImageWithGemini E url w)))
  = S (count is_vision_call (trace w)).
Proof.
  intros Hc Hget Hmiss.
  destruct (getCache_frame E _ _ _ _ Hget) as (_ & _ & _ & failed & Ht).
  destruct (genAI_generateContent E w1 (verify_prompt E url)) as [result|e] eqn:Hp.
  - destruct (response_text result) as [text|e] eqn:Htext.
    + rewrite (verify_success _ _ _ _ _ _ Hc Hget Hmiss Hp Htext). cbn [snd].
      destruct (pg_fault _ _ _); cbn [trace log with_cache];
        rewrite Ht, !count_app; cbn; lia.
    + rewrite (verify_text_throws _ _ _ _ _ _ Hc Hget Hmiss Hp Htext).
      cbn [snd trace log]. rewrite Ht, !count_app. cbn. lia.
  - rewrite (verify_rejected _ _ _ _ _ Hc Hget Hmiss Hp).
    cbn [snd trace log]. rewrite Ht, !count_app. cbn. lia.
Qed.

(** C1, as the code has it. When the lookup misses and the provider call
    fails (the request is rejected, or reading the text of the answer
    throws), the verifier returns the fixed degraded result and writes
    nothing to the cache; a later call for the same URL whose lookup misses
    again sends a new request to the provider. *)
Theorem C1_degraded_result_is_not_cached
    (url : string) (w w1 : World) (cached : JsVal) (e : Error) :
  let first := verifyImageWithGemini E (JStr url) w in
  getCache E (verify_key E (JStr url)) w = (Normal cached, w1) -> truthy cached = false ->
  genAI_generateContent E w1 (verify_prompt E (JStr url)) = Throw e
  \/ (exists result, genAI_generateContent E w1 (verify_prompt E (JStr url)) = Normal result
                     /\ response_text result = Throw e) ->
  fst first = Normal degraded
  /\ cache (snd first) = cache w
  /\ count is_cache_write (trace (snd first)) = count is_cache_write (trace w)
  /\ forall (d : Z) (cached' : JsVal) (w1' : World),
       getCache E (verify_key E (JStr url)) (advance d (snd first)) = (Normal cached', w1') ->
       truthy cached' = false ->
       count is_vision_call
         (trace (snd (verifyImageWithGemini E (JStr url) (advance d (snd first)))))
       = S (count is_vision_call (trace (snd first))).
Proof.
  intros first Hget Hmiss Hfail.
  destruct (getCache_frame E _ _ _ _ Hget) as (Hc & _ & _ & failed & Ht).
  assert (Hfirst : fst first = Normal degraded
                   /\ cache (snd first) = cache w
                   /\ count is_cache_write (trace (snd first))
                      = count is_cache_write (trace w)).
  { subst first. destruct Hfail as [Hp | (result & Hp & Htext)].
    - rewrite (verify_rejected (JStr url) _ _ _ _ eq_refl Hget Hmiss Hp).
      cbn [fst snd trace cache log].
      rewrite Ht, !count_app. cbn. repeat split; [exact Hc | lia].
    - rewrite (verify_text_throws (JStr url) _ _ _ _ _ eq_refl Hget Hmiss Hp Htext).
      cbn [fst snd trace cache log].
      rewrite Ht, !count_app. cbn. repeat split; [exact Hc | lia]. }
  destruct Hfirst as (Hres & Hcache & Hwrites). repeat split; try assumption.
  intros d cached' w1' Hget' Hmiss'.
  now rewrite (verify_miss_invokes_provider (JStr url) _ _ _ eq_refl Hget' Hmiss').
Qed.

End VerifierFacts.

(** ** The resource locator *)

Section ResourceFacts.
Variable E : Env.

Lemma get_resources_plain id fields w :
  truthy (assoc_get fields "lat") && truthy (assoc_get fields "lng") = false ->
  get_resources E id (JObj fields) w
  = match pg_fault E w (SelectResources id) with
    | Some e =>
        (Normal {| status := 500; body := error_body "Failed to fetch resources" |},
         log (ConsoleError "Error fetching resources:" e) (log (Pg (SelectResources id) true) w))
    | None =>
        (Normal {| status := 200; body := resources_of id w |},
         log (Pg (SelectResources id) false) w)
    end.
Proof.
  intros Hno. unfold get_resources, try_catch, bind, member, ret. rewrite Hno.
  unfold resources_select.
  now destruct (pg_fault E w (SelectResources id)).
Qed.

Lemma get_resources_fallback id fields w e :
  let op := RpcNearbyResources id (parseFloat E (assoc_get fields "lat"))
              (parseFloat E (assoc_get fields "lng"))
              (parseInt E (or_default (assoc_get fields "radius") (num 10000))) in
  truthy (assoc_get fields "lat") = true -> truthy (assoc_get fields "lng") = true ->
  pg_fault E w op = Some e ->
  get_resources E id (JObj fields) w
  = match pg_fault E (log (Pg op true) w) (SelectResources id) with
    | Some e' =>
        (Normal {| status := 500; body := error_body "Failed to fetch resources" |},
         log (ConsoleError "Error fetching resources:" e')
           (log (Pg (SelectResources id) true) (log (Pg op true) w)))
    | None =>
        (Normal {| status := 200; body := resources_of id w |},
         log (Pg (SelectResources id) false) (log (Pg op true) w))
    end.
Proof.
  intros op Hlat Hlng Hrpc.
  unfold get_resources, try_catch, bind, member, ret. rewrite Hlat, Hlng. cbn [andb].
  unfold rpc_get_nearby_resources. fold op. rewrite Hrpc.
  unfold resources_select.
  now destruct (pg_fault E (log (Pg op true) w) (SelectResources id)).
Qed.

(** C6. With coordinates supplied and the proximity request failing, the
    route answers exactly as a request without coordinates does on the same
    tables: the plain filter of the incident's resources, with status 200
    whenever that filter itself is answered. *)
Theorem C6_failed_proximity_falls_back
    (id : string) (fields plain : list (string * JsVal)) (w : World) (e : Error) :
  let lat := assoc_get fields "lat" in
  let lng := assoc_get fields "lng" in
  let radius := or_default (assoc_get fields "radius") (num 10000) in
  let op := RpcNearbyResources id (parseFloat E lat) (parseFloat E lng) (parseInt E radius) in
  truthy lat = true -> truthy lng = true ->
  pg_fault E w op = Some e ->
  truthy (assoc_get plain "lat") && truthy (assoc_get plain "lng") = false ->
  get_resources E id (JObj fields) w = get_resources E id (JObj plain) (log (Pg op true) w)
  /\ (pg_fault E (log (Pg op true) w) (SelectResources id) = None ->
      fst (get_resources E id (JObj fields) w)
      = Normal {| status := 200; body := resources_of id w |}).
Proof.
  intros lat lng radius op Hlat Hlng Hrpc Hplain.
  rewrite (get_resources_fallback id fields w e Hlat Hlng Hrpc).
  rewrite (get_resources_plain id plain _ Hplain).
  fold lat lng radius op. split; [reflexivity|].
  now intros ->.
Qed.

End ResourceFacts.

(** ** Verification status of reports *)

Section StatusFacts.
Variable E : Env.

Lemma verify_normal url w :
  cannot_convert url = false -> exists v, fst (verifyImageWithGemini E url w) = Normal v.
Proof.
  intros Hc.
  destruct (getCache E (verify_key E url) w) as [c w1] eqn:Hget.
  destruct (getCache_normal E (verify_key E url) w) as [v Hv].
  rewrite Hget in Hv. cbn in Hv. subst c.
  destruct (truthy v) eqn:Hmiss.
  { rewrite (verify_hit _ _ _ _ _ Hc Hget Hmiss). eauto. }
  destruct (genAI_generateContent E w1 (verify_prompt E url)) as [result|e] eqn:Hp.
  - destruct (response_text result) as [text|e] eqn:Htext.
    + rewrite (verify_success _ _ _ _ _ _ _ Hc Hget Hmiss Hp Htext). eauto.
    + rewrite (verify_text_throws _ _ _ _ _ _ _ Hc Hget Hmiss Hp Htext). eauto.
  - rewrite (verify_rejected _ _ _ _ _ _ Hc Hget Hmiss Hp). eauto.
Qed.

Lemma verify_keeps_reports url w :
  reports (snd (verifyImageWithGemini E url w)) = reports w.
Proof.
  destruct (cannot_convert url) eqn:Hc; [now rewrite (verify_throws _ _ _ Hc)|].
  destruct (getCache E (verify_key E url) w) as [c w1] eqn:Hget.
  destruct (getCache_normal E (verify_key E url) w) as [v Hv].
  rewrite Hget in Hv. cbn in Hv. subst c.
  destruct (getCache_frame E _ _ _ _ Hget) as (_ & Hr & _).
  destruct (truthy v) eqn:Hmiss.
  { now rewrite (verify_hit _ _ _ _ _ Hc Hget Hmiss). }
  destruct (genAI_generateContent E w1 (verify_prompt E url)) as [result|e] eqn:Hp.
  - destruct (response_text result) as [text|e] eqn:Htext.
    + rewrite (verify_success _ _ _ _ _ _ _ Hc Hget Hmiss Hp Htext). cbn [snd].
      now destruct (pg_fault _ _ _).
    + now rewrite (verify_text_throws _ _ _ _ _ _ _ Hc Hget Hmiss Hp Htext).
  - now rewrite (verify_rejected _ _ _ _ _ _ Hc Hget Hmiss Hp).
Qed.

Lemma post_verify_image_run id fields w vfields w1 :
  let image_url := assoc_get fields "image_url" in
  let url := ToString E image_url in
  let new_status := assoc_get vfields "status" in
  verifyImageWithGemini E image_url w = (Normal (JObj vfields), w1) ->
  new_status <> JUndefined ->
  pg_fault E w1 (UpdateReports url new_status) = None ->
  post_verify_image E id (JObj fields) w
  = (Normal {| status := 200; body := JObj vfields |},
     log (Pg (UpdateReports url new_status) false)
       (with_reports (map (set_status url new_status) (reports w1)) w1)).
Proof.
  intros image_url url new_status Hv Hdef Hok.
  unfold post_verify_image. apply try_catch_normal.
  cbn [member]. unfold bind at 1. cbn [ret]. fold image_url.
  rewrite (bind_normal _ _ _ _ _ Hv). cbn [member]. unfold bind at 1. cbn [ret].
  fold new_status. unfold bind, reports_update, json, ret. fold url. rewrite Hok.
  now destruct new_status.
Qed.

Lemma set_status_matching url st r :
  report_image_url r = Some url ->
  verification_status (set_status url st r) = st
  /\ report_id (set_status url st r) = report_id r
  /\ report_disaster_id (set_status url st r) = report_disaster_id r
  /\ report_image_url (set_status url st r) = Some url.
Proof. intros H. unfold set_status. rewrite decide_True by exact H. now cbn. Qed.

Lemma set_status_image_url url st r :
  report_image_url (set_status url st r) = report_image_url r.
Proof. unfold set_status. now destruct (decide _). Qed.

Lemma set_status_other url st r :
  report_image_url r <> Some url -> set_status url st r = r.
Proof. intros H. unfold set_status. now rewrite decide_False by exact H. Qed.

(** C7. Once the verifier has returned a result with a status, the route
    sets [verification_status] to that status on every report whose
    [image_url] is the request's URL and on no other report; neither the
    incident in the route nor the incident of a report plays a part. *)
Theorem C7_status_written_by_image_url
    (id : string) (fields vfields : list (string * JsVal)) (w w1 : World) :
  let image_url := assoc_get fields "image_url" in
  let url := ToString E image_url in
  let new_status := assoc_get vfields "status" in
  let run := post_verify_image E id (JObj fields) w in
  verifyImageWithGemini E image_url w = (Normal (JObj vfields), w1) ->
  new_status <> JUndefined ->
  pg_fault E w1 (UpdateReports url new_status) = None ->
  fst run = Normal {| status := 200; body := JObj vfields |}
  /\ reports (snd run) = map (set_status url new_status) (reports w)
  /\ (forall r, r ∈ reports w -> report_image_url r = Some url ->
        set_status url new_status r ∈ reports (snd run)
        /\ verification_status (set_status url new_status r) = new_status
        /\ report_id (set_status url new_status r) = report_id r
        /\ report_disaster_id (set_status url new_status r) = report_disaster_id r)
  /\ (forall r, r ∈ reports (snd run) -> report_image_url r = Some url ->
        verification_status r = new_status)
  /\ (forall r, r ∈ reports w -> report_image_url r <> Some url -> r ∈ reports (snd run))
  /\ (forall id', post_verify_image E id' (JObj fields) w = run).
Proof.
  intros image_url url new_status run Hv Hdef Hok.
  assert (Hrun : run = (Normal {| status := 200; body := JObj vfields |},
                        log (Pg (UpdateReports url new_status) false)
                          (with_reports (map (set_status url new_status) (reports w1)) w1)))
    by (now apply post_verify_image_run).
  assert (Hrep : reports w1 = reports w).
  { pose proof (verify_keeps_reports image_url w) as H. now rewrite Hv in H. }
  rewrite Hrun. cbn [fst snd reports log with_reports]. rewrite Hrep.
  split; [reflexivity|]. split; [reflexivity|]. split; [|split; [|split]].
  - intros r Hr Hurl. split.
    + apply list_elem_of_fmap. now exists r.
    + destruct (set_status_matching url new_status r Hurl) as (Hs & Hi & Hd & _).
      now repeat split.
  - intros r' Hr' Hurl. apply list_elem_of_fmap in Hr' as (r & -> & Hr).
    rewrite set_status_image_url in Hurl. now apply set_status_matching.
  - intros r Hr Hurl. apply list_elem_of_fmap. exists r. split; [|exact Hr].
    symmetry. now apply set_status_other.
  - intros id'. change (post_verify_image E id' (JObj fields) w) with run.
    rewrite Hrun. now rewrite Hrep.
Qed.

(** C10. When the lookup misses and the provider call fails, the route
    writes the degraded result's status, pending, to every report with the
    request's URL: a report that was verified is pending afterwards.  That
    is so for every URL that a template literal can convert, as every string
    is; on one that it cannot, the verifier throws before its lookup, the
    route answers 500 and no report changes. *)
Theorem C10_failed_verification_resets_status
    (id : string) (fields : list (string * JsVal)) (w w1 : World) (cached : JsVal) (e : Error) :
  let image_url := assoc_get fields "image_url" in
  let url := ToString E image_url in
  let run := post_verify_image E id (JObj fields) w in
  getCache E (verify_key E image_url) w = (Normal cached, w1) -> truthy cached = false ->
  genAI_generateContent E w1 (verify_prompt E image_url) = Throw e
  \/ (exists result, genAI_generateContent E w1 (verify_prompt E image_url) = Normal result
                     /\ response_text result = Throw e) ->
  pg_fault E (snd (verifyImageWithGemini E image_url w)) (UpdateReports url (JStr "pending"))
  = None ->
  if cannot_convert image_url then
    fst run = Normal {| status := 500; body := error_body "Failed to verify image" |}
    /\ reports (snd run) = reports w
  else
    fst run = Normal {| status := 200; body := degraded |}
    /\ reports (snd run) = map (set_status url (JStr "pending")) (reports w)
    /\ forall r, r ∈ reports w -> report_image_url r = Some url ->
         verification_status r = JStr "verified" ->
         exists r', r' ∈ reports (snd run)
                    /\ report_id r' = report_id r
                    /\ report_image_url r' = Some url
                    /\ verification_status r' = JStr "pending".
Proof.
  intros image_url url run Hget Hmiss Hfail Hok.
  destruct (cannot_convert image_url) eqn:Hc.
  { subst run. unfold post_verify_image, try_catch, bind, member, ret. cbv beta iota.
    fold image_url. rewrite (verify_throws E image_url w Hc).
    now split. }
  assert (Hv : exists w2, verifyImageWithGemini E image_url w = (Normal degraded, w2)).
  { destruct Hfail as [Hp | (result & Hp & Htext)].
    - rewrite (verify_rejected _ _ _ _ _ _ Hc Hget Hmiss Hp). eauto.
    - rewrite (verify_text_throws _ _ _ _ _ _ _ Hc Hget Hmiss Hp Htext). eauto. }
  destruct Hv as [w2 Hv]. rewrite Hv in Hok. cbn [snd] in Hok.
  assert (Hrep : reports w2 = reports w).
  { pose proof (verify_keeps_reports image_url w) as H. now rewrite Hv in H. }
  assert (Hrun : run = (Normal {| status := 200; body := degraded |},
                        log (Pg (UpdateReports url (JStr "pending")) false)
                          (with_reports (map (set_status url (JStr "pending")) (reports w2)) w2))).
  { apply (post_verify_image_run id fields w _ w2 Hv); [discriminate | exact Hok]. }
  rewrite Hrun. cbn [fst snd reports log with_reports]. rewrite Hrep.
  split; [reflexivity|]. split; [reflexivity|].
  intros r Hr Hurl _. exists (set_status url (JStr "pending") r).
  destruct (set_status_matching url (JStr "pending") r Hurl) as (Hs & Hi & _ & Hu).
  repeat split; try assumption. apply list_elem_of_fmap. now exists r.
Qed.

End StatusFacts.

(** ** The broadcast after an incident is created *)

Section BroadcastFacts.
Variable E : Env.

Lemma wp_disasters_insert payload Q w :
  (forall e, Q (Normal (JNull, Some e)) (log (Pg (InsertDisaster payload) true) w)) ->
  (forall row, Q (Normal (row, None))
                 (log (Pg (InsertDisaster payload) false)
                    (with_disasters (disasters w ++ [row]) w))) ->
  wp (disasters_insert E payload) Q w.
Proof.
  intros Hfail Hok. unfold wp, disasters_insert.
  destruct (pg_fault E w (InsertDisaster payload)); [apply Hfail | apply Hok].
Qed.

(** The geocoder never broadcasts and never touches the incidents table. *)
Lemma geocodeLocation_silent p w0 w :
  grows silent w0 w ->
  wp (geocodeLocation E p) (fun _ w' => grows silent w0 w') w.
Proof.
  intros G. unfold geocodeLocation.
  apply wp_bind, wp_interpolate; [intros _ | intros _; exact G].
  apply wp_bind, wp_getCache. intros cached failed.
  set (w1 := log (Pg (SelectCache (geocode_key E p)) failed) w).
  assert (G1 : grows silent w0 w1) by (apply grows_log; [now repeat split | exact G]).
  destruct (truthy cached); [apply wp_ret; exact G1|].
  apply wp_bind, (wp_mono _ (fun _ w' => grows silent w0 w')).
  { intros [[coords|]|e] w' H; [apply wp_ret | apply wp_ret |]; exact H. }
  apply wp_try_catch, wp_bind, wp_nominatim_search.
  set (w2 := log (NominatimGet p) w1).
  assert (G2 : grows silent w0 w2) by (apply grows_log; [now repeat split | exact G1]).
  assert (Hcatch : forall e,
             wp (bind (effect (ConsoleError "Geocoding error:" e))
                   (fun _ => ret (A := option JsVal) None))
               (fun _ w' => grows silent w0 w') w2).
  { intros e. apply wp_bind, wp_effect, wp_ret.
    apply grows_log; [now repeat split | exact G2]. }
  intros [response_data | e]; [| apply Hcatch].
  apply wp_bind, wp_stateless; [apply index0_stateless|].
  intros [result | e]; [| apply Hcatch].
  destruct (truthy result); [| apply wp_ret; exact G2].
  apply wp_bind, wp_stateless; [apply member_stateless|].
  intros [lat | e]; [| apply Hcatch].
  apply wp_bind, wp_stateless; [apply parse_float_stateless|].
  intros [lat_number | e]; [| apply Hcatch].
  apply wp_bind, wp_stateless; [apply member_stateless|].
  intros [lon | e]; [| apply Hcatch].
  apply wp_bind, wp_stateless; [apply parse_float_stateless|].
  intros [lon_number | e]; [| apply Hcatch].
  apply wp_bind, wp_setCache; apply wp_ret;
    (apply grows_log; [now repeat split |]);
    [exact G2 | eapply grows_same_trace; [|exact G2]; reflexivity].
Qed.

Lemma create_outcome_caught w w' e :
  grows silent w w' ->
  wp (bind (effect (ConsoleError "Error creating disaster:" e))
        (fun _ => status_json 500 (error_body "Failed to create disaster")))
     (create_outcome w) w'.
Proof.
  intros G. apply wp_bind, wp_effect, wp_ret.
  assert (G' : grows silent w (log (ConsoleError "Error creating disaster:" e) w'))
    by (apply grows_log; [now repeat split | exact G]).
  destruct G' as (evs & Ht & Hall).
  exists evs. split; [exact Ht|]. right. right. right. now split.
Qed.

(** The geocoding block of the two incident routes never broadcasts and
    never touches the incidents table. *)
Lemma location_of_silent location_name w0 w :
  grows silent w0 w ->
  wp (location_of E location_name) (fun _ w' => grows silent w0 w') w.
Proof.
  intros G0. unfold location_of.
  destruct (truthy location_name); [| apply wp_ret; exact G0].
  apply wp_bind. eapply wp_mono; [| apply geocodeLocation_silent; exact G0].
  intros [coords | e] w' G; [| exact G]. cbn beta.
  destruct (truthy coords); [| apply wp_ret; exact G].
  apply wp_bind, wp_stateless; [apply member_stateless|].
  intros [lng | e]; [| exact G].
  apply wp_bind, wp_interpolate; [intros _ | intros _; exact G].
  apply wp_bind, wp_stateless; [apply member_stateless|].
  intros [lat | e]; [| exact G].
  apply wp_bind, wp_interpolate; [intros _ | intros _; exact G].
  apply wp_ret. exact G.
Qed.

Lemma post_disasters_outcome req_body w :
  wp (post_disasters E req_body) (create_outcome w) w.
Proof.
  unfold post_disasters. apply wp_try_catch.
  pose proof (grows_refl silent w) as G0.
  apply wp_bind, wp_stateless; [apply member_stateless|].
  intros [title | e]; [| now apply create_outcome_caught].
  apply wp_bind, wp_stateless; [apply member_stateless|].
  intros [location_name | e]; [| now apply create_outcome_caught].
  apply wp_bind, wp_stateless; [apply member_stateless|].
  intros [description | e]; [| now apply create_outcome_caught].
  apply wp_bind, wp_stateless; [apply member_stateless|].
  intros [tags | e]; [| now apply create_outcome_caught].
  apply wp_bind, wp_stateless; [apply member_stateless|].
  intros [owner_id0 | e]; [| now apply create_outcome_caught].
  (* the geocoding of the place name *)
  apply wp_bind.
  eapply wp_mono; [| apply (location_of_silent location_name w w G0)].
  intros [location | e] w1 G1; [| now apply create_outcome_caught].
  apply wp_bind, wp_Date_now, wp_bind, wp_disasters_insert.
  - (* the write failed *)
    intros e. apply wp_throw, wp_bind, wp_effect, wp_ret.
    destruct G1 as (pre & Ht & Hall).
    eexists. split.
    + cbn [trace log]. rewrite Ht, <- !app_assoc. reflexivity.
    + right. left. exists pre. eexists. exists e. cbn [app]. now repeat split.
  - (* the write is confirmed *)
    intros row.
    assert (Hthrown : forall e w2,
               trace w2 = trace w1 ++ [Pg (InsertDisaster
                   (JObj [("title", title); ("location_name", location_name);
                          ("location", location); ("description", description);
                          ("tags", tags);
                          ("owner_id", or_default owner_id0 (JStr "netrunnerX"));
                          ("audit_trail",
                           JArr [JObj [("action", JStr "create");
                                       ("user_id", or_default owner_id0 (JStr "netrunnerX"));
                                       ("timestamp", JStr (Date_toJSON E (clock w1)))]])]))
                   false] ->
               wp (bind (effect (ConsoleError "Error creating disaster:" e))
                     (fun _ => status_json 500 (error_body "Failed to create disaster")))
                  (create_outcome w) w2).
    { intros e w2 Ht2. apply wp_bind, wp_effect, wp_ret.
      destruct G1 as (pre & Ht & Hall).
      eexists. split.
      + cbn [trace log]. rewrite Ht2, Ht, <- !app_assoc. reflexivity.
      + right. right. left. exists pre. eexists. exists e. cbn [app]. now repeat split. }
    apply wp_bind, wp_interpolate; [intros _ | intros _; now apply Hthrown].
    apply wp_bind, wp_interpolate; [intros _ | intros _; now apply Hthrown].
    apply wp_bind, wp_effect, wp_bind, wp_effect, wp_ret.
    destruct G1 as (pre & Ht & Hall).
    eexists. split.
    + cbn [trace log with_disasters]. rewrite Ht, <- !app_assoc. reflexivity.
    + left. exists pre. do 2 eexists. exists row. cbn [app]. now repeat split.
Qed.

Lemma silent_no_emit evs : Forall silent evs -> count is_emit evs = 0%nat.
Proof.
  induction 1 as [| e evs (He & _) _ IH]; [reflexivity|].
  unfold count in *. cbn. now rewrite He.
Qed.

Lemma silent_no_insert evs : Forall silent evs -> count is_insert evs = 0%nat.
Proof.
  induction 1 as [| e evs (_ & He) _ IH]; [reflexivity|].
  unfold count in *. cbn. now rewrite He.
Qed.

Lemma count_emit_log e t : is_emit e = false -> count is_emit (t ++ [e]) = count is_emit t.
Proof. intros He. rewrite count_app. unfold count at 2. cbn. rewrite He. cbn. lia. Qed.

(** C8, where the code departs from it. The log line between the insert
    and the broadcast converts the title of the request in a template
    literal.  When the title cannot be converted (an object with a property
    named toString) and the insert is confirmed, the row is in the table,
    the line throws, nothing is broadcast and the answer is 500. *)
Theorem C8_confirmed_write_without_broadcast (fields : list (string * JsVal)) (w : World) :
  let payload := create_payload E fields JNull (clock w) in
  let run := post_disasters E (JObj fields) w in
  truthy (assoc_get fields "location_name") = false ->
  cannot_convert (assoc_get fields "title") = true ->
  pg_fault E w (InsertDisaster payload) = None ->
  disasters (snd run) = disasters w ++ [pg_inserted_row E w payload]
  /\ trace (snd run)
     = trace w ++ [Pg (InsertDisaster payload) false;
                   ConsoleError "Error creating disaster:" TypeError_convert]
  /\ count is_emit (trace (snd run)) = count is_emit (trace w)
  /\ fst run = Normal {| status := 500; body := error_body "Failed to create disaster" |}.
Proof.
  intros payload run Hname Htitle Hok.
  assert (Hrun : run
                 = (Normal {| status := 500; body := error_body "Failed to create disaster" |},
                    log (ConsoleError "Error creating disaster:" TypeError_convert)
                      (log (Pg (InsertDisaster payload) false)
                         (with_disasters (disasters w ++ [pg_inserted_row E w payload]) w)))).
  { subst run. unfold post_disasters, try_catch, bind, member, ret. cbv beta iota.
    unfold location_of. rewrite Hname. unfold ret, Date_now, disasters_insert. cbv beta iota.
    change (pg_fault E w (InsertDisaster _)) with (pg_fault E w (InsertDisaster payload)).
    rewrite Hok. unfold interpolate. rewrite Htitle. reflexivity. }
  rewrite Hrun. cbn [fst snd trace disasters log with_disasters].
  split; [reflexivity|]. split; [now rewrite <- app_assoc|]. split; [|reflexivity].
  now rewrite !count_emit_log.
Qed.

End BroadcastFacts.

(** ** The theorems at work on sample runs *)

Lemma C5_witness :
  fst (getCache online "k" late_world) = Normal JNull
  /\ fst (getCache online "k" early_world) = Normal (num 7).
Proof.
  assert (Hdate : valid_date (clock sample_world + 60 * 60 * 1000))
    by (unfold valid_date; simpl; lia).
  split.
  - apply (proj1 (C5_entry_expires_after_ttl online "k" (num 7) 60 sample_world late_world
                    eq_refl eq_refl Hdate)).
    reflexivity.
  - destruct (proj2 (C5_entry_expires_after_ttl online "k" (num 7) 60 sample_world early_world
                       eq_refl eq_refl Hdate) eq_refl eq_refl) as [_ Hclean].
    exact (Hclean eq_refl).
Defined.

(** C5 as the specification words it fails: coordinates that did not parse
    are stored as JSON has them, with null for NaN, and that is what a get
    five seconds later returns. *)
Lemma C5_counterexample :
  ~ get_returns_what_was_set online "geocode_Atlantis" unparsed_coords 60 sample_world.
Proof.
  intros H. destruct (H 5000) as [_ Hearly].
  assert (Hget : fst (getCache online "geocode_Atlantis"
                        (advance 5000
                           (snd (setCache online "geocode_Atlantis" unparsed_coords 60
                                   sample_world))))
                 = Normal unparsed_coords) by (apply Hearly; lia).
  vm_compute in Hget. discriminate Hget.
Qed.

Lemma C8_witness :
  length (disasters (snd (post_disasters online (JObj odd_title) sample_world))) = 1%nat
  /\ count is_emit (trace (snd (post_disasters online (JObj odd_title) sample_world))) = 0%nat
  /\ fst (post_disasters online (JObj odd_title) sample_world)
     = Normal {| status := 500; body := error_body "Failed to create disaster" |}.
Proof.
  destruct (C8_confirmed_write_without_broadcast online odd_title sample_world
              eq_refl eq_refl eq_refl) as (Hrows & _ & Hemit & Hanswer).
  split; [now rewrite Hrows|]. split; [now rewrite Hemit | exact Hanswer].
Defined.

Lemma C4_witness :
  (fst (geocodeLocation nothing_found (JStr "Atlantis") sample_world) = Normal JNull
   /\ cache (snd (geocodeLocation nothing_found (JStr "Atlantis") sample_world))
      = cache sample_world
   /\ count is_cache_write (trace (snd (geocodeLocation nothing_found (JStr "Atlantis")
                                          sample_world)))
      = count is_cache_write (trace sample_world))
  /\ (fst (geocodeLocation offline (JStr "Atlantis") sample_world) = Normal JNull
      /\ cache (snd (geocodeLocation offline (JStr "Atlantis") sample_world))
         = cache sample_world
      /\ count is_cache_write (trace (snd (geocodeLocation offline (JStr "Atlantis")
                                             sample_world)))
         = count is_cache_write (trace sample_world)).
Proof.
  split.
  - eapply (C4_geocoder_not_found nothing_found "Atlantis" sample_world);
      [reflexivity | reflexivity | left; reflexivity].
  - eapply (C4_geocoder_not_found offline "Atlantis" sample_world);
      [reflexivity | reflexivity | right; exists refused; reflexivity].
Defined.

Lemma C9_witness :
  fst (geocodeLocation offline (JStr "Manhattan, NYC") primed_world) = Normal manhattan_coords
  /\ fst (geocodeLocation offline (JStr "Manhattan, NYC")
            (advance 1000 (snd (geocodeLocation offline (JStr "Manhattan, NYC") primed_world))))
     = Normal manhattan_coords
  /\ count is_nominatim_call
       (trace (snd (geocodeLocation offline (JStr "Manhattan, NYC") primed_world)))
     = count is_nominatim_call (trace primed_world)
  /\ count is_nominatim_call
       (trace (snd (geocodeLocation offline (JStr "Manhattan, NYC")
                      (advance 1000
                         (snd (geocodeLocation offline (JStr "Manhattan, NYC") primed_world))))))
     = count is_nominatim_call (trace primed_world).
Proof.
  apply (C9_primed_geocoder_hits_cache offline "Manhattan, NYC" primed_world
           {| value := manhattan_coords; expires_at := 1000 + 3600000 |}
           (Fin (407831 # 10000)) (Fin (-739712 # 10000)) 1000).
  - split; reflexivity.
  - reflexivity.
  - lia.
  - reflexivity.
  - reflexivity.
  - reflexivity.
Defined.

Lemma C3_witness :
  fst (post_geocode nothing_found (JObj [("text", JStr "Roads are closed")]) sample_world)
  = Normal {| status := 400; body := error_body "Could not extract location" |}
  /\ snd (post_geocode nothing_found (JObj [("text", JStr "Roads are closed")]) sample_world)
     = snd (extractLocationWithGemini nothing_found (JStr "Roads are closed") sample_world)
  /\ cache (snd (post_geocode nothing_found (JObj [("text", JStr "Roads are closed")])
                   sample_world))
     = cache sample_world
  /\ exists evs,
       trace (snd (post_geocode nothing_found (JObj [("text", JStr "Roads are closed")])
                     sample_world))
       = trace sample_world ++ evs
       /\ Forall (fun e => is_cache_write e = false /\ is_geocoding_effect e = false) evs.
Proof.
  apply (C3_no_location_short_circuits nothing_found [("text", JStr "Roads are closed")]
           sample_world JNull); reflexivity.
Defined.

Lemma C2_witness :
  exists score : Z,
    fst (verifyImageWithGemini online (JStr flood_jpg) sample_world)
    = Normal (JObj [("score", num score);
                    ("reasoning", JStr (trim "  Likely authentic: water level matches reports. "));
                    ("status", JStr "verified")])
    /\ score = Qfloor ((1 # 2) * 3) + 7
    /\ 7 <= score <= 10.
Proof.
  eapply (C2_score_is_drawn_not_read online flood_jpg sample_world _ _ authentic);
    [reflexivity | reflexivity | reflexivity | reflexivity | | ];
    unfold Qle, Qlt; cbn; lia.
Defined.

Lemma C1_witness :
  fst (verifyImageWithGemini offline (JStr flood_jpg) sample_world) = Normal degraded
  /\ cache (snd (verifyImageWithGemini offline (JStr flood_jpg) sample_world))
     = cache sample_world
  /\ count is_cache_write
       (trace (snd (verifyImageWithGemini offline (JStr flood_jpg) sample_world)))
     = count is_cache_write (trace sample_world)
  /\ forall (d : Z) (cached' : JsVal) (w1' : World),
       getCache offline (verify_key offline (JStr flood_jpg))
         (advance d (snd (verifyImageWithGemini offline (JStr flood_jpg) sample_world)))
       = (Normal cached', w1') ->
       truthy cached' = false ->
       count is_vision_call
         (trace (snd (verifyImageWithGemini offline (JStr flood_jpg)
                        (advance d (snd (verifyImageWithGemini offline (JStr flood_jpg)
                                           sample_world))))))
       = S (count is_vision_call
              (trace (snd (verifyImageWithGemini offline (JStr flood_jpg) sample_world)))).
Proof.
  eapply (C1_degraded_result_is_not_cached offline flood_jpg sample_world _ _ refused);
    [reflexivity | reflexivity | left; reflexivity].
Defined.

(** C1 as the specification words it fails: with the provider out of
    reach, the degraded result is returned and the cache is still empty. *)
Lemma C1_counterexample : ~ degraded_result_cached offline flood_jpg sample_world.
Proof.
  intros H.
  destruct (H JNull _ refused eq_refl eq_refl eq_refl) as (_ & (row & Hrow & _) & _).
  vm_compute in Hrow. discriminate Hrow.
Qed.

Lemma C6_witness :
  get_resources no_rpc "d1" (JObj nearby_request) sample_world
  = get_resources no_rpc "d1" (JObj []) (log (Pg nearby_rpc true) sample_world)
  /\ (pg_fault no_rpc (log (Pg nearby_rpc true) sample_world) (SelectResources "d1") = None ->
      fst (get_resources no_rpc "d1" (JObj nearby_request) sample_world)
      = Normal {| status := 200; body := resources_of "d1" sample_world |}).
Proof.
  eapply (C6_failed_proximity_falls_back no_rpc "d1" nearby_request [] sample_world);
    reflexivity.
Defined.

Lemma C7_witness :
  fst (post_verify_image online "d1" (JObj verify_request) sample_world)
  = Normal {| status := 200; body := JObj verified_result |}
  /\ map verification_status
       (reports (snd (post_verify_image online "d1" (JObj verify_request) sample_world)))
     = [JStr "verified"; JStr "verified"; JStr "pending"].
Proof.
  pose proof (C7_status_written_by_image_url online "d1" verify_request verified_result
                sample_world _ eq_refl) as H.
  cbv zeta in H. destruct H as (Hres & Hreports & _); [discriminate | reflexivity |].
  split; [exact Hres | now rewrite Hreports].
Defined.

Lemma C10_witness :
  fst (post_verify_image offline "d1" (JObj verify_request) sample_world)
  = Normal {| status := 200; body := degraded |}
  /\ map verification_status
       (reports (snd (post_verify_image offline "d1" (JObj verify_request) sample_world)))
     = [JStr "pending"; JStr "pending"; JStr "pending"].
Proof.
  pose proof (C10_failed_verification_resets_status offline "d1" verify_request
                sample_world _ _ refused eq_refl eq_refl (or_introl eq_refl) eq_refl) as H.
  cbv zeta in H. destruct H as (Hres & Hreports & _).
  split; [exact Hres | now rewrite Hreports].
Defined.

(** ** Sample runs, evaluated *)

Example trim_strips_both_ends : trim "  Manhattan, NYC " = "Manhattan, NYC".
Proof. reflexivity. Qed.

Example trim_of_blank : trim (String "009" (String "010" " ")) = "".
Proof. reflexivity. Qed.

Example trim_strips_unicode_spaces :
  trim (nbsp +:+ " Oslo, Norway" +:+ wide_space +:+ nbsp) = "Oslo, Norway".
Proof. reflexivity. Qed.

Example trim_of_no_break_space : trim nbsp = "".
Proof. reflexivity. Qed.

Example a_blank_tag_is_dropped : parse_tags ("a," +:+ nbsp +:+ ",b") = ["a"; "b"].
Proof. reflexivity. Qed.

(** An object with a property named toString cannot be converted, alone
    or in an array; a plain object can. *)
Example conversions :
  cannot_convert (JObj [("toString", num 1)]) = true
  /\ cannot_convert (JArr [JNull; JObj [("toString", num 1)]]) = true
  /\ cannot_convert (JObj [("title", JStr "Flood")]) = false
  /\ ToString online (JArr [JNull; JStr "a"; JObj []]) = ",a,[object Object]".
Proof. repeat split. Qed.

(** The text of a request that cannot be converted: the extractor throws
    and the route answers 500. *)
Example unconvertible_text_is_a_failure :
  fst (post_geocode online (JObj [("text", JObj [("toString", num 1)])]) sample_world)
  = Normal {| status := 500; body := error_body "Geocoding failed" |}.
Proof. reflexivity. Qed.

(** What JSON keeps of a value. *)
Example json_of_unparsed_coordinates :
  to_json unparsed_coords = JObj [("lat", JNull); ("lng", JNull)]
  /\ to_json (JObj [("a", JUndefined); ("b", JArr [JUndefined; JNum (Infinity false)])])
     = JObj [("b", JArr [JNull; JNull])].
Proof. split; reflexivity. Qed.

(** The scenario of the specification: the text is resolved to a name and
    the name to coordinates; the same request five seconds later gets the
    same answer with every provider out of reach. *)
Example manhattan_first_call :
  fst (post_geocode online manhattan_request sample_world)
  = Normal {| status := 200;
              body := JObj [("locationName", JStr "Manhattan, NYC");
                            ("coordinates", manhattan_coords)] |}.
Proof. reflexivity. Qed.

Example manhattan_second_call :
  fst (post_geocode offline manhattan_request
         (advance 5000 (snd (post_geocode online manhattan_request sample_world))))
  = fst (post_geocode online manhattan_request sample_world)
  /\ count is_nominatim_call
       (trace (snd (post_geocode offline manhattan_request
                      (advance 5000 (snd (post_geocode online manhattan_request
                                            sample_world))))))
     = 1%nat.
Proof. split; reflexivity. Qed.

(** A verified report goes back to pending once the cached result has
    expired and the provider fails. *)
Example verified_within_the_hour :
  statuses (snd (post_verify_image flaky "d1" (JObj verify_request) sample_world))
  = [JStr "verified"; JStr "verified"; JStr "pending"]
  /\ statuses (snd (post_verify_image offline "d1" (JObj verify_request)
                      (advance 3599999
                         (snd (post_verify_image flaky "d1" (JObj verify_request)
                                 sample_world)))))
     = [JStr "verified"; JStr "verified"; JStr "pending"].
Proof. split; reflexivity. Qed.

Example pending_after_the_hour :
  statuses (snd (post_verify_image flaky "d1" (JObj verify_request)
                   (advance 3600001
                      (snd (post_verify_image flaky "d1" (JObj verify_request)
                              sample_world)))))
  = [JStr "pending"; JStr "pending"; JStr "pending"].
Proof. reflexivity. Qed.

(** A failed verification is asked again on the next call. *)
Example failure_is_retried :
  count is_vision_call
    (trace (snd (verifyImageWithGemini offline (JStr flood_jpg)
                   (snd (verifyImageWithGemini offline (JStr flood_jpg) sample_world)))))
  = 2%nat.
Proof. reflexivity. Qed.

Example create_broadcasts_once :
  List.filter is_emit (trace (snd (post_disasters online create_request sample_world)))
  = [created_event (JObj [("id", num 0);
                          ("row", JObj [("title", JStr "NYC Flood");
                                        ("location_name", JStr "Manhattan, NYC");
                                        ("location", JStr "POINT(0 0)");
                                        ("description", JStr "Heavy flooding");
                                        ("tags", JArr [JStr "flood"]);
                                        ("owner_id", JStr "netrunnerX");
                                        ("audit_trail",
                                         JArr [JObj [("action", JStr "create");
                                                     ("user_id", JStr "netrunnerX");
                                                     ("timestamp",
                                                      JStr "2025-06-01T00:00:00.000Z")]])])])].
Proof. reflexivity. Qed.

(** An incident whose title cannot be converted is stored and not
    announced. *)
Example odd_title_is_stored_unannounced :
  List.filter is_emit (trace (snd (post_disasters online (JObj odd_title) sample_world))) = []
  /\ List.filter is_insert (trace (snd (post_disasters online (JObj odd_title) sample_world)))
     = [Pg (InsertDisaster (create_payload online odd_title JNull 1000)) false].
Proof. split; reflexivity. Qed.

Example failed_create_broadcasts_nothing :
  List.filter is_emit (trace (snd (post_disasters no_insert create_request sample_world))) = []
  /\ fst (post_disasters no_insert create_request sample_world)
     = Normal {| status := 500; body := error_body "Failed to create disaster" |}.
Proof. split; reflexivity. Qed.

Example fallback_lists_the_incident :
  fst (get_resources no_rpc "d1" (JObj nearby_request) sample_world)
  = Normal {| status := 200;
              body := JArr [JObj [("name", JStr "Red Cross Shelter")];
                            JObj [("name", JStr "Field hospital")]] |}.
Proof. reflexivity. Qed.

(** ** What the four cached helpers have in common *)

Section HelperFacts.
Variable E : Env.

Lemma helper_post_unchanged arg key w v w' :
  cannot_convert arg = false ->
  same_tables w w' -> cache w' = cache w -> helper_post arg key w (Normal v) w'.
Proof.
  intros Hc Ht Hcache. unfold helper_post. rewrite Hc.
  split; [eauto|]. split; [exact Ht|]. now left.
Qed.

Lemma helper_post_thrown arg key w :
  cannot_convert arg = true -> helper_post arg key w (Throw TypeError_convert) w.
Proof.
  intros Hc. unfold helper_post. rewrite Hc.
  split; [now split|]. split; [now repeat split | now left].
Qed.

Lemma helper_post_stored arg key w c v w' :
  cannot_convert arg = false ->
  same_tables w w' -> truthy v = true ->
  cache w' = <[key := {| value := v; expires_at := clock w + 60 * 60 * 1000 |}]> (cache w) ->
  helper_post arg key w (Normal c) w'.
Proof.
  intros Hc Ht Hv Hcache. unfold helper_post. rewrite Hc.
  split; [eauto|]. split; [exact Ht|]. right. now exists v.
Qed.

Lemma helper_post_null arg key w v w' :
  helper_post arg key w (Normal v) w' -> helper_post arg key w (Normal JNull) w'.
Proof.
  unfold helper_post. destruct (cannot_convert arg).
  - now intros ((H & _) & _).
  - intros (_ & H). split; eauto.
Qed.

Lemma same_tables_log w e : same_tables w (log e w).
Proof. now repeat split. Qed.

Lemma geocodeLocation_helper p w :
  wp (geocodeLocation E p) (helper_post p (geocode_key E p) w) w.
Proof.
  unfold geocodeLocation.
  apply wp_bind, wp_interpolate; [intros Hc | now apply helper_post_thrown].
  apply wp_bind, wp_getCache. intros cached failed.
  set (w1 := log (Pg (SelectCache (geocode_key E p)) failed) w).
  destruct (truthy cached); [apply wp_ret; now apply helper_post_unchanged|].
  apply wp_bind, (wp_mono _ (fun c w' => match c with
                                        | Normal _ =>
                                            helper_post p (geocode_key E p) w (Normal JNull) w'
                                        | Throw _ => False
                                        end)).
  { intros [[coords|]|e] w' H; [| |contradiction]; apply wp_ret; [|exact H].
    revert H. unfold helper_post. rewrite Hc. intros (_ & H). split; eauto. }
  apply wp_try_catch, wp_bind, wp_nominatim_search.
  set (w2 := log (NominatimGet p) w1).
  assert (Hcatch : forall e,
             wp (bind (effect (ConsoleError "Geocoding error:" e))
                   (fun _ => ret (A := option JsVal) None))
               (fun c w' => match c with
                            | Normal _ => helper_post p (geocode_key E p) w (Normal JNull) w'
                            | Throw _ => False
                            end) w2).
  { intros e. apply wp_bind, wp_effect, wp_ret. now apply helper_post_unchanged. }
  intros [response_data | e]; [| apply Hcatch].
  apply wp_bind, wp_stateless; [apply index0_stateless|].
  intros [result | e]; [| apply Hcatch].
  destruct (truthy result); [| apply wp_ret; now apply helper_post_unchanged].
  apply wp_bind, wp_stateless; [apply member_stateless|].
  intros [lat | e]; [| apply Hcatch].
  apply wp_bind, wp_stateless; [apply parse_float_stateless|].
  intros [lat_number | e]; [| apply Hcatch].
  apply wp_bind, wp_stateless; [apply member_stateless|].
  intros [lon | e]; [| apply Hcatch].
  apply wp_bind, wp_stateless; [apply parse_float_stateless|].
  intros [lon_number | e]; [| apply Hcatch].
  apply wp_bind, wp_setCache; apply wp_ret.
  - now apply helper_post_unchanged.
  - eapply helper_post_stored; [exact Hc | now repeat split | | reflexivity]. reflexivity.
Qed.

Lemma extract_helper text w :
  wp (extractLocationWithGemini E text) (helper_post text (extract_key E text) w) w.
Proof.
  unfold extractLocationWithGemini.
  apply wp_bind, wp_interpolate; [intros Hc | now apply helper_post_thrown].
  apply wp_bind, wp_getCache. intros cached failed.
  set (w1 := log (Pg (SelectCache (extract_key E text)) failed) w).
  destruct (truthy cached); [apply wp_ret; now apply helper_post_unchanged|].
  pose (attempted := fun (c : Completion (option JsVal)) (w' : World) =>
          match c with
          | Normal _ => helper_post text (extract_key E text) w (Normal JNull) w'
          | Throw _ => False
          end).
  apply wp_bind, (wp_mono _ attempted).
  { intros [[name|]|e] w' H; [| |contradiction]; apply wp_ret; [|exact H].
    revert H. unfold helper_post. rewrite Hc. intros (_ & H). split; eauto. }
  apply wp_try_catch, wp_bind, wp_interpolate; [intros _ | congruence].
  apply wp_bind, wp_gemini_generate.
  set (w2 := log (GeminiPost (extract_prompt E text)) w1).
  assert (Hcatch : forall e,
             wp (bind (effect (ConsoleError "Gemini API (extractLocation) error:" e))
                   (fun _ => ret None)) attempted w2).
  { intros e. apply wp_bind, wp_effect, wp_ret. now apply helper_post_unchanged. }
  intros [response_data | e]; [| apply Hcatch].
  apply wp_bind, wp_stateless; [apply member_stateless|].
  intros [candidates | e]; [| apply Hcatch].
  apply wp_bind, wp_stateless; [apply opt_index0_stateless|].
  intros [candidate | e]; [| apply Hcatch].
  apply wp_bind, wp_stateless; [apply opt_member_stateless|].
  intros [content | e]; [| apply Hcatch].
  apply wp_bind, wp_stateless; [apply opt_member_stateless|].
  intros [parts | e]; [| apply Hcatch].
  apply wp_bind, wp_stateless; [apply opt_index0_stateless|].
  intros [part | e]; [| apply Hcatch].
  apply wp_bind, wp_stateless; [apply opt_member_stateless|].
  intros [part_text | e]; [| apply Hcatch].
  apply wp_bind, wp_opt_trim; [intros name | | apply Hcatch].
  2:{ apply wp_ret. now apply helper_post_unchanged. }
  destruct (truthy (JStr name)) eqn:Hname;
    [| apply wp_ret; now apply helper_post_unchanged].
  apply wp_bind, wp_setCache; apply wp_ret.
  - now apply helper_post_unchanged.
  - eapply helper_post_stored; [exact Hc | now repeat split | exact Hname | reflexivity].
Qed.

Lemma verify_helper url w :
  wp (verifyImageWithGemini E url) (helper_post url (verify_key E url) w) w.
Proof.
  unfold verifyImageWithGemini.
  apply wp_bind, wp_interpolate; [intros Hc | now apply helper_post_thrown].
  fold (verify_key E url).
  apply wp_bind, wp_getCache. intros cached failed.
  set (w1 := log (Pg (SelectCache (verify_key E url)) failed) w).
  destruct (truthy cached); [apply wp_ret; now apply helper_post_unchanged|].
  apply wp_try_catch, wp_bind, wp_interpolate; [intros _ | congruence].
  apply wp_bind. unfold wp at 1, generateContent. cbn [fst snd].
  fold (verify_prompt E url).
  set (w2 := log (GenerateContent (verify_prompt E url)) w1).
  assert (Hcatch : forall e w',
             same_tables w w' -> cache w' = cache w ->
             wp (bind (effect (ConsoleError "Gemini image verification error:" e))
                   (fun _ => ret degraded))
               (helper_post url (verify_key E url) w) w').
  { intros e w' Ht Hcache. apply wp_bind, wp_effect, wp_ret.
    apply helper_post_unchanged; [exact Hc | | exact Hcache].
    destruct Ht as (? & ? & ? & ?). now repeat split. }
  destruct (genAI_generateContent E w1 (verify_prompt E url)) as [result|e];
    [| now apply Hcatch].
  apply wp_bind. unfold wp at 1, random. cbn [fst snd].
  apply wp_bind. unfold wp at 1, await. cbn [fst snd].
  destruct (response_text result) as [reasoning|e]; [| now apply Hcatch].
  apply wp_bind, wp_setCache; apply wp_ret.
  - now apply helper_post_unchanged.
  - eapply helper_post_stored; [exact Hc | now repeat split | | reflexivity]. reflexivity.
Qed.

Lemma fetchOfficialUpdates_helper w :
  wp (fetchOfficialUpdates E) (helper_post JNull official_updates_key w) w.
Proof.
  unfold fetchOfficialUpdates.
  apply wp_bind, wp_getCache. intros cached failed.
  destruct (truthy cached); [apply wp_ret; now apply helper_post_unchanged|].
  apply wp_try_catch, wp_bind, wp_Date_now, wp_bind, wp_Date_now.
  apply wp_bind, wp_setCache; apply wp_ret.
  - now apply helper_post_unchanged.
  - eapply helper_post_stored; [reflexivity | now repeat split | | reflexivity]. reflexivity.
Qed.

Lemma helper_post_completion arg key w c w' :
  helper_post arg key w c w' ->
  if cannot_convert arg then (c, w') = (Throw TypeError_convert, w) else exists v, c = Normal v.
Proof.
  unfold helper_post. destruct (cannot_convert arg); [|now intros (H & _)].
  now intros ((-> & ->) & _).
Qed.

Lemma helper_post_confined arg key w c w' : helper_post arg key w c w' -> confined key w w'.
Proof.
  intros (_ & Ht & Hc). split; [exact Ht|]. intros k Hk.
  destruct Hc as [-> | (v & _ & ->)]; [reflexivity|]. now apply lookup_insert_ne.
Qed.

(** X1. A cached helper throws only while it builds its cache key.  On an
    argument that a template literal cannot convert (an object with a
    property named toString, or an array that holds one) it throws a
    TypeError before any effect; on every other argument, every string
    among them, it returns a value, whatever a provider answers, well
    formed or not, and whether or not the cache can be reached.  The
    helper of the bulletins, which has no argument, always returns. *)
Theorem helpers_throw_only_on_their_key (p text url : JsVal) (w : World) :
  (if cannot_convert p then geocodeLocation E p w = (Throw TypeError_convert, w)
   else exists v, fst (geocodeLocation E p w) = Normal v)
  /\ (if cannot_convert text
      then extractLocationWithGemini E text w = (Throw TypeError_convert, w)
      else exists v, fst (extractLocationWithGemini E text w) = Normal v)
  /\ (if cannot_convert url then verifyImageWithGemini E url w = (Throw TypeError_convert, w)
      else exists v, fst (verifyImageWithGemini E url w) = Normal v)
  /\ (exists v, fst (fetchOfficialUpdates E w) = Normal v).
Proof.
  split; [|split; [|split]].
  - pose proof (helper_post_completion _ _ _ _ _ (geocodeLocation_helper p w)) as H.
    destruct (cannot_convert p); [|exact H]. now rewrite <- H, <- surjective_pairing.
  - pose proof (helper_post_completion _ _ _ _ _ (extract_helper text w)) as H.
    destruct (cannot_convert text); [|exact H]. now rewrite <- H, <- surjective_pairing.
  - pose proof (helper_post_completion _ _ _ _ _ (verify_helper url w)) as H.
    destruct (cannot_convert url); [|exact H]. now rewrite <- H, <- surjective_pairing.
  - exact (helper_post_completion JNull _ _ _ _ (fetchOfficialUpdates_helper w)).
Qed.

(** X2. Each cached helper leaves the clock and the incidents, resources
    and reports tables alone, and changes the cache at no key but its own:
    the geocode key of the name, the extraction key of the text, the
    verification key of the URL, the one key of the bulletins. *)
Theorem helpers_write_only_their_key (p text url : JsVal) (w : World) :
  confined (geocode_key E p) w (snd (geocodeLocation E p w))
  /\ confined (extract_key E text) w (snd (extractLocationWithGemini E text w))
  /\ confined (verify_key E url) w (snd (verifyImageWithGemini E url w))
  /\ confined official_updates_key w (snd (fetchOfficialUpdates E w)).
Proof.
  split; [|split; [|split]].
  - exact (helper_post_confined _ _ _ _ _ (geocodeLocation_helper p w)).
  - exact (helper_post_confined _ _ _ _ _ (extract_helper text w)).
  - exact (helper_post_confined _ _ _ _ _ (verify_helper url w)).
  - exact (helper_post_confined JNull _ _ _ _ (fetchOfficialUpdates_helper w)).
Qed.

End HelperFacts.

(** ** The last instant of an entry *)

Section ExpiryFacts.
Variable E : Env.

(** X3. The expiry instant itself is outside the window: an entry written
    at time [clock w0] for [ttl] minutes is already a miss for a read at
    exactly [clock w0 + ttl] minutes, and an entry written with a TTL of
    zero or less is a miss for every read from the write on. *)
Theorem entry_is_gone_at_its_expiry (key : string) (v : JsVal) (ttl : Z) (w0 w : World) :
  pg_fault E w0 (UpsertCache key {| value := v;
                                    expires_at := clock w0 + ttl * 60 * 1000 |}) = None ->
  cache w !! key = cache (snd (setCache E key v ttl w0)) !! key ->
  (clock w = clock w0 + ttl * 60 * 1000 -> fst (getCache E key w) = Normal JNull)
  /\ (ttl <= 0 -> clock w0 <= clock w -> fst (getCache E key w) = Normal JNull).
Proof.
  intros Hset Hkept. rewrite (setCache_stored E _ _ _ _ Hset) in Hkept.
  split.
  - intros Hnow. apply (getCache_expired E key w _ Hkept). cbn [expires_at]. lia.
  - intros Httl Hlater. apply (getCache_expired E key w _ Hkept). cbn [expires_at]. lia.
Qed.

End ExpiryFacts.

(** ** Cache keys *)

Section KeyFacts.
Variable E : Env.

Lemma append_inj_r (prefix a b : string) : prefix +:+ a = prefix +:+ b -> a = b.
Proof.
  induction prefix as [|c prefix IH]; cbn; [exact id|].
  intros [= H]. now apply IH.
Qed.

(** X4. The cache keys are the raw strings behind a fixed tag: two place
    names, texts or URLs share an entry only if they are the same string,
    character for character, and no key of one helper is a key of
    another. *)
Theorem cache_keys_are_separate (a b : string) (x y z : JsVal) :
  (geocode_key E (JStr a) = geocode_key E (JStr b) -> a = b)
  /\ (extract_key E (JStr a) = extract_key E (JStr b) -> a = b)
  /\ (verify_key E (JStr a) = verify_key E (JStr b) -> a = b)
  /\ geocode_key E x <> extract_key E y
  /\ geocode_key E x <> verify_key E z
  /\ extract_key E y <> verify_key E z
  /\ geocode_key E x <> official_updates_key
  /\ extract_key E y <> official_updates_key
  /\ verify_key E z <> official_updates_key.
Proof.
  repeat split; try (intros H; now apply append_inj_r in H); discriminate.
Qed.

End KeyFacts.

(** ** Results that are cached and found again *)

Section RoundTrips.
Variable E : Env.

Lemma geocodeLocation_match p w cached w1 hit rest :
  let key := geocode_key E p in
  let w2 := log (NominatimGet p) w1 in
  let coords := JObj [("lat", JNum (parseFloat E (assoc_get hit "lat")));
                      ("lng", JNum (parseFloat E (assoc_get hit "lon")))] in
  let row := {| value := coords; expires_at := clock w2 + 60 * 60 * 1000 |} in
  cannot_convert p = false ->
  getCache E key w = (Normal cached, w1) -> truthy cached = false ->
  axios_get_nominatim E w1 p = Normal (JArr (JObj hit :: rest)) ->
  cannot_convert (assoc_get hit "lat") = false ->
  cannot_convert (assoc_get hit "lon") = false ->
  geocodeLocation E p w
  = (Normal coords,
     match pg_fault E w2 (UpsertCache key row) with
     | Some _ => log (Pg (UpsertCache key row) true) w2
     | None =>
         log (Pg (UpsertCache key row) false)
           (with_cache (<[key := as_stored row]> (cache w2)) w2)
     end).
Proof.
  intros key w2 coords row Hc Hget Hmiss Hp Hlat Hlon. unfold geocodeLocation.
  rewrite (bind_interpolate E _ _ _ Hc). fold (geocode_key E p). fold key.
  rewrite (bind_normal _ _ _ _ _ Hget). rewrite Hmiss.
  unfold bind at 1, try_catch, bind at 1, nominatim_search. rewrite Hp. fold w2.
  cbn [index0]. unfold bind at 1. cbn [ret truthy member].
  unfold bind at 1. cbn [ret]. unfold bind at 1. rewrite (parse_float_converts E _ _ Hlat).
  unfold bind at 1. cbn [ret]. unfold bind at 1. rewrite (parse_float_converts E _ _ Hlon).
  unfold setCache, Date_now, cache_upsert, default_ttlMinutes, bind, ret.
  fold coords. fold row.
  now destruct (pg_fault E w2 (UpsertCache key row)).
Qed.

(** X5. On a miss, when Nominatim answers with at least one match whose
    [lat] and [lon] can be converted to a string (strings and numbers
    can), the geocoder returns the first match as {lat, lng}, the numbers
    read from its [lat] and [lon], and ignores the others.  Once that result is
    stored, a call for the same name less than an hour later returns the
    coordinates as JSON holds them, without a request to Nominatim: the
    same coordinates when both are finite numbers, and null in the place
    of one that did not parse. *)
Theorem geocode_result_is_found_again
    (p : string) (w w1 : World) (cached : JsVal)
    (hit : list (string * JsVal)) (rest : list JsVal) (d : Z) :
  let key := geocode_key E (JStr p) in
  let lat := parseFloat E (assoc_get hit "lat") in
  let lng := parseFloat E (assoc_get hit "lon") in
  let coords := JObj [("lat", JNum lat); ("lng", JNum lng)] in
  let first := geocodeLocation E (JStr p) w in
  let second := geocodeLocation E (JStr p) (advance d (snd first)) in
  getCache E key w = (Normal cached, w1) -> truthy cached = false ->
  axios_get_nominatim E w1 (JStr p) = Normal (JArr (JObj hit :: rest)) ->
  cannot_convert (assoc_get hit "lat") = false ->
  cannot_convert (assoc_get hit "lon") = false ->
  pg_fault E (log (NominatimGet (JStr p)) w1)
    (UpsertCache key {| value := coords; expires_at := clock w + 60 * 60 * 1000 |}) = None ->
  0 <= d < 60 * 60 * 1000 ->
  pg_fault E (advance d (snd first)) (SelectCache key) = None ->
  fst first = Normal coords
  /\ fst second = Normal (JObj [("lat", to_json (JNum lat)); ("lng", to_json (JNum lng))])
  /\ (forall a b, lat = Fin a -> lng = Fin b -> fst second = Normal coords)
  /\ (lat = NaN -> lng = NaN -> fst second = Normal (JObj [("lat", JNull); ("lng", JNull)]))
  /\ count is_nominatim_call (trace (snd first)) = S (count is_nominatim_call (trace w))
  /\ count is_nominatim_call (trace (snd second)) = count is_nominatim_call (trace (snd first)).
Proof.
  intros key lat lng coords first second Hget Hmiss Hp Hlat Hlon Hup Hd Hsel.
  destruct (getCache_frame E _ _ _ _ Hget) as (Hc & _ & Hclock & failed & Ht).
  pose proof (geocodeLocation_match (JStr p) w cached w1 hit rest eq_refl Hget Hmiss Hp
                Hlat Hlon) as Hfirst.
  cbv zeta in Hfirst. fold key lat lng in Hfirst. fold coords in Hfirst.
  cbn [clock log] in Hfirst.
  rewrite Hclock in Hfirst. rewrite Hup in Hfirst. fold first in Hfirst.
  set (row := {| value := coords; expires_at := clock w + 60 * 60 * 1000 |}) in *.
  set (stored := JObj [("lat", to_json (JNum lat)); ("lng", to_json (JNum lng))]).
  assert (Hstored : value (as_stored row) = stored) by reflexivity.
  assert (Hlive : live (advance d (snd first)) key (as_stored row)).
  { rewrite Hfirst. split; [cbn; apply lookup_insert_eq |].
    subst row. cbn. rewrite Hclock. lia. }
  assert (Hsecond : second = (Normal stored, log (Pg (SelectCache key) false)
                                               (advance d (snd first)))).
  { apply geocodeLocation_hit; [reflexivity | | reflexivity].
    rewrite <- Hstored. exact (getCache_live E key _ _ Hlive Hsel). }
  rewrite Hsecond. cbn [fst snd trace log advance].
  rewrite Hfirst. cbn [fst snd trace log with_cache].
  rewrite Ht, !count_app. cbn [count List.filter is_nominatim_call length app].
  split; [reflexivity|]. split; [reflexivity|].
  split; [intros a b Ha Hb; subst stored coords; now rewrite Ha, Hb|].
  split; [intros Ha Hb; subst stored; now rewrite Ha, Hb|].
  unfold count. cbn. split; lia.
Qed.

Lemma extract_answer text w cached w1 dfields cfields ofields pfields others more t :
  let key := extract_key E text in
  let w2 := log (GeminiPost (extract_prompt E text)) w1 in
  let row := {| value := JStr (trim t); expires_at := clock w2 + 60 * 60 * 1000 |} in
  cannot_convert text = false ->
  getCache E key w = (Normal cached, w1) -> truthy cached = false ->
  axios_post_gemini E w1 (extract_prompt E text) = Normal (JObj dfields) ->
  assoc_get dfields "candidates" = JArr (JObj cfields :: others) ->
  assoc_get cfields "content" = JObj ofields ->
  assoc_get ofields "parts" = JArr (JObj pfields :: more) ->
  assoc_get pfields "text" = JStr t ->
  trim t <> "" ->
  extractLocationWithGemini E text w
  = (Normal (JStr (trim t)),
     match pg_fault E w2 (UpsertCache key row) with
     | Some _ => log (Pg (UpsertCache key row) true) w2
     | None => log (Pg (UpsertCache key row) false) (with_cache (<[key := row]> (cache w2)) w2)
     end).
Proof.
  intros key w2 row Hconv Hget Hmiss Hp Hc Ho Hps Ht Hname.
  unfold extractLocationWithGemini.
  rewrite (bind_interpolate E _ _ _ Hconv). fold (extract_key E text). fold key.
  rewrite (bind_normal _ _ _ _ _ Hget). rewrite Hmiss.
  unfold bind at 1. rewrite (try_interpolate E _ _ _ _ Hconv).
  unfold try_catch, bind at 1, gemini_generate. fold (extract_prompt E text).
  rewrite Hp. fold w2.
  cbn [member]. unfold bind at 1. cbn [ret]. rewrite Hc.
  cbn [opt_index0 nullish index0]. unfold bind at 1. cbn [ret].
  cbn [opt_member nullish member]. unfold bind at 1. cbn [ret]. rewrite Ho.
  cbn [opt_member nullish member]. unfold bind at 1. cbn [ret]. rewrite Hps.
  cbn [opt_index0 nullish index0]. unfold bind at 1. cbn [ret].
  cbn [opt_member nullish member]. unfold bind at 1. cbn [ret]. rewrite Ht.
  cbn [opt_trim]. unfold bind at 1. cbn [ret truthy].
  destruct (String.eqb_spec (trim t) "") as [Heq|_]; [contradiction|]. cbn [negb].
  unfold setCache, Date_now, cache_upsert, default_ttlMinutes, bind, ret. fold row.
  change (as_stored row) with row.
  now destruct (pg_fault E w2 (UpsertCache key row)).
Qed.

Lemma extract_hit text w v w1 :
  cannot_convert text = false ->
  getCache E (extract_key E text) w = (Normal v, w1) -> truthy v = true ->
  extractLocationWithGemini E text w = (Normal v, w1).
Proof.
  intros Hc H Ht. unfold extractLocationWithGemini. rewrite (bind_interpolate E _ _ _ Hc).
  rewrite (bind_normal _ _ _ _ _ H). now rewrite Ht.
Qed.

(** X6. On a miss, when the model's answer has a text in the first part of
    its first candidate and the text is not blank, the extractor returns
    that text trimmed, whatever other candidates and parts the answer has;
    once stored, a call for the same text less than an hour later returns
    the same name without a request to the model. *)
Theorem extracted_name_is_found_again
    (text : string) (w w1 : World) (cached : JsVal)
    (dfields cfields ofields pfields : list (string * JsVal)) (others more : list JsVal)
    (t : string) (d : Z) :
  let key := extract_key E (JStr text) in
  let prompt := extract_prompt E (JStr text) in
  let first := extractLocationWithGemini E (JStr text) w in
  let second := extractLocationWithGemini E (JStr text) (advance d (snd first)) in
  getCache E key w = (Normal cached, w1) -> truthy cached = false ->
  axios_post_gemini E w1 prompt = Normal (JObj dfields) ->
  assoc_get dfields "candidates" = JArr (JObj cfields :: others) ->
  assoc_get cfields "content" = JObj ofields ->
  assoc_get ofields "parts" = JArr (JObj pfields :: more) ->
  assoc_get pfields "text" = JStr t ->
  trim t <> "" ->
  pg_fault E (log (GeminiPost prompt) w1)
    (UpsertCache key {| value := JStr (trim t); expires_at := clock w + 60 * 60 * 1000 |})
  = None ->
  0 <= d < 60 * 60 * 1000 ->
  pg_fault E (advance d (snd first)) (SelectCache key) = None ->
  fst first = Normal (JStr (trim t))
  /\ fst second = Normal (JStr (trim t))
  /\ count is_model_call (trace (snd first)) = S (count is_model_call (trace w))
  /\ count is_model_call (trace (snd second)) = count is_model_call (trace (snd first)).
Proof.
  intros key prompt first second Hget Hmiss Hp Hc Ho Hps Ht Hname Hup Hd Hsel.
  destruct (getCache_frame E _ _ _ _ Hget) as (_ & _ & Hclock & failed & Htr).
  pose proof (extract_answer (JStr text) w cached w1 _ _ _ _ _ _ t
                eq_refl Hget Hmiss Hp Hc Ho Hps Ht Hname) as Hfirst.
  cbv zeta in Hfirst. fold key prompt in Hfirst. cbn [clock log] in Hfirst.
  rewrite Hclock in Hfirst. rewrite Hup in Hfirst. fold first in Hfirst.
  set (row := {| value := JStr (trim t); expires_at := clock w + 60 * 60 * 1000 |}) in *.
  assert (Htruthy : truthy (JStr (trim t)) = true).
  { cbn. now destruct (String.eqb_spec (trim t) ""). }
  assert (Hlive : live (advance d (snd first)) key row).
  { rewrite Hfirst. split; [cbn; apply lookup_insert_eq |].
    subst row. cbn. rewrite Hclock. lia. }
  assert (Hsecond : second = (Normal (JStr (trim t)),
                              log (Pg (SelectCache key) false) (advance d (snd first)))).
  { apply extract_hit; [reflexivity | | exact Htruthy].
    exact (getCache_live E key _ row Hlive Hsel). }
  rewrite Hsecond. cbn [fst snd trace log advance].
  rewrite Hfirst. cbn [fst snd trace log with_cache].
  rewrite Htr, !count_app. cbn. repeat split; lia.
Qed.

(** X7. A verification that succeeded and was stored is found again: a call
    for the same URL less than an hour later returns the same result, with
    the score of the first call, and neither asks the provider nor draws a
    new number. *)
Theorem verification_is_found_again
    (url : string) (w w1 : World) (cached : JsVal)
    (result : GenerateContentResult) (text : string) (d : Z) :
  let key := verify_key E (JStr url) in
  let prompt := verify_prompt E (JStr url) in
  let verification :=
    JObj [("score", num (Qfloor (Math_random E (log (GenerateContent prompt) w1) * 3) + 7));
          ("reasoning", JStr (trim text)); ("status", JStr "verified")] in
  let first := verifyImageWithGemini E (JStr url) w in
  let second := verifyImageWithGemini E (JStr url) (advance d (snd first)) in
  getCache E key w = (Normal cached, w1) -> truthy cached = false ->
  genAI_generateContent E w1 prompt = Normal result ->
  response_text result = Normal text ->
  pg_fault E (log RandomDraw (log (GenerateContent prompt) w1))
    (UpsertCache key {| value := verification; expires_at := clock w + 60 * 60 * 1000 |})
  = None ->
  0 <= d < 60 * 60 * 1000 ->
  pg_fault E (advance d (snd first)) (SelectCache key) = None ->
  fst first = Normal verification
  /\ fst second = Normal verification
  /\ count is_vision_call (trace (snd second)) = count is_vision_call (trace (snd first))
  /\ count is_random_draw (trace (snd second)) = count is_random_draw (trace (snd first)).
Proof.
  intros key prompt verification first second Hget Hmiss Hp Htext Hup Hd Hsel.
  destruct (getCache_frame E _ _ _ _ Hget) as (_ & _ & Hclock & failed & Htr).
  pose proof (verify_success E (JStr url) w cached w1 result text eq_refl Hget Hmiss Hp Htext)
    as Hfirst.
  cbv zeta in Hfirst. fold key prompt in Hfirst. fold verification in Hfirst.
  cbn [clock log] in Hfirst. rewrite Hclock in Hfirst. rewrite Hup in Hfirst.
  fold first in Hfirst.
  set (row := {| value := verification; expires_at := clock w + 60 * 60 * 1000 |}) in *.
  assert (Hlive : live (advance d (snd first)) key row).
  { rewrite Hfirst. split; [cbn; apply lookup_insert_eq |].
    subst row. cbn. rewrite Hclock. lia. }
  assert (Hsecond : second = (Normal verification,
                              log (Pg (SelectCache key) false) (advance d (snd first)))).
  { apply verify_hit; [reflexivity | | reflexivity].
    exact (getCache_live E key _ row Hlive Hsel). }
  rewrite Hsecond. cbn [fst snd trace log advance].
  split; [now rewrite Hfirst|]. split; [reflexivity|].
  rewrite !count_app. cbn. split; lia.
Qed.

End RoundTrips.

(** ** The orchestrator, stage by stage *)

Section OrchestratorFacts.
Variable E : Env.

(** X8. For a request whose body is an object, [POST /geocode] answers 500
    in two cases only: a template literal cannot convert the text of the
    request, or it cannot convert the name the extractor returned (a value
    found in the cache).  Otherwise it answers 400 when the extractor
    yields nothing, 400 when the geocoder, run on the extracted name in the
    world the extractor left, yields nothing, and 200 with the name and its
    coordinates when both stages yield. *)
Theorem post_geocode_outcome (fields : list (string * JsVal)) (w : World) :
  let text := assoc_get fields "text" in
  let extraction := extractLocationWithGemini E text w in
  let run := post_geocode E (JObj fields) w in
  let failed (w' : World) :=
    (Normal {| status := 500; body := error_body "Geocoding failed" |},
     log (ConsoleError "Geocoding error:" TypeError_convert) w') in
  if cannot_convert text then run = failed w
  else
    exists name,
      fst extraction = Normal name
      /\ if truthy name then
           if cannot_convert name then run = failed (snd extraction)
           else
             let geocoding := geocodeLocation E name (snd extraction) in
             exists coords,
               fst geocoding = Normal coords
               /\ run
                  = (Normal (if truthy coords then
                               {| status := 200;
                                  body := JObj [("locationName", name);
                                                ("coordinates", coords)] |}
                             else
                               {| status := 400;
                                  body := error_body "Could not geocode location" |}),
                     snd geocoding)
         else
           run = (Normal {| status := 400; body := error_body "Could not extract location" |},
                  snd extraction).
Proof.
  intros text extraction run failed.
  destruct (cannot_convert text) eqn:Htext.
  { subst run. unfold post_geocode, try_catch. cbn [member]. unfold bind at 1. cbn [ret].
    fold text. unfold bind at 1. now rewrite (extract_throws E text w Htext). }
  destruct (extract_normal E text w Htext) as [name Hname].
  fold extraction in Hname. exists name. split; [exact Hname|].
  destruct extraction as [c w1] eqn:Hx. cbn [fst snd] in *. subst c.
  destruct (truthy name) eqn:Hn.
  - destruct (cannot_convert name) eqn:Hconv.
    + subst run. unfold post_geocode, try_catch. cbn [member]. unfold bind at 1. cbn [ret].
      fold text. rewrite (bind_normal _ _ _ _ _ Hx). rewrite Hn. cbn [negb].
      unfold bind at 1. now rewrite (geocodeLocation_throws E name w1 Hconv).
    + pose proof (helper_post_completion _ _ _ _ _ (geocodeLocation_helper E name w1)) as H.
      rewrite Hconv in H. destruct H as [coords Hcoords].
      exists coords. split; [exact Hcoords|].
      destruct (geocodeLocation E name w1) as [c w2] eqn:Hg. cbn [fst snd] in *. subst c.
      subst run. unfold post_geocode. apply try_catch_normal. cbn [member].
      unfold bind at 1. cbn [ret]. fold text.
      rewrite (bind_normal _ _ _ _ _ Hx). rewrite Hn. cbn [negb].
      rewrite (bind_normal _ _ _ _ _ Hg). now destruct (truthy coords).
  - exact (post_geocode_no_location E fields w name w1 Hx Hn).
Qed.

End OrchestratorFacts.

(** ** What an incident is created with *)

Section CreateFacts.
Variable E : Env.

Lemma wp_conj {A} (m : M A) (Q1 Q2 : Completion A -> World -> Prop) w :
  wp m Q1 w -> wp m Q2 w -> wp m (fun c w' => Q1 c w' /\ Q2 c w') w.
Proof. unfold wp. now split. Qed.

Lemma wp_run {A} (m : M A) w : wp m (fun c w' => m w = (c, w')) w.
Proof. unfold wp. now destruct (m w). Qed.

Lemma member_truthy o k w : truthy o = true -> member o k w = (Normal (property o k), w).
Proof. destruct o; cbn; intros H; try discriminate; reflexivity. Qed.

(** The geocoding block shared by [POST /disasters] and [PUT /disasters/:id]:
    what it yields, and when it throws. *)
Lemma location_of_block location_name w :
  wp (location_of E location_name)
     (fun c w' =>
        match c with
        | Normal location =>
            is_location E location
            /\ cannot_convert location_name = false
            /\ (truthy location_name = false -> location = JNull /\ w' = w)
        | Throw e =>
            e = TypeError_convert /\ truthy location_name = true
            /\ (cannot_convert location_name = true
                \/ exists coords,
                     fst (geocodeLocation E location_name w) = Normal coords
                     /\ truthy coords = true /\ point_fails coords = true)
        end
        /\ same_tables w w' /\ grows silent w w') w.
Proof.
  unfold location_of. destruct (truthy location_name) eqn:Hname.
  2:{ apply wp_ret. split; [|split; [now repeat split | apply grows_refl]].
      split; [now left|]. split; [now apply falsy_converts | now intros _]. }
  apply wp_bind.
  eapply wp_mono;
    [| apply (wp_conj _ _ _ _ (wp_run (geocodeLocation E location_name) w)
                (wp_conj _ _ _ _ (geocodeLocation_helper E location_name w)
                   (geocodeLocation_silent E location_name w w (grows_refl silent w))))].
  intros [coords|e] w1 (Hg & Hh & Hs); cbn beta iota.
  - assert (Hconv : cannot_convert location_name = false).
    { apply helper_post_completion in Hh. destruct (cannot_convert location_name); [|reflexivity].
      discriminate Hh. }
    destruct Hh as (_ & Ht & _).
    destruct (truthy coords) eqn:Hcoords.
    2:{ apply wp_ret. split; [|now split]. split; [now left|].
        split; [exact Hconv | discriminate]. }
    unfold wp. rewrite !(bind_normal _ _ _ _ _ (member_truthy coords "lng" w1 Hcoords)).
    destruct (cannot_convert (property coords "lng")) eqn:Hlng.
    { rewrite !(bind_interpolate_throws E _ _ _ Hlng). cbn [fst snd].
      split; [|now split]. split; [reflexivity|]. split; [reflexivity|]. right.
      exists coords. split; [now rewrite Hg|]. split; [exact Hcoords|].
      unfold point_fails. now rewrite Hlng. }
    rewrite !(bind_interpolate E _ _ _ Hlng).
    rewrite !(bind_normal _ _ _ _ _ (member_truthy coords "lat" w1 Hcoords)).
    destruct (cannot_convert (property coords "lat")) eqn:Hlat.
    { rewrite !(bind_interpolate_throws E _ _ _ Hlat). cbn [fst snd].
      split; [|now split]. split; [reflexivity|]. split; [reflexivity|]. right.
      exists coords. split; [now rewrite Hg|]. split; [exact Hcoords|].
      unfold point_fails. now rewrite Hlng, Hlat. }
    rewrite !(bind_interpolate E _ _ _ Hlat). cbn [ret fst snd].
    split; [|now split]. split; [right; eauto|]. split; [exact Hconv | discriminate].
  - apply helper_post_completion in Hh.
    destruct (cannot_convert location_name) eqn:Hc; [|destruct Hh as [v Hv]; discriminate Hv].
    injection Hh as -> ->.
    split; [|split; [now repeat split | apply grows_refl]].
    split; [reflexivity|]. split; [reflexivity | now left].
Qed.

Lemma post_disasters_insert (fields : list (string * JsVal)) (w : World) :
  let run := post_disasters E (JObj fields) w in
  creation E fields w (fst run) (snd run).
Proof.
  intros run. subst run. unfold post_disasters.
  apply (wp_try_catch _ _ (creation E fields w)).
  cbn [member].
  do 5 apply wp_bind, wp_ret.
  apply wp_bind.
  eapply wp_mono; [| apply location_of_block].
  intros [location | e] w1 (Hblock & (Hclock & Hrows & _) & (pre & Ht & Hpre)); cbn beta iota.
  2:{ (* the geocoding block threw *)
      destruct Hblock as (-> & Hname & Hwhy).
      apply wp_bind, wp_effect, wp_ret. exists pre. split; [exact Hpre|]. left.
      exists TypeError_convert. cbn [trace disasters log].
      split; [now rewrite Ht, <- app_assoc|]. now repeat split. }
  destruct Hblock as (Hloc & Hconv & Hnone).
  assert (Hpre0 : truthy (assoc_get fields "location_name") = false ->
                  pre = [] /\ location = JNull).
  { intros Hn. destruct (Hnone Hn) as [-> ->]. split; [|reflexivity].
    rewrite <- (app_nil_r (trace w)) in Ht at 1. now apply app_inv_head in Ht. }
  apply wp_bind, wp_Date_now. rewrite Hclock.
  apply wp_bind, wp_disasters_insert.
  - intros e. apply wp_throw, wp_bind, wp_effect, wp_ret.
    exists pre. split; [exact Hpre|]. right.
    exists location, true, [ConsoleError "Error creating disaster:" e].
    cbn [trace disasters log].
    split; [rewrite Ht, <- !app_assoc; reflexivity|].
    split; [exact Hloc|]. split; [exact Hpre0|]. exists e. now repeat split.
  - intros row. apply wp_bind, wp_interpolate; intros Htitle.
    + apply wp_bind, wp_interpolate; [intros _ | congruence].
      apply wp_bind, wp_effect, wp_bind, wp_effect, wp_ret.
      exists pre. split; [exact Hpre|]. right.
      exists location, false. eexists.
      cbn [trace disasters log with_disasters].
      split; [rewrite Ht, <- !app_assoc; reflexivity|].
      split; [exact Hloc|]. split; [exact Hpre0|].
      unfold creation. rewrite Htitle. do 2 eexists. split; [reflexivity|].
      split; [reflexivity|]. now rewrite Hrows.
    + apply wp_bind, wp_effect, wp_ret.
      exists pre. split; [exact Hpre|]. right.
      exists location, false, [ConsoleError "Error creating disaster:" TypeError_convert].
      cbn [trace disasters log with_disasters].
      split; [rewrite Ht, <- !app_assoc; reflexivity|].
      split; [exact Hloc|]. split; [exact Hpre0|].
      rewrite Htitle. split; [reflexivity|]. split; [reflexivity|].
      exists row. now rewrite Hrows.
Qed.

(** X9. For a request whose body is an object, [POST /disasters] reaches
    the insert, exactly once, unless the geocoding block throws, which
    takes a location name that a template literal cannot convert or cached
    coordinates that it cannot; then nothing is inserted and the answer is
    500.  A name that cannot be geocoded does not stop the creation, it
    only leaves [location] null.  The object inserted has the body's title,
    name, description and tags, the owner (netrunnerX when the body has
    none) and an audit trail of one create entry by that owner; with no
    location name the geocoder is not consulted.  When the insert fails,
    the answer is 500 and nothing is broadcast.  When it is confirmed and
    the title can be converted, the answer is 200 with one broadcast; when
    the title cannot be converted, the row is stored, the log line throws,
    nothing is broadcast and the answer is 500. *)
Theorem create_reaches_the_insert (fields : list (string * JsVal)) (w : World) :
  let title := assoc_get fields "title" in
  let location_name := assoc_get fields "location_name" in
  let run := post_disasters E (JObj fields) w in
  let failure := Normal {| status := 500; body := error_body "Failed to create disaster" |} in
  exists pre,
    Forall silent pre
    /\ ((exists e,
           trace (snd run) = trace w ++ pre ++ [ConsoleError "Error creating disaster:" e]
           /\ fst run = failure /\ disasters (snd run) = disasters w
           /\ truthy location_name = true
           /\ (cannot_convert location_name = true
               \/ exists coords,
                    fst (geocodeLocation E location_name w) = Normal coords
                    /\ truthy coords = true /\ point_fails coords = true))
        \/ (exists location failed post,
              trace (snd run)
              = trace w ++ pre
                  ++ [Pg (InsertDisaster (create_payload E fields location (clock w))) failed]
                  ++ post
              /\ is_location E location
              /\ (truthy location_name = false -> pre = [] /\ location = JNull)
              /\ if failed then
                   exists e, post = [ConsoleError "Error creating disaster:" e]
                             /\ fst run = failure /\ disasters (snd run) = disasters w
                 else if cannot_convert title then
                   post = [ConsoleError "Error creating disaster:" TypeError_convert]
                   /\ fst run = failure
                   /\ exists row, disasters (snd run) = disasters w ++ [row]
                 else
                   exists line data,
                     post = [ConsoleLog line; created_event data]
                     /\ fst run = Normal {| status := 200; body := data |}
                     /\ disasters (snd run) = disasters w ++ [data])).
Proof. exact (post_disasters_insert fields w). Qed.

End CreateFacts.

(** ** Updating and deleting an incident *)

Section IncidentFacts.
Variable E : Env.
Variable B : Backend.

Lemma assoc_get_set_field k v fields k' :
  assoc_get (set_field k v fields) k' = if String.eqb k k' then v else assoc_get fields k'.
Proof.
  induction fields as [|[k0 v0] rest IH]; cbn.
  - now destruct (String.eqb k k').
  - destruct (String.eqb_spec k0 k) as [->|Hne]; cbn.
    + now destruct (String.eqb k k').
    + destruct (String.eqb_spec k0 k') as [->|Hne'].
      * destruct (String.eqb_spec k k') as [->|_]; [congruence | reflexivity].
      * exact IH.
Qed.

Lemma assoc_get_patch changes fields k :
  assoc_get (patch changes fields) k
  = match changed changes k with
    | Some v => v
    | None => assoc_get fields k
    end.
Proof.
  revert fields. induction changes as [|[k0 v0] rest IH]; intros fields; [reflexivity|].
  cbn [changed].
  assert (Hstep : forall fs, assoc_get (patch rest fs) k
                             = match changed rest k with
                               | Some v => v
                               | None => assoc_get fs k
                               end) by (intros; apply IH).
  destruct v0; cbn [patch]; rewrite Hstep; destruct (changed rest k); try reflexivity;
    rewrite ?assoc_get_set_field; now destruct (String.eqb k0 k).
Qed.

Lemma filter_none_identity (f : JsVal -> bool) (l : list JsVal) :
  List.filter f l = [] -> List.filter (fun x => negb (f x)) l = l.
Proof.
  induction l as [|x l IH]; cbn; [reflexivity|].
  destruct (f x); cbn; [discriminate|]. intros H. now rewrite IH.
Qed.

(** X10. [DELETE /disasters/:id] does not look at what the delete removed.
    When the request is answered without error, every row with the id is
    gone and the others stay; the answer is 200 and one delete broadcast
    with the id is emitted, also when no incident has the id and the table
    is unchanged.  When the request fails, the table is unchanged, the
    answer is 500 and nothing is broadcast. *)
Theorem delete_outcome (id : string) (w : World) :
  let run := delete_disaster E B id w in
  (pg_delete_fault B w id = None ->
     fst run = Normal {| status := 200;
                         body := JObj [("message", JStr "Disaster deleted successfully")] |}
     /\ disasters (snd run) = List.filter (fun row => negb (has_id E id row)) (disasters w)
     /\ (List.filter (has_id E id) (disasters w) = [] -> disasters (snd run) = disasters w)
     /\ trace (snd run)
        = trace w ++ [ConsoleLog ("Disaster deleted: " +:+ id);
                      Emit "disaster_updated" (JObj [("action", JStr "delete");
                                                     ("id", JStr id)])])
  /\ (forall e, pg_delete_fault B w id = Some e ->
        fst run = Normal {| status := 500; body := error_body "Failed to delete disaster" |}
        /\ disasters (snd run) = disasters w
        /\ trace (snd run) = trace w ++ [ConsoleError "Error deleting disaster:" e]).
Proof.
  intros run. subst run.
  cbv [delete_disaster try_catch bind disasters_delete effect io_emit json
         status_json throw ret].
  split.
  - intros ->. cbv [fst snd disasters with_disasters log trace].
    split; [reflexivity|]. split; [reflexivity|]. split.
    + intros Hnone. now apply filter_none_identity.
    + now rewrite <- app_assoc.
  - intros e ->. cbv [fst snd disasters log trace]. now repeat split.
Qed.

Lemma wp_select_audit_trail id Q w :
  (forall current, Q (Normal current) w) -> wp (disasters_select_audit_trail E B id) Q w.
Proof.
  intros H. unfold wp, disasters_select_audit_trail.
  destruct (pg_select_fault B w id); [apply H|].
  destruct (List.filter (has_id E id) (disasters w)) as [|[] [|]]; apply H.
Qed.

Lemma spread_stateless v : stateless (spread v).
Proof. intros w. now destruct v. Qed.

(** X11. [PUT /disasters/:id] on an id no incident has answers 500, leaves
    the incidents table as it is and broadcasts nothing, whatever the
    body. *)
Theorem put_unknown_id (id : string) (req_body : JsVal) (w : World) :
  let run := put_disaster E B id req_body w in
  List.filter (has_id E id) (disasters w) = [] ->
  fst run = Normal {| status := 500; body := error_body "Failed to update disaster" |}
  /\ disasters (snd run) = disasters w
  /\ emitted (trace (snd run)) = emitted (trace w).
Proof.
  intros run Hnone. subst run. unfold put_disaster.
  pose (failed := fun (c : Completion Response) (w' : World) =>
          c = Normal {| status := 500; body := error_body "Failed to update disaster" |}
          /\ disasters w' = disasters w
          /\ emitted (trace w') = emitted (trace w)).
  assert (Hcatch : forall e w', disasters w' = disasters w -> grows silent w w' ->
             wp (bind (effect (ConsoleError "Error updating disaster:" e))
                   (fun _ => status_json 500 (error_body "Failed to update disaster")))
               failed w').
  { intros e w' Hd (evs & Ht & Hall). apply wp_bind, wp_effect, wp_ret.
    split; [reflexivity|]. split; [exact Hd|].
    cbn [trace log]. unfold emitted. rewrite Ht, !List.filter_app. cbn.
    rewrite app_nil_r.
    assert (Hnil : List.filter is_emit evs = []).
    { clear Ht. induction Hall as [|x l [Hx _] _ IH]; [reflexivity|]. cbn. now rewrite Hx. }
    now rewrite Hnil, app_nil_r. }
  pose proof (grows_refl silent w) as G0.
  apply (wp_try_catch _ _ failed).
  apply wp_bind, wp_stateless; [apply member_stateless|].
  intros [title | e]; [| now apply Hcatch].
  apply wp_bind, wp_stateless; [apply member_stateless|].
  intros [location_name | e]; [| now apply Hcatch].
  apply wp_bind, wp_stateless; [apply member_stateless|].
  intros [description | e]; [| now apply Hcatch].
  apply wp_bind, wp_stateless; [apply member_stateless|].
  intros [tags | e]; [| now apply Hcatch].
  apply wp_bind, wp_stateless; [apply member_stateless|].
  intros [owner_id0 | e]; [| now apply Hcatch].
  apply wp_bind. eapply wp_mono; [| apply (location_of_block E location_name w)].
  intros [location | e] w1 (_ & (_ & Hd & _) & G1); cbn beta iota; [| now apply Hcatch].
  apply wp_bind, wp_select_audit_trail. intros current.
  apply wp_bind, wp_stateless; [apply opt_member_stateless|].
  intros [stored_trail | e]; [| now apply Hcatch].
  apply wp_bind, wp_stateless; [apply spread_stateless|].
  intros [earlier | e]; [| now apply Hcatch].
  apply wp_bind, wp_Date_now, wp_bind.
  unfold wp at 1, disasters_update. rewrite Hd, Hnone.
  destruct (pg_update_fault B w1 id _); cbn [fst snd]; apply wp_throw; now apply Hcatch.
Qed.

Lemma silent_emitted w w' : grows silent w w' -> emitted (trace w') = emitted (trace w).
Proof.
  intros (evs & Ht & Hall). unfold emitted. rewrite Ht, List.filter_app.
  assert (Hnil : List.filter is_emit evs = []).
  { clear Ht. induction Hall as [|x l [Hx _] _ IH]; [reflexivity|]. cbn. now rewrite Hx. }
  now rewrite Hnil, app_nil_r.
Qed.

(** X12. [PUT /disasters/:id] on the one incident with the id, with a title
    and a location name that a template literal can convert (every string
    is one, and so is a missing one), coordinates in the cache, if any,
    that it can convert, and the update itself answered: the stored row
    gets the body's title, name,
    description and tags where the body has them, its [location] is set to
    what the geocoding block yields (null when the body has no location
    name, whatever was stored), every other column ([id], [owner_id], ...)
    keeps its value, and one update broadcast carries the new row.  The new
    audit trail is the trail the route read followed by one update entry:
    the stored trail when the read is answered, the empty trail when the
    read fails, in which case the stored history is overwritten. *)
Theorem put_rewrites_the_row
    (id : string) (fields row : list (string * JsVal)) (earlier : list JsVal) (w : World) :
  let run := put_disaster E B id (JObj fields) w in
  let stored := assoc_get row "audit_trail" in
  cannot_convert (assoc_get fields "title") = false ->
  cannot_convert (assoc_get fields "location_name") = false ->
  point_converts E (assoc_get fields "location_name") w ->
  List.filter (has_id E id) (disasters w) = [JObj row] ->
  (forall w' changes, pg_update_fault B w' id changes = None) ->
  ((forall w', pg_select_fault B w' id = None)
   /\ (stored = JArr earlier \/ (truthy stored = false /\ earlier = [])))
  \/ ((forall w', exists e, pg_select_fault B w' id = Some e) /\ earlier = []) ->
  exists location,
    let changes := update_changes E fields location earlier (clock w) in
    let updated := JObj (patch changes row) in
    is_location E location
    /\ (truthy (assoc_get fields "location_name") = false -> location = JNull)
    /\ fst run = Normal {| status := 200; body := updated |}
    /\ disasters (snd run)
       = map (fun r => if has_id E id r then updated else r) (disasters w)
    /\ assoc_get (patch changes row) "audit_trail"
       = JArr (earlier ++ [JObj [("action", JStr "update");
                                 ("user_id", or_default (assoc_get fields "owner_id")
                                               (JStr "netrunnerX"));
                                 ("timestamp", JStr (Date_toJSON E (clock w)))]])
    /\ assoc_get (patch changes row) "location" = location
    /\ (forall k, ~ In k ["title"; "location_name"; "location"; "description"; "tags";
                          "audit_trail"] ->
          assoc_get (patch changes row) k = assoc_get row k)
    /\ emitted (trace (snd run))
       = emitted (trace w)
           ++ [Emit "disaster_updated" (JObj [("action", JStr "update");
                                              ("disaster", updated)])].
Proof.
  intros run stored Htitle Hname Hpoint Hrow Hupdate Hread. subst run. unfold put_disaster.
  apply (wp_try_catch _ _ (fun c w' => exists location,
            let changes := update_changes E fields location earlier (clock w) in
            let updated := JObj (patch changes row) in
            is_location E location
            /\ (truthy (assoc_get fields "location_name") = false -> location = JNull)
            /\ c = Normal {| status := 200; body := updated |}
            /\ disasters w' = map (fun r => if has_id E id r then updated else r) (disasters w)
            /\ assoc_get (patch changes row) "audit_trail"
               = JArr (earlier ++ [JObj [("action", JStr "update");
                                         ("user_id", or_default (assoc_get fields "owner_id")
                                                       (JStr "netrunnerX"));
                                         ("timestamp", JStr (Date_toJSON E (clock w)))]])
            /\ assoc_get (patch changes row) "location" = location
            /\ (forall k, ~ In k ["title"; "location_name"; "location"; "description";
                                  "tags"; "audit_trail"] ->
                  assoc_get (patch changes row) k = assoc_get row k)
            /\ emitted (trace w')
               = emitted (trace w)
                   ++ [Emit "disaster_updated" (JObj [("action", JStr "update");
                                                      ("disaster", updated)])])).
  cbn [member]. do 5 apply wp_bind, wp_ret.
  apply wp_bind. eapply wp_mono; [| apply (location_of_block E _ w)].
  intros [location | e] w1 (Hblock & (Hclock & Hd & _) & G1); cbn beta iota.
  2:{ exfalso. destruct Hblock as (_ & Htruthy & [Hno | (coords & Hg & Hc & Hfails)]).
      - congruence.
      - rewrite (Hpoint coords Hg Hc) in Hfails. discriminate Hfails. }
  destruct Hblock as (Hloc & _ & Hnone).
  (* what the route reads of the stored trail *)
  assert (Hspread : exists current stored_trail,
             disasters_select_audit_trail E B id w1 = (Normal current, w1)
             /\ opt_member current "audit_trail" w1 = (Normal stored_trail, w1)
             /\ spread (if truthy stored_trail then stored_trail else JArr []) w1
                = (Normal earlier, w1)).
  { unfold disasters_select_audit_trail. rewrite Hd, Hrow.
    destruct Hread as [(Hsel & Hstored) | (Hsel & ->)].
    - rewrite Hsel. exists (JObj [("audit_trail", stored)]), stored.
      split; [reflexivity|]. split; [reflexivity|].
      destruct Hstored as [-> | (Hfalse & ->)]; [reflexivity|].
      rewrite Hfalse. reflexivity.
    - destruct (Hsel w1) as [e ->]. exists JNull, JUndefined.
      split; [reflexivity|]. split; reflexivity. }
  destruct Hspread as (current & stored_trail & Hcur & Hmem & Hsp).
  apply wp_bind. unfold wp at 1. rewrite Hcur. cbn [fst snd].
  apply wp_bind. unfold wp at 1. rewrite Hmem. cbn [fst snd].
  apply wp_bind. unfold wp at 1. rewrite Hsp. cbn [fst snd].
  apply wp_bind, wp_Date_now. rewrite Hclock.
  fold (update_changes E fields location earlier (clock w)).
  set (changes := update_changes E fields location earlier (clock w)).
  apply wp_bind. unfold wp at 1, disasters_update. rewrite Hupdate, Hd, Hrow.
  cbn [fst snd].
  apply wp_bind, wp_interpolate; [intros _ | congruence].
  apply wp_bind, wp_effect, wp_bind, wp_effect, wp_ret.
  cbn [log trace disasters with_disasters].
  exists location. cbv zeta. fold changes.
  split; [exact Hloc|]. split; [intros Hn; now destruct (Hnone Hn)|].
  split; [reflexivity|]. split; [reflexivity|].
  split; [rewrite assoc_get_patch; reflexivity|].
  split.
  { rewrite assoc_get_patch. destruct Hloc as [-> | (lng & lat & ->)]; reflexivity. }
  split.
  { intros k Hk. rewrite assoc_get_patch.
    assert (Hc : changed changes k = None).
    { cbn [changes update_changes changed].
      repeat match goal with
             | |- context [String.eqb ?a k] =>
                 destruct (String.eqb_spec a k) as [<- | _];
                   [exfalso; apply Hk; cbn; tauto |]
             end.
      reflexivity. }
    rewrite Hc. reflexivity. }
  unfold emitted. rewrite !List.filter_app. cbn [List.filter is_emit app].
  rewrite app_nil_r. fold (emitted (trace w1)). rewrite (silent_emitted _ _ G1).
  reflexivity.
Qed.

End IncidentFacts.

(** ** The tags of the incident form *)

Section DropSpaces.
Variable two : ascii -> ascii -> bool.
Variable three : ascii -> ascii -> ascii -> bool.

Lemma drop_spaces_cons a rest :
  drop_spaces two three (a :: rest)
  = if is_space a then drop_spaces two three rest
    else
      match rest with
      | [] => a :: rest
      | b :: rest2 =>
          if two a b then drop_spaces two three rest2
          else
            match rest2 with
            | [] => a :: rest
            | c :: rest3 =>
                if three a b c then drop_spaces two three rest3 else a :: rest
            end
      end.
Proof. reflexivity. Qed.

(** Dropping the white space at the head, one white space at a time. *)
Lemma drop_spaces_step l :
  drop_spaces two three l
  = match head_space two three l with
    | Some rest => drop_spaces two three rest
    | None => l
    end.
Proof.
  destruct l as [|a rest]; [reflexivity|].
  rewrite drop_spaces_cons. unfold head_space.
  destruct (is_space a); [reflexivity|].
  destruct rest as [|b rest2]; [reflexivity|].
  destruct (two a b); [reflexivity|].
  destruct rest2 as [|c rest3]; [reflexivity|].
  now destruct (three a b c).
Qed.

Lemma head_space_rest l rest :
  head_space two three l = Some rest -> exists p, l = p ++ rest /\ (length rest < length l)%nat.
Proof.
  unfold head_space. destruct l as [|a l1]; [discriminate|].
  destruct (is_space a).
  { intros [= <-]. exists [a]. split; [reflexivity | cbn; lia]. }
  destruct l1 as [|b l2]; [discriminate|].
  destruct (two a b).
  { intros [= <-]. exists [a; b]. split; [reflexivity | cbn; lia]. }
  destruct l2 as [|c l3]; [discriminate|].
  destruct (three a b c); [|discriminate].
  intros [= <-]. exists [a; b; c]. split; [reflexivity | cbn; lia].
Qed.

Lemma drop_spaces_spec l :
  (exists p, l = p ++ drop_spaces two three l)
  /\ head_space two three (drop_spaces two three l) = None.
Proof.
  remember (length l) as n eqn:Hn. revert l Hn.
  induction n as [n IH] using lt_wf_ind. intros l ->.
  rewrite drop_spaces_step.
  destruct (head_space two three l) as [rest|] eqn:Hhead.
  - destruct (head_space_rest l rest Hhead) as (p & -> & Hlen).
    destruct (IH (length rest) Hlen rest eq_refl) as ((q & Hq) & Hnone).
    split; [|exact Hnone]. exists (p ++ q). now rewrite <- app_assoc, <- Hq.
  - split; [now exists [] | exact Hhead].
Qed.

Lemma drop_spaces_fixed l : head_space two three l = None -> drop_spaces two three l = l.
Proof. intros H. rewrite drop_spaces_step. now rewrite H. Qed.

Lemma drop_spaces_idempotent l :
  drop_spaces two three (drop_spaces two three l) = drop_spaces two three l.
Proof. apply drop_spaces_fixed, drop_spaces_spec. Qed.

(** A list with no white space at its head has none at the head of the
    lists it begins with. *)
Lemma head_space_prefix v x :
  head_space two three (v ++ x) = None -> head_space two three v = None.
Proof.
  unfold head_space. destruct v as [|a v1]; [reflexivity|]. cbn [app].
  destruct (is_space a); [discriminate|].
  destruct v1 as [|b v2]; [reflexivity|]. cbn [app].
  destruct (two a b); [discriminate|].
  destruct v2 as [|c v3]; [reflexivity|]. cbn [app].
  now destruct (three a b c).
Qed.

End DropSpaces.

Lemma trim_bytes s : list_ascii_of_string (trim s) = bytes_trimmed (list_ascii_of_string s).
Proof.
  unfold trim, trim_end, trim_start, bytes_trimmed.
  now rewrite !list_ascii_of_string_of_list_ascii.
Qed.

(** What is trimmed is a part of the string, with no white space at
    either end. *)
Lemma bytes_trimmed_spec l :
  (exists p q, l = p ++ bytes_trimmed l ++ q)
  /\ head_space is_space2 is_space3 (bytes_trimmed l) = None
  /\ head_space (fun a b => is_space2 b a) (fun a b c => is_space3 c b a)
       (rev (bytes_trimmed l)) = None.
Proof.
  unfold bytes_trimmed.
  set (back2 := fun a b => is_space2 b a). set (back3 := fun a b c => is_space3 c b a).
  destruct (drop_spaces_spec is_space2 is_space3 l) as ((p & Hp) & Hfront).
  set (u := drop_spaces is_space2 is_space3 l) in *.
  destruct (drop_spaces_spec back2 back3 (rev u)) as ((q & Hq) & Hback).
  set (t := drop_spaces back2 back3 (rev u)) in *.
  assert (Hu : u = rev t ++ rev q).
  { rewrite <- rev_app_distr, <- Hq. now rewrite rev_involutive. }
  split; [|split].
  - exists p, (rev q). now rewrite <- Hu.
  - apply (head_space_prefix _ _ (rev t) (rev q)). now rewrite <- Hu.
  - now rewrite rev_involutive.
Qed.

Lemma bytes_trimmed_idempotent l : bytes_trimmed (bytes_trimmed l) = bytes_trimmed l.
Proof.
  destruct (bytes_trimmed_spec l) as (_ & Hfront & Hback).
  unfold bytes_trimmed at 1.
  rewrite (drop_spaces_fixed _ _ _ Hfront), (drop_spaces_fixed _ _ _ Hback).
  apply rev_involutive.
Qed.

Lemma trim_idempotent s : trim (trim s) = trim s.
Proof.
  rewrite <- (string_of_list_ascii_of_string (trim (trim s))).
  rewrite <- (string_of_list_ascii_of_string (trim s)) at 2.
  now rewrite !trim_bytes, bytes_trimmed_idempotent.
Qed.

Lemma trim_keeps c s :
  In c (list_ascii_of_string (trim s)) -> In c (list_ascii_of_string s).
Proof.
  rewrite trim_bytes. intros Hin.
  destruct (bytes_trimmed_spec (list_ascii_of_string s)) as ((p & q & Hs) & _).
  rewrite Hs. apply in_or_app. right. apply in_or_app. now left.
Qed.

Lemma split_comma_pieces s piece :
  In piece (split_comma s) -> ~ In ","%char (list_ascii_of_string piece).
Proof.
  revert piece. induction s as [|a rest IH]; intros piece.
  - intros [<-|[]]. exact id.
  - cbn [split_comma]. destruct (Ascii.eqb_spec a ",") as [->|Hne].
    + intros [<-|H]; [exact id | now apply IH].
    + destruct (split_comma rest) as [|first pieces].
      * intros [<-|[]]. intros [H|[]]. now apply Hne.
      * intros [<-|H].
        -- intros [Ha|Hin]; [now apply Hne | apply (IH first); [now left | exact Hin]].
        -- apply IH. now right.
Qed.

Lemma concat_two sep (x y : string) (l : list string) :
  String.concat sep (x :: y :: l) = x +:+ sep +:+ String.concat sep (y :: l).
Proof. reflexivity. Qed.

(** Joining the pieces with commas gives the string back. *)
Lemma split_comma_join s : String.concat "," (split_comma s) = s.
Proof.
  induction s as [|a rest IH]; [reflexivity|]. cbn [split_comma].
  destruct (split_comma rest) as [|first pieces] eqn:Hs.
  - cbn in IH. subst rest. now destruct (Ascii.eqb_spec a ",") as [->|Hne].
  - destruct (Ascii.eqb_spec a ",") as [->|Hne].
    + rewrite concat_two, IH. reflexivity.
    + destruct pieces as [|second pieces].
      * cbn [String.concat] in IH |- *. now rewrite IH.
      * rewrite concat_two in IH |- *. rewrite <- IH. reflexivity.
Qed.

(** X13. The tags the page sends for an incident: no tag is empty, none
    begins or ends with white space (trimming it again changes nothing),
    none contains a comma; and every piece between two commas that is not
    blank is sent, trimmed. *)
Theorem tags_are_clean (tags : string) :
  (forall tag, In tag (parse_tags tags) ->
     tag <> "" /\ trim tag = tag /\ ~ In ","%char (list_ascii_of_string tag)
     /\ head_space is_space2 is_space3 (list_ascii_of_string tag) = None
     /\ head_space (fun a b => is_space2 b a) (fun a b c => is_space3 c b a)
          (rev (list_ascii_of_string tag)) = None)
  /\ (forall piece, In piece (split_comma tags) -> trim piece <> "" ->
        In (trim piece) (parse_tags tags)).
Proof.
  unfold parse_tags. split.
  - intros tag Hin. apply List.filter_In in Hin as [Hin Hne].
    apply List.in_map_iff in Hin as (piece & <- & Hpiece).
    split; [|split; [|split]].
    + intros Heq. rewrite Heq in Hne. discriminate.
    + apply trim_idempotent.
    + intros Hc. apply (split_comma_pieces tags piece Hpiece). now apply trim_keeps.
    + rewrite trim_bytes. apply bytes_trimmed_spec.
  - intros piece Hpiece Hne. apply List.filter_In. split.
    + apply List.in_map_iff. now exists piece.
    + now destruct (String.eqb_spec (trim piece) "").
Qed.

(** ** Reports, bulletins, social media, resources *)

Section MoreRouteFacts.
Variable E : Env.
Variable B : Backend.

Lemma post_reports_run fields w :
  let content := assoc_get fields "content" in
  let payload := report_payload (assoc_get fields "disaster_id")
                   (or_default (assoc_get fields "user_id") (JStr "citizen1"))
                   content (assoc_get fields "image_url") in
  post_reports B (JObj fields) w
  = match pg_report_fault B w payload with
    | Some e =>
        (Normal {| status := 500; body := error_body "Failed to create report" |},
         log (ConsoleError "Error creating report:" e) w)
    | None =>
        let w1 := with_reports (reports w ++ [pg_stored_report B w payload]) w in
        match substring_0_50 content w1 with
        | (Normal excerpt, _) =>
            (Normal {| status := 200; body := pg_report_row B w payload |},
             log (ConsoleLog ("Report processed: " +:+ excerpt +:+ "...")) w1)
        | (Throw e, _) =>
            (Normal {| status := 500; body := error_body "Failed to create report" |},
             log (ConsoleError "Error creating report:" e) w1)
        end
    end.
Proof.
  intros content payload.
  cbv [post_reports try_catch bind member ret reports_insert throw effect json status_json].
  fold content. fold payload.
  destruct (pg_report_fault B w payload); [reflexivity|].
  destruct content; reflexivity.
Qed.

(** X14. [POST /reports] hands the table the body's incident, user
    (citizen1 when the body has none), content and image URL with the
    status pending, whatever else the body holds, and never broadcasts.
    Once the insert is answered the row is in the table; the answer is 200
    only if the content is a string: for any other content, or none, the
    route fails while writing its log line and answers 500 although the
    report is stored. *)
Theorem post_reports_outcome (fields : list (string * JsVal)) (w : World) :
  let content := assoc_get fields "content" in
  let payload := report_payload (assoc_get fields "disaster_id")
                   (or_default (assoc_get fields "user_id") (JStr "citizen1"))
                   content (assoc_get fields "image_url") in
  let run := post_reports B (JObj fields) w in
  let failure := Normal {| status := 500; body := error_body "Failed to create report" |} in
  emitted (trace (snd run)) = emitted (trace w)
  /\ (pg_report_fault B w payload = None ->
      reports (snd run) = reports w ++ [pg_stored_report B w payload]
      /\ ((exists s, content = JStr s)
          -> fst run = Normal {| status := 200; body := pg_report_row B w payload |})
      /\ ((forall s, content <> JStr s) -> fst run = failure))
  /\ (forall e, pg_report_fault B w payload = Some e ->
        reports (snd run) = reports w /\ fst run = failure).
Proof.
  intros content payload run failure. subst run.
  rewrite post_reports_run. fold content. fold payload. cbv zeta.
  unfold emitted. split; [|split].
  - destruct (pg_report_fault B w payload).
    + cbn [snd trace log]. rewrite List.filter_app. apply app_nil_r.
    + destruct content; cbn [substring_0_50 ret throw snd trace log with_reports];
        rewrite List.filter_app; apply app_nil_r.
  - intros ->. split; [now destruct content|]. split.
    + now intros [s ->].
    + intros Hnot. destruct content; try reflexivity. now destruct (Hnot s).
  - intros e ->. now split.
Qed.

Lemma fetchOfficialUpdates_miss w cached w1 :
  let key := official_updates_key in
  let row := {| value := bulletins E (clock w1); expires_at := clock w1 + 60 * 60 * 1000 |} in
  getCache E key w = (Normal cached, w1) -> truthy cached = false ->
  fetchOfficialUpdates E w
  = (Normal (bulletins E (clock w1)),
     match pg_fault E w1 (UpsertCache key row) with
     | Some _ => log (Pg (UpsertCache key row) true) w1
     | None => log (Pg (UpsertCache key row) false) (with_cache (<[key := row]> (cache w1)) w1)
     end).
Proof.
  intros key row Hget Hmiss. unfold fetchOfficialUpdates.
  rewrite (bind_normal _ _ _ _ _ Hget). rewrite Hmiss.
  cbv [try_catch bind Date_now setCache cache_upsert default_ttlMinutes ret].
  fold (bulletins_at E (clock w1) (clock w1)). fold (bulletins E (clock w1)).
  fold key. fold row. change (as_stored row) with row.
  now destruct (pg_fault E w1 (UpsertCache key row)).
Qed.

Lemma fetchOfficialUpdates_hit w v w1 :
  getCache E official_updates_key w = (Normal v, w1) -> truthy v = true ->
  fetchOfficialUpdates E w = (Normal v, w1).
Proof.
  intros H Ht. unfold fetchOfficialUpdates.
  rewrite (bind_normal _ _ _ _ _ H). now rewrite Ht.
Qed.

Lemma get_official_updates_run id w updates w' :
  fetchOfficialUpdates E w = (Normal updates, w') ->
  get_official_updates E id w = (Normal {| status := 200; body := updates |}, w').
Proof.
  intros H. unfold get_official_updates. apply try_catch_normal.
  now rewrite (bind_normal _ _ _ _ _ H).
Qed.

(** X15. The bulletins are one snapshot for all incidents: when a request
    finds no live entry it answers with the two bulletins stamped with the
    time of the request and stores them; a request for any incident less
    than an hour later gets the same two bulletins with the same time
    stamps, and stores nothing. *)
Theorem bulletins_are_one_shared_snapshot
    (id1 id2 : string) (w w1 : World) (cached : JsVal) (d : Z) :
  let key := official_updates_key in
  let first := get_official_updates E id1 w in
  let second := get_official_updates E id2 (advance d (snd first)) in
  getCache E key w = (Normal cached, w1) -> truthy cached = false ->
  pg_fault E w1 (UpsertCache key {| value := bulletins E (clock w);
                                    expires_at := clock w + 60 * 60 * 1000 |}) = None ->
  0 <= d < 60 * 60 * 1000 ->
  pg_fault E (advance d (snd first)) (SelectCache key) = None ->
  fst first = Normal {| status := 200; body := bulletins E (clock w) |}
  /\ fst second = Normal {| status := 200; body := bulletins E (clock w) |}
  /\ count is_cache_write (trace (snd second)) = count is_cache_write (trace (snd first)).
Proof.
  intros key first second Hget Hmiss Hup Hd Hsel.
  destruct (getCache_frame E _ _ _ _ Hget) as (_ & _ & Hclock & failed & Htr).
  pose proof (fetchOfficialUpdates_miss w cached w1 Hget Hmiss) as Hfetch.
  cbv zeta in Hfetch. rewrite Hclock in Hfetch. fold key in Hfetch. rewrite Hup in Hfetch.
  set (row := {| value := bulletins E (clock w); expires_at := clock w + 60 * 60 * 1000 |})
    in *.
  assert (Hfirst : first = (Normal {| status := 200; body := bulletins E (clock w) |},
                            log (Pg (UpsertCache key row) false)
                              (with_cache (<[key := row]> (cache w1)) w1)))
    by exact (get_official_updates_run id1 w _ _ Hfetch).
  assert (Hlive : live (advance d (snd first)) key row).
  { rewrite Hfirst. split; [apply lookup_insert_eq |].
    subst row. cbn [snd clock advance log with_cache expires_at]. rewrite Hclock. lia. }
  assert (Hsecond : second = (Normal {| status := 200; body := bulletins E (clock w) |},
                              log (Pg (SelectCache key) false) (advance d (snd first)))).
  { apply get_official_updates_run. apply fetchOfficialUpdates_hit; [|reflexivity].
    exact (getCache_live E key _ row Hlive Hsel). }
  rewrite Hsecond. cbn [fst snd]. split; [now rewrite Hfirst|]. split; [reflexivity|].
  cbn [trace log advance]. rewrite count_app.
  change (count is_cache_write [Pg (SelectCache key) false]) with 0%nat. lia.
Qed.

(** X16. With both coordinates in the query and the proximity request
    answered, [GET /disasters/:id/resources] passes that answer on and does
    not run the plain filter; the radius it asks for is the query's, or
    10000 when the query has none.  With a coordinate missing or empty the
    proximity request is not sent. *)
Theorem proximity_answer_is_passed_on (id : string) (fields : list (string * JsVal)) (w : World) :
  let lat := assoc_get fields "lat" in
  let lng := assoc_get fields "lng" in
  let radius := or_default (assoc_get fields "radius") (num 10000) in
  let op := RpcNearbyResources id (parseFloat E lat) (parseFloat E lng) (parseInt E radius) in
  let run := get_resources E id (JObj fields) w in
  (truthy lat = true -> truthy lng = true -> pg_fault E w op = None ->
     run = (Normal {| status := 200;
                      body := pg_nearby_resources E w id (parseFloat E lat) (parseFloat E lng)
                                (parseInt E radius) |},
            log (Pg op false) w))
  /\ (truthy lat && truthy lng = false ->
      exists failed rest, trace (snd run) = trace w ++ Pg (SelectResources id) failed :: rest
                          /\ count is_resource_request (trace (snd run))
                             = S (count is_resource_request (trace w))).
Proof.
  intros lat lng radius op run. split.
  - intros Hlat Hlng Hok. subst run.
    cbv [get_resources try_catch bind member ret json rpc_get_nearby_resources].
    fold lat lng. rewrite Hlat, Hlng. cbv [andb]. fold radius. fold op. now rewrite Hok.
  - intros Hno. subst run. rewrite (get_resources_plain E id fields w Hno).
    destruct (pg_fault E w (SelectResources id)).
    + exists true. eexists. cbn [snd trace log]. rewrite <- app_assoc. split; [reflexivity|].
      rewrite count_app. cbv [count]. cbn [List.filter is_resource_request length app]. lia.
    + exists false. exists []. cbn [snd trace log]. split; [reflexivity|].
      rewrite count_app. cbv [count]. cbn [List.filter is_resource_request length app]. lia.
Qed.

(** X17. An incident created from the page, when the coordinates the
    cache may hold for the name can be written in a point: the insert is
    reached, and the object inserted carries the form's title, name and
    description as typed, the tags split at commas, trimmed and without the
    empty ones, and always the owner netrunnerX, also in its audit trail,
    since the form has no owner.  A form with an empty location name is
    stored with a null location and without a request to the geocoder or
    its cache.  The title of the form is a string, so a confirmed insert is
    always followed by the broadcast and the answer 200. *)
Theorem page_incident_is_owned_by_netrunnerX (disasterForm : DisasterForm) (w : World) :
  let run := post_disasters E (createDisaster_body disasterForm) w in
  point_converts E (JStr (form_location_name disasterForm)) w ->
  exists pre location failed post,
    trace (snd run)
    = trace w ++ pre
        ++ [Pg (InsertDisaster
                  (JObj [("title", JStr (form_title disasterForm));
                         ("location_name", JStr (form_location_name disasterForm));
                         ("location", location);
                         ("description", JStr (form_description disasterForm));
                         ("tags", JArr (map JStr (parse_tags (form_tags disasterForm))));
                         ("owner_id", JStr "netrunnerX");
                         ("audit_trail",
                          JArr [JObj [("action", JStr "create");
                                      ("user_id", JStr "netrunnerX");
                                      ("timestamp", JStr (Date_toJSON E (clock w)))]])]))
              failed]
        ++ post
    /\ is_location E location
    /\ (form_location_name disasterForm = "" -> pre = [] /\ location = JNull)
    /\ (failed = false ->
        exists line data, post = [ConsoleLog line; created_event data]
                          /\ fst run = Normal {| status := 200; body := data |}).
Proof.
  intros run Hpoint.
  destruct (post_disasters_insert E
              [("title", JStr (form_title disasterForm));
               ("location_name", JStr (form_location_name disasterForm));
               ("description", JStr (form_description disasterForm));
               ("tags", JArr (map JStr (parse_tags (form_tags disasterForm))))] w)
    as (pre & _ & [(e & _ & _ & _ & _ & [Hno | (coords & Hg & Hc & Hfails)])
                  | (location & failed & post & Ht & Hloc & Hnone & Hpost)]).
  - discriminate Hno.
  - cbn [assoc_get String.eqb Ascii.eqb Bool.eqb] in Hg.
    rewrite (Hpoint coords Hg Hc) in Hfails. discriminate Hfails.
  - exists pre, location, failed, post. split; [exact Ht|]. split; [exact Hloc|]. split.
    + intros Hname. apply Hnone. cbn [assoc_get String.eqb Ascii.eqb Bool.eqb].
      now rewrite Hname.
    + intros ->. cbn [assoc_get String.eqb Ascii.eqb Bool.eqb cannot_convert] in Hpost.
      destruct Hpost as (line & data & Hp & Hrun & _). now exists line, data.
Qed.

(** X18. A report sent from the page always has a string as content, so
    once the insert is answered the route answers 200; what is handed to
    the table is the selected incident, the user citizen1 (the form has no
    user), the content and the image URL as typed (the empty string when
    the field is left empty, not null) and the status pending. *)
Theorem page_report_is_stored_as_pending (selected_id : JsVal) (reportForm : ReportForm)
    (w : World) :
  let payload := report_payload selected_id (JStr "citizen1")
                   (JStr (form_content reportForm)) (JStr (form_image_url reportForm)) in
  let run := post_reports B (createReport_body selected_id reportForm) w in
  pg_report_fault B w payload = None ->
  fst run = Normal {| status := 200; body := pg_report_row B w payload |}
  /\ reports (snd run) = reports w ++ [pg_stored_report B w payload].
Proof.
  intros payload run Hok. subst run. unfold createReport_body.
  rewrite post_reports_run. cbv zeta.
  change (report_payload _ _ _ _) with payload. now rewrite Hok.
Qed.

End MoreRouteFacts.

(** ** Invariants of the server *)

Lemma preserves_ret I {A} (a : A) : preserves I (ret a).
Proof. now intros w. Qed.

Lemma preserves_throw I {A} (e : Error) : preserves I (throw (A := A) e).
Proof. now intros w. Qed.

Lemma preserves_bind I {A B} (m : M A) (k : A -> M B) :
  preserves I m -> (forall a, preserves I (k a)) -> preserves I (bind m k).
Proof.
  intros Hm Hk w Hw. unfold bind. specialize (Hm w Hw).
  destruct (m w) as [[a|e] w']; [now apply Hk | exact Hm].
Qed.

Lemma preserves_try_catch I {A} (m : M A) (h : Error -> M A) :
  preserves I m -> (forall e, preserves I (h e)) -> preserves I (try_catch m h).
Proof.
  intros Hm Hh w Hw. unfold try_catch. specialize (Hm w Hw).
  destruct (m w) as [[a|e] w']; [exact Hm | now apply Hh].
Qed.

Lemma preserves_stateless I {A} (m : M A) : stateless m -> preserves I m.
Proof. intros Hm w Hw. now rewrite Hm. Qed.

Lemma substring_stateless content : stateless (substring_0_50 content).
Proof. intros w. now destruct content. Qed.

Lemma getCache_value E key w :
  fst (getCache E key w) = Normal JNull
  \/ exists row, cache w !! key = Some row /\ fst (getCache E key w) = Normal (value row).
Proof.
  destruct (pg_fault E w (SelectCache key)) as [e|] eqn:Hfault.
  { left. now rewrite (getCache_fault E key w e Hfault). }
  destruct (cache w !! key) as [row|] eqn:Hrow.
  2:{ left. now apply getCache_absent. }
  destruct (Z_lt_le_dec (clock w) (expires_at row)) as [Hlive | Hdead].
  - right. exists row. split; [reflexivity|].
    now rewrite (getCache_live E key w row (conj Hrow Hlive) Hfault).
  - left. now apply (getCache_expired E key w row).
Qed.

Section Preservation.
Variable E : Env.
Variable B : Backend.
Variable I : World -> Prop.
Variable writable : string -> JsVal -> Prop.
Variable ok_status : JsVal -> Prop.

Hypothesis I_log : forall e w, is_emit e = false -> I w -> I (log e w).
Hypothesis I_emit : forall event payload w, I w -> I (log (Emit event payload) w).
Hypothesis I_cache :
  forall k v expires w,
    writable k v -> I w ->
    I (with_cache (<[k := {| value := v; expires_at := expires |}]> (cache w)) w).
Hypothesis I_disasters : forall d w, I w -> I (with_disasters d w).
Hypothesis I_status :
  forall url st w, ok_status st -> I w ->
                   I (with_reports (map (set_status url st) (reports w)) w).
Hypothesis I_report :
  forall a b c d w,
    I w -> I (with_reports (reports w ++ [pg_stored_report B w (report_payload a b c d)]) w).
Hypothesis I_cached :
  forall w url row, I w -> cache w !! verify_key E url = Some row ->
                    status_of_object_ok ok_status (value row).
Hypothesis writable_geocode :
  forall p lat lng,
    writable (geocode_key E p) (JObj [("lat", to_json (JNum lat)); ("lng", to_json (JNum lng))]).
Hypothesis writable_extract :
  forall text name, truthy (JStr name) = true -> writable (extract_key E text) (JStr name).
Hypothesis writable_verify :
  forall url score reasoning,
    writable (verify_key E url)
      (JObj [("score", num score); ("reasoning", JStr reasoning); ("status", JStr "verified")]).
Hypothesis writable_bulletins :
  forall t1 t2, writable official_updates_key (bulletins_at E t1 t2).
Hypothesis ok_pending : ok_status (JStr "pending").
Hypothesis ok_verified : ok_status (JStr "verified").

Lemma preserves_effect e : is_emit e = false -> preserves I (effect e).
Proof. intros He w Hw. now apply I_log. Qed.

Lemma preserves_io_emit event payload : preserves I (io_emit event payload).
Proof. intros w Hw. now apply I_emit. Qed.

Lemma preserves_getCache key : preserves I (getCache E key).
Proof.
  intros w Hw. destruct (getCache_world E key w) as [failed ->]. now apply I_log.
Qed.

Lemma preserves_setCache key v ttl :
  writable key (to_json v) -> preserves I (setCache E key v ttl).
Proof.
  intros Hv w Hw. unfold setCache, bind, Date_now, cache_upsert.
  destruct (pg_fault E w _); cbn [snd]; apply I_log; try reflexivity; [exact Hw|].
  now apply I_cache.
Qed.

Lemma preserves_interpolate {A} v (k : string -> M A) :
  preserves I (k (ToString E v)) -> preserves I (bind (interpolate E v) k).
Proof.
  intros Hk w Hw. unfold bind, interpolate.
  destruct (cannot_convert v); [exact Hw | now apply Hk].
Qed.

Lemma preserves_opt_trim {A} o (k : JsVal -> M A) :
  (forall s, preserves I (k (JStr s))) -> preserves I (k JUndefined) ->
  preserves I (bind (opt_trim o) k).
Proof.
  intros Hs Hu w Hw. unfold bind. destruct o; cbn; try exact Hw; try now apply Hu.
  now apply Hs.
Qed.

Lemma preserves_nominatim_search q : preserves I (nominatim_search E q).
Proof. intros w Hw. now apply I_log. Qed.

Lemma preserves_gemini_generate prompt : preserves I (gemini_generate E prompt).
Proof. intros w Hw. now apply I_log. Qed.

Lemma preserves_generateContent prompt : preserves I (generateContent E prompt).
Proof. intros w Hw. now apply I_log. Qed.

Lemma preserves_random : preserves I (random E).
Proof. intros w Hw. now apply I_log. Qed.

Lemma preserves_disasters_insert payload : preserves I (disasters_insert E payload).
Proof.
  intros w Hw. unfold disasters_insert.
  destruct (pg_fault E w _); cbn [snd]; apply I_log; try reflexivity; [exact Hw|].
  now apply I_disasters.
Qed.

Lemma preserves_resources_select id : preserves I (resources_select E id).
Proof.
  intros w Hw. unfold resources_select.
  destruct (pg_fault E w _); cbn [snd]; now apply I_log.
Qed.

Lemma preserves_rpc id lat lng radius : preserves I (rpc_get_nearby_resources E id lat lng radius).
Proof.
  intros w Hw. unfold rpc_get_nearby_resources.
  destruct (pg_fault E w _); cbn [snd]; now apply I_log.
Qed.

Lemma preserves_disasters_delete id : preserves I (disasters_delete E B id).
Proof.
  intros w Hw. unfold disasters_delete.
  destruct (pg_delete_fault B w id); cbn [snd]; [exact Hw | now apply I_disasters].
Qed.

Lemma preserves_disasters_update id changes : preserves I (disasters_update E B id changes).
Proof.
  intros w Hw. unfold disasters_update.
  destruct (pg_update_fault B w id _); [exact Hw|].
  destruct (List.filter (has_id E id) (disasters w)) as [|[] [|]]; cbn [snd];
    try exact Hw. now apply I_disasters.
Qed.

Lemma preserves_reports_insert a b c d : preserves I (reports_insert B (report_payload a b c d)).
Proof.
  intros w Hw. unfold reports_insert.
  destruct (pg_report_fault B w _); cbn [snd]; [exact Hw | now apply I_report].
Qed.

Lemma select_audit_trail_stateless id : stateless (disasters_select_audit_trail E B id).
Proof.
  intros w. unfold disasters_select_audit_trail.
  destruct (pg_select_fault B w id); [reflexivity|].
  now destruct (List.filter (has_id E id) (disasters w)) as [|[] [|]].
Qed.

Lemma preserves_reports_update image_url st :
  st = JUndefined \/ ok_status st -> preserves I (reports_update E image_url st).
Proof.
  intros Hst w Hw. unfold reports_update.
  destruct (pg_fault E w _); cbn [snd]; apply I_log; try reflexivity; [exact Hw|].
  destruct Hst as [-> | Hok]; [exact Hw|].
  destruct st; try exact Hw; now apply I_status.
Qed.

Ltac preserve :=
  repeat first
    [ match goal with
      | |- forall _, _ => intro
      end
    | apply preserves_getCache
    | apply preserves_nominatim_search
    | apply preserves_gemini_generate
    | apply preserves_generateContent
    | apply preserves_random
    | apply preserves_disasters_insert
    | apply preserves_resources_select
    | apply preserves_rpc
    | apply preserves_disasters_delete
    | apply preserves_disasters_update
    | apply preserves_reports_insert
    | apply preserves_io_emit
    | apply preserves_effect; reflexivity
    | match goal with
      | |- preserves _ (member _ _) => apply preserves_stateless, member_stateless
      | |- preserves _ (index0 _) => apply preserves_stateless, index0_stateless
      | |- preserves _ (parse_float _ _) => apply preserves_stateless, parse_float_stateless
      | |- preserves _ (opt_member _ _) => apply preserves_stateless, opt_member_stateless
      | |- preserves _ (opt_index0 _) => apply preserves_stateless, opt_index0_stateless
      | |- preserves _ (opt_trim _) => apply preserves_stateless, opt_trim_stateless
      | |- preserves _ (spread _) => apply preserves_stateless, spread_stateless
      | |- preserves _ (substring_0_50 _) => apply preserves_stateless, substring_stateless
      | |- preserves _ (disasters_select_audit_trail _ _ _) =>
          apply preserves_stateless, select_audit_trail_stateless
      | |- preserves _ Date_now => apply preserves_stateless; now intros ?
      | |- preserves _ (await _) => apply preserves_stateless; now intros ?
      | |- preserves _ (ret _) => apply preserves_ret
      | |- preserves _ (json _) => apply preserves_ret
      | |- preserves _ (status_json _ _) => apply preserves_ret
      | |- preserves _ (throw _) => apply preserves_throw
      | |- preserves _ (bind (interpolate _ _) _) => apply preserves_interpolate; cbv beta
      | |- preserves _ (bind (opt_trim _) _) =>
          apply preserves_opt_trim; [intro | cbn [truthy]]
      | |- preserves _ (bind _ _) => apply preserves_bind
      | |- preserves _ (try_catch _ _) => apply preserves_try_catch
      | |- preserves _ (if ?c then _ else _) => destruct c eqn:?
      | |- preserves _ (match ?x with _ => _ end) => destruct x eqn:?
      end ].

Lemma preserves_geocodeLocation p : preserves I (geocodeLocation E p).
Proof.
  unfold geocodeLocation. preserve.
  apply preserves_setCache, writable_geocode.
Qed.

Lemma preserves_extract text : preserves I (extractLocationWithGemini E text).
Proof.
  unfold extractLocationWithGemini. preserve.
  now apply preserves_setCache, writable_extract.
Qed.

Lemma preserves_fetchOfficialUpdates : preserves I (fetchOfficialUpdates E).
Proof.
  unfold fetchOfficialUpdates. preserve.
  apply preserves_setCache, writable_bulletins.
Qed.

Lemma preserves_verify url : preserves I (verifyImageWithGemini E url).
Proof.
  unfold verifyImageWithGemini. preserve.
  apply preserves_setCache, writable_verify.
Qed.

(** The status of what the verifier returns, when it is an object. *)
Lemma verify_status url w :
  I w -> forall fields, fst (verifyImageWithGemini E url w) = Normal (JObj fields) ->
                        assoc_get fields "status" = JUndefined
                        \/ ok_status (assoc_get fields "status").
Proof.
  intros Hw fields.
  destruct (cannot_convert url) eqn:Hc; [now rewrite (verify_throws _ _ _ Hc)|].
  destruct (getCache E (verify_key E url) w) as [c w1] eqn:Hget.
  destruct (getCache_normal E (verify_key E url) w) as [v Hv].
  rewrite Hget in Hv. cbn [fst] in Hv. subst c.
  destruct (truthy v) eqn:Hmiss.
  - rewrite (verify_hit _ _ _ _ _ Hc Hget Hmiss). cbn [fst]. intros [= ->].
    destruct (getCache_value E (verify_key E url) w) as [Hnull | (row & Hrow & Hval)];
      rewrite Hget in *; cbn [fst] in *; [discriminate|].
    injection Hval as Hval. apply (I_cached w url row Hw Hrow). now rewrite <- Hval.
  - destruct (genAI_generateContent E w1 (verify_prompt E url)) as [result|e] eqn:Hp.
    + destruct (response_text result) as [text|e] eqn:Htext.
      * rewrite (verify_success _ _ _ _ _ _ _ Hc Hget Hmiss Hp Htext). cbn [fst].
        intros [= <-]. right. exact ok_verified.
      * rewrite (verify_text_throws _ _ _ _ _ _ _ Hc Hget Hmiss Hp Htext). cbn [fst].
        intros [= <-]. right. exact ok_pending.
    + rewrite (verify_rejected _ _ _ _ _ _ Hc Hget Hmiss Hp). cbn [fst].
      intros [= <-]. right. exact ok_pending.
Qed.

Lemma preserves_post_geocode req_body : preserves I (post_geocode E req_body).
Proof.
  unfold post_geocode. preserve.
  - apply preserves_extract.
  - apply preserves_geocodeLocation.
Qed.

Lemma preserves_get_resources id req_query : preserves I (get_resources E id req_query).
Proof. unfold get_resources. preserve. Qed.

Lemma preserves_get_official_updates id : preserves I (get_official_updates E id).
Proof. unfold get_official_updates. preserve. apply preserves_fetchOfficialUpdates. Qed.

Lemma preserves_post_reports req_body : preserves I (post_reports B req_body).
Proof. unfold post_reports. preserve. Qed.

Lemma preserves_post_verify_image id req_body : preserves I (post_verify_image E id req_body).
Proof.
  unfold post_verify_image.
  apply preserves_try_catch; [|preserve].
  apply preserves_bind; [preserve|]. intros image_url.
  intros w Hw. unfold bind at 1.
  pose proof (preserves_verify image_url w Hw) as Hw1.
  pose proof (verify_status image_url w Hw) as Hst.
  destruct (verifyImageWithGemini E image_url w) as [[verification|e] w1];
    cbn [fst snd] in *; [|exact Hw1].
  pose proof (member_stateless verification "status" w1) as Hsame.
  unfold bind at 1.
  destruct (member verification "status" w1) as [[st|e] w2] eqn:Hm;
    cbn [snd] in Hsame; subst w2; [|exact Hw1].
  assert (Hok : st = JUndefined \/ ok_status st).
  { destruct verification; cbn [member ret throw] in Hm; try discriminate;
      injection Hm as <-; try (now left). now apply Hst. }
  apply (preserves_bind I (reports_update E image_url st)); [| preserve | exact Hw1].
  now apply preserves_reports_update.
Qed.

Lemma preserves_location_of location_name : preserves I (location_of E location_name).
Proof.
  unfold location_of. destruct (truthy location_name); [|apply preserves_ret].
  apply preserves_bind; [apply preserves_geocodeLocation|]. preserve.
Qed.

Lemma preserves_post_disasters req_body : preserves I (post_disasters E req_body).
Proof.
  unfold post_disasters.
  apply preserves_try_catch; [|preserve].
  do 5 (apply preserves_bind; [preserve|]; intros ?).
  apply preserves_bind; [apply preserves_location_of|]. preserve.
Qed.

Lemma preserves_put_disaster id req_body : preserves I (put_disaster E B id req_body).
Proof.
  unfold put_disaster.
  apply preserves_try_catch; [|preserve].
  do 5 (apply preserves_bind; [preserve|]; intros ?).
  apply preserves_bind; [apply preserves_location_of|]. preserve.
Qed.

Lemma preserves_delete_disaster id : preserves I (delete_disaster E B id).
Proof. unfold delete_disaster. preserve. Qed.

Lemma preserves_get_social_media id : preserves I (get_social_media E id).
Proof. unfold get_social_media, getMockSocialMediaData. preserve. Qed.

Lemma preserves_handle r : preserves I (handle E B r).
Proof.
  destruct r; cbn [handle].
  - apply preserves_post_geocode.
  - apply preserves_post_disasters.
  - apply preserves_put_disaster.
  - apply preserves_delete_disaster.
  - apply preserves_get_social_media.
  - apply preserves_get_resources.
  - apply preserves_get_official_updates.
  - apply preserves_post_verify_image.
  - apply preserves_post_reports.
Qed.

End Preservation.

(** ** What no sequence of requests changes *)

Section ServerInvariants.
Variable E : Env.
Variable B : Backend.

Lemma serve_preserves (I : World -> Prop) :
  (forall d w, I w -> I (advance d w)) ->
  (forall r, preserves I (handle E B r)) ->
  forall requests w, I w -> I (serve E B requests w).
Proof.
  intros Hadvance Hhandle requests.
  induction requests as [|[d r] rest IH]; intros w Hw; [exact Hw|].
  cbn [serve]. apply IH, Hhandle, Hadvance, Hw.
Qed.

Lemma cache_truthy_insert k v expires w :
  truthy v = true -> cache_truthy w ->
  cache_truthy (with_cache (<[k := {| value := v; expires_at := expires |}]> (cache w)) w).
Proof.
  intros Hv Hw k' row Hrow. cbn [cache with_cache] in Hrow.
  destruct (decide (k = k')) as [<- | Hne].
  - rewrite lookup_insert_eq in Hrow. now injection Hrow as <-.
  - rewrite lookup_insert_ne in Hrow by exact Hne. now apply (Hw k').
Qed.

(** X19. Whatever requests are served, in whatever order and at whatever
    times, a cache that holds only truthy values holds only truthy values
    afterwards: the test [if (cached)] of the helpers never takes an entry
    the server wrote for a miss. *)
Theorem requests_keep_the_cache_truthy (requests : list (Z * Request)) (w : World) :
  cache_truthy w -> cache_truthy (serve E B requests w).
Proof.
  apply serve_preserves; [now intros d w' Hw'|].
  intros r.
  apply (preserves_handle E B cache_truthy (fun _ v => truthy v = true) (fun _ => True));
    try (now intros); try reflexivity.
  - intros k v expires w' Hv Hw'. now apply cache_truthy_insert.
  - intros w' url row _ _ fields _. now right.
Qed.

Lemma prefix_append (p s : string) : String.prefix p (p +:+ s) = true.
Proof.
  induction p as [|a p IH]; [now destruct s|].
  change (String a p +:+ s) with (String a (p +:+ s)).
  change (String.prefix (String a p) (String a (p +:+ s)))
    with (if ascii_dec a a then String.prefix p (p +:+ s) else false).
  now destruct (ascii_dec a a).
Qed.

Lemma verified_object_status v :
  verified_object v -> status_of_object_ok status_ok v.
Proof.
  intros (score & reasoning & ->) fields [= <-]. right. now right.
Qed.

Lemma statuses_ok_set_status url st w :
  status_ok st -> statuses_ok w ->
  statuses_ok (with_reports (map (set_status url st) (reports w)) w).
Proof.
  intros Hst Hw r Hr. cbn [reports with_reports] in Hr.
  apply list_elem_of_fmap in Hr as (r0 & -> & Hr0).
  unfold set_status. destruct (decide _); [exact Hst | now apply Hw].
Qed.

(** X20. If the reports table stores the status it is given, no sequence
    of requests leaves a report with a status other than pending or
    verified, nor a cached verification that is not a verified one: a
    report is created pending, and a verification writes verified, or
    pending when the provider fails; the value unverified is never
    written. *)
Theorem statuses_stay_pending_or_verified (requests : list (Z * Request)) (w : World) :
  stores_status B ->
  verifications_ok w -> statuses_ok w ->
  verifications_ok (serve E B requests w) /\ statuses_ok (serve E B requests w).
Proof.
  intros HB Hv Hs.
  apply (serve_preserves (fun w => verifications_ok w /\ statuses_ok w));
    [now intros d w' Hw' | | now split].
  intros r.
  apply (preserves_handle E B (fun w => verifications_ok w /\ statuses_ok w)
           (fun k v => String.prefix "verify_image_" k = true -> verified_object v)
           status_ok); try (now intros); try (intros; discriminate).
  - intros k v expires w' Hk [Hv' Hs']. split; [|exact Hs'].
    intros k' row Hrow Hprefix. cbn [cache with_cache] in Hrow.
    destruct (decide (k = k')) as [<- | Hne].
    + rewrite lookup_insert_eq in Hrow. injection Hrow as <-. now apply Hk.
    + rewrite lookup_insert_ne in Hrow by exact Hne. now apply (Hv' k').
  - intros url st w' Hst [Hv' Hs']. split; [exact Hv' | now apply statuses_ok_set_status].
  - intros a b c d w' [Hv' Hs']. split; [exact Hv'|].
    intros r' Hr'. cbn [reports with_reports] in Hr'.
    apply elem_of_app in Hr' as [Hold | Hnew]; [now apply Hs'|].
    apply list_elem_of_singleton in Hnew as ->. left. apply HB.
  - intros w' url row [Hv' _] Hrow. apply verified_object_status.
    apply (Hv' _ row Hrow). apply prefix_append.
  - intros url score reasoning _. now exists score, reasoning.
  - now left.
  - now right.
Qed.

End ServerInvariants.

(** ** What is broadcast *)

Section BroadcastRules.
Variable E : Env.
Variable B : Backend.

Lemma emitted_log_other e w : is_emit e = false -> emitted (trace (log e w)) = emitted (trace w).
Proof.
  intros He. unfold emitted. cbn [trace log]. rewrite List.filter_app.
  cbn [List.filter]. rewrite He. apply app_nil_r.
Qed.

Lemma emitted_log_emit event payload w :
  emitted (trace (log (Emit event payload) w)) = emitted (trace w) ++ [Emit event payload].
Proof. unfold emitted. cbn [trace log]. now rewrite List.filter_app. Qed.

Lemma silent_list_emitted evs : Forall silent evs -> List.filter is_emit evs = [].
Proof. induction 1 as [|x l [Hx _] _ IH]; [reflexivity|]. cbn. now rewrite Hx. Qed.

(** The routes that never broadcast. *)
Lemma quiet_routes (t : list Effect) :
  (forall req_body, preserves (fun w => emitted (trace w) = t) (post_geocode E req_body))
  /\ (forall id req_query, preserves (fun w => emitted (trace w) = t)
                             (get_resources E id req_query))
  /\ (forall id, preserves (fun w => emitted (trace w) = t) (get_official_updates E id))
  /\ (forall id req_body, preserves (fun w => emitted (trace w) = t)
                            (post_verify_image E id req_body))
  /\ (forall req_body, preserves (fun w => emitted (trace w) = t) (post_reports B req_body)).
Proof.
  assert (Hlog : forall e w, is_emit e = false -> emitted (trace w) = t ->
                             emitted (trace (log e w)) = t).
  { intros e w He <-. now apply emitted_log_other. }
  split; [|split; [|split; [|split]]].
  - intros req_body.
    apply (preserves_post_geocode E (fun w => emitted (trace w) = t) (fun _ _ => True));
      first [exact Hlog | now intros].
  - intros id req_query.
    apply (preserves_get_resources E (fun w => emitted (trace w) = t));
      first [exact Hlog | now intros].
  - intros id.
    apply (preserves_get_official_updates E (fun w => emitted (trace w) = t)
             (fun _ _ => True)); first [exact Hlog | now intros].
  - intros id req_body.
    apply (preserves_post_verify_image E (fun w => emitted (trace w) = t) (fun _ _ => True)
             (fun _ => True)); try first [exact Hlog | now intros].
    intros w url row _ _ fields _. now right.
  - intros req_body.
    apply (preserves_post_reports B (fun w => emitted (trace w) = t));
      first [exact Hlog | now intros].
Qed.

Lemma put_disaster_broadcast id req_body w :
  wp (put_disaster E B id req_body)
     (fun c w' => exists news, emitted (trace w') = emitted (trace w) ++ news
                               /\ broadcast_rule (PutDisaster id req_body) c news) w.
Proof.
  unfold put_disaster.
  pose (post := fun (c : Completion Response) (w' : World) =>
          exists news, emitted (trace w') = emitted (trace w) ++ news
                       /\ broadcast_rule (PutDisaster id req_body) c news).
  assert (Hcatch : forall e w', grows silent w w' ->
             wp (bind (effect (ConsoleError "Error updating disaster:" e))
                   (fun _ => status_json 500 (error_body "Failed to update disaster")))
               post w').
  { intros e w' G. apply wp_bind, wp_effect, wp_ret.
    exists []. split.
    - rewrite emitted_log_other by reflexivity. rewrite app_nil_r.
      now apply silent_emitted.
    - left. split; [reflexivity | eauto]. }
  pose proof (grows_refl silent w) as G0.
  apply (wp_try_catch _ _ post).
  apply wp_bind, wp_stateless; [apply member_stateless|].
  intros [title | e]; [| now apply Hcatch].
  apply wp_bind, wp_stateless; [apply member_stateless|].
  intros [location_name | e]; [| now apply Hcatch].
  apply wp_bind, wp_stateless; [apply member_stateless|].
  intros [description | e]; [| now apply Hcatch].
  apply wp_bind, wp_stateless; [apply member_stateless|].
  intros [tags | e]; [| now apply Hcatch].
  apply wp_bind, wp_stateless; [apply member_stateless|].
  intros [owner_id0 | e]; [| now apply Hcatch].
  apply wp_bind. eapply wp_mono; [| apply (location_of_block E location_name w)].
  intros [location | e] w1 (_ & _ & G1); cbn beta iota; [| now apply Hcatch].
  apply wp_bind, wp_select_audit_trail. intros current.
  apply wp_bind, wp_stateless; [apply opt_member_stateless|].
  intros [stored_trail | e]; [| now apply Hcatch].
  apply wp_bind, wp_stateless; [apply spread_stateless|].
  intros [earlier | e]; [| now apply Hcatch].
  apply wp_bind, wp_Date_now, wp_bind.
  unfold wp at 1, disasters_update.
  destruct (pg_update_fault B w1 id _); cbn [fst snd]; [apply wp_throw; now apply Hcatch|].
  destruct (List.filter (has_id E id) (disasters w1)) as [|[| | | | | |fields] [|]];
    cbn [fst snd]; try (apply wp_throw; now apply Hcatch).
  apply wp_bind, wp_interpolate; [intros _ | intros _; apply Hcatch].
  2:{ eapply grows_same_trace; [|exact G1]. reflexivity. }
  apply wp_bind, wp_effect, wp_bind, wp_effect, wp_ret.
  eexists. split.
  - rewrite emitted_log_emit, emitted_log_other by reflexivity.
    cbn [trace with_disasters]. rewrite (silent_emitted w w1 G1). reflexivity.
  - right. eauto.
Qed.

(** X21. What each route broadcasts.  Extracting and geocoding, listing
    resources, reading the bulletins, verifying an image and creating a
    report broadcast nothing, so a new report or a changed verification
    status is never announced.  Reading the social media of an incident
    always emits one event, with the posts of the answer.  Creating,
    updating and deleting an incident emit one event when the answer is 200
    and none when it is 500. *)
Theorem broadcasts_follow_the_answer (r : Request) (w : World) :
  let run := handle E B r w in
  exists news,
    emitted (trace (snd run)) = emitted (trace w) ++ news
    /\ broadcast_rule r (fst run) news.
Proof.
  intros run. subst run.
  destruct (quiet_routes (emitted (trace w))) as (Hgeo & Hres & Hoff & Hver & Hrep).
  destruct r as [req_body | req_body | id req_body | id | id | id req_query | id
                | id req_body | req_body]; cbn [handle broadcast_rule].
  - exists []. rewrite app_nil_r. split; [now apply Hgeo | reflexivity].
  - destruct (post_disasters_outcome E req_body w) as (evs & Ht & Hcase).
    unfold emitted at 1. rewrite Ht, List.filter_app. fold (emitted (trace w)).
    destruct Hcase as [(pre & payload & line & data & -> & Hpre & ->)
                      | [(pre & payload & e & -> & Hpre & ->)
                        | [(pre & payload & e & -> & Hpre & ->) | (Hall & ->)]]].
    + eexists. split; [reflexivity|]. right.
      rewrite List.filter_app, (silent_list_emitted _ Hpre). cbn. eauto.
    + exists []. split.
      * rewrite List.filter_app, (silent_list_emitted _ Hpre). reflexivity.
      * left. eauto.
    + exists []. split.
      * rewrite List.filter_app, (silent_list_emitted _ Hpre). reflexivity.
      * left. eauto.
    + exists []. split; [now rewrite (silent_list_emitted _ Hall)|]. left. eauto.
  - apply put_disaster_broadcast.
  - cbv [delete_disaster try_catch bind disasters_delete effect io_emit json
           status_json throw ret].
    destruct (pg_delete_fault B w id) as [e|]; cbn [fst snd].
    + exists []. rewrite emitted_log_other by reflexivity. split; [now rewrite app_nil_r|].
      left. eauto.
    + eexists. rewrite emitted_log_emit, emitted_log_other by reflexivity.
      split; [reflexivity|]. right. eauto.
  - cbv [get_social_media getMockSocialMediaData try_catch bind Date_now effect io_emit
           json ret]. cbn [fst snd].
    eexists. rewrite emitted_log_emit. split; [reflexivity|]. eauto.
  - exists []. rewrite app_nil_r. split; [now apply Hres | reflexivity].
  - exists []. rewrite app_nil_r. split; [now apply Hoff | reflexivity].
  - exists []. rewrite app_nil_r. split; [now apply Hver | reflexivity].
  - exists []. rewrite app_nil_r. split; [now apply Hrep | reflexivity].
Qed.

End BroadcastRules.

(** ** The further theorems at work on sample runs *)

Lemma cache_keys_witness :
  "NYC" = "NYC"
  /\ geocode_key online (JStr "NYC") <> extract_key online (JStr "NYC").
Proof.
  split.
  - apply (cache_keys_are_separate online "NYC" "NYC" (JStr "NYC") (JStr "NYC") JNull).
    reflexivity.
  - apply (cache_keys_are_separate online "NYC" "NYC" (JStr "NYC") (JStr "NYC") JNull).
Defined.

Lemma expiry_witness : fst (getCache online "k" at_expiry_world) = Normal JNull.
Proof.
  apply (proj1 (entry_is_gone_at_its_expiry online "k" (num 7) 60 sample_world
                  at_expiry_world eq_refl eq_refl)).
  reflexivity.
Defined.

Lemma geocode_found_again_witness :
  fst (geocodeLocation online (JStr "Manhattan, NYC") sample_world) = Normal manhattan_coords
  /\ fst (geocodeLocation online (JStr "Manhattan, NYC")
            (advance 5000 (snd (geocodeLocation online (JStr "Manhattan, NYC") sample_world))))
     = Normal manhattan_coords
  /\ count is_nominatim_call
       (trace (snd (geocodeLocation online (JStr "Manhattan, NYC")
                      (advance 5000
                         (snd (geocodeLocation online (JStr "Manhattan, NYC") sample_world))))))
     = 1%nat.
Proof.
  destruct (geocode_result_is_found_again online "Manhattan, NYC" sample_world _ _
              manhattan_match [] 5000 eq_refl eq_refl eq_refl eq_refl eq_refl eq_refl)
    as (Hfirst & _ & Hfinite & _ & Hone & Hsame); [lia | reflexivity |].
  split; [exact Hfirst|]. split; [exact (Hfinite _ _ eq_refl eq_refl)|].
  rewrite Hsame, Hone. reflexivity.
Defined.

(** Coordinates that did not parse come back from the cache as nulls. *)
Example unparsed_coordinates_come_back_null :
  fst (geocodeLocation online (JStr "Atlantis")
         (advance 5000 (snd (geocodeLocation blurred (JStr "Atlantis") sample_world))))
  = Normal (JObj [("lat", JNull); ("lng", JNull)]).
Proof. reflexivity. Qed.

Lemma extracted_found_again_witness :
  fst (extractLocationWithGemini online (JStr "Flooding near Manhattan, NYC") sample_world)
  = Normal (JStr "Manhattan, NYC")
  /\ fst (extractLocationWithGemini online (JStr "Flooding near Manhattan, NYC")
            (advance 5000
               (snd (extractLocationWithGemini online (JStr "Flooding near Manhattan, NYC")
                       sample_world))))
     = Normal (JStr "Manhattan, NYC").
Proof.
  pose proof (extracted_name_is_found_again online "Flooding near Manhattan, NYC"
                sample_world _ _ _ _ _ _ [] [] " Manhattan, NYC " 5000
                eq_refl eq_refl eq_refl eq_refl eq_refl eq_refl eq_refl) as H.
  cbv zeta in H. destruct H as (H1 & H2 & _); [discriminate | reflexivity | lia | reflexivity |].
  split; [exact H1 | exact H2].
Defined.

Lemma verification_found_again_witness :
  fst (verifyImageWithGemini online (JStr flood_jpg)
         (advance 5000 (snd (verifyImageWithGemini online (JStr flood_jpg) sample_world))))
  = fst (verifyImageWithGemini online (JStr flood_jpg) sample_world).
Proof.
  pose proof (verification_is_found_again online flood_jpg sample_world _ _ authentic _ 5000
                eq_refl eq_refl eq_refl eq_refl eq_refl) as H.
  cbv zeta in H. destruct H as (H1 & H2 & _); [lia | reflexivity |].
  now rewrite H1, H2.
Defined.

Lemma create_witness :
  exists failed post,
    trace (snd (post_disasters online (JObj [("title", JStr "Drill")]) sample_world))
    = trace sample_world
        ++ [Pg (InsertDisaster (create_payload online [("title", JStr "Drill")] JNull 1000))
              failed] ++ post.
Proof.
  destruct (create_reaches_the_insert online [("title", JStr "Drill")] sample_world)
    as (pre & _ & [(e & _ & _ & _ & Hname & _)
                  | (location & failed & post & Ht & _ & Hnone & _)]).
  - discriminate Hname.
  - destruct (Hnone eq_refl) as [-> ->]. exists failed, post. exact Ht.
Defined.

Lemma delete_witness :
  fst (delete_disaster online reliable "d1" incident_world)
  = Normal {| status := 200;
              body := JObj [("message", JStr "Disaster deleted successfully")] |}
  /\ disasters (snd (delete_disaster online reliable "d1" incident_world)) = [incident_d2]
  /\ disasters (snd (delete_disaster online reliable "zz" incident_world))
     = disasters incident_world.
Proof.
  destruct (proj1 (delete_outcome online reliable "d1" incident_world) eq_refl)
    as (H1 & H2 & _).
  destruct (proj1 (delete_outcome online reliable "zz" incident_world) eq_refl)
    as (_ & _ & H3 & _).
  split; [exact H1|]. split; [exact H2 | exact (H3 eq_refl)].
Defined.

Lemma put_unknown_id_witness :
  fst (put_disaster online reliable "zz" (JObj retitle) incident_world)
  = Normal {| status := 500; body := error_body "Failed to update disaster" |}
  /\ disasters (snd (put_disaster online reliable "zz" (JObj retitle) incident_world))
     = disasters incident_world
  /\ emitted (trace (snd (put_disaster online reliable "zz" (JObj retitle) incident_world)))
     = emitted (trace incident_world).
Proof.
  apply (put_unknown_id online reliable "zz" (JObj retitle) incident_world). reflexivity.
Defined.

Lemma put_witness :
  fst (put_disaster online reliable "d1" (JObj retitle) incident_world)
  = Normal {| status := 200;
              body := JObj (patch (update_changes online retitle JNull
                                     [created_by_reliefAdmin] 1000) incident_d1) |}.
Proof.
  assert (Hpoint : point_converts online (assoc_get retitle "location_name") incident_world).
  { intros coords Hcoords _. vm_compute in Hcoords. injection Hcoords as <-. reflexivity. }
  destruct (put_rewrites_the_row online reliable "d1" retitle incident_d1
              [created_by_reliefAdmin] incident_world eq_refl eq_refl Hpoint eq_refl
              (fun _ _ => eq_refl)
              (or_introl (conj (fun _ => eq_refl) (or_introl eq_refl))))
    as (location & _ & Hnull & Hfst & _).
  rewrite (Hnull eq_refl) in Hfst. exact Hfst.
Defined.

Lemma tags_witness :
  "test" <> "" /\ trim "test" = "test" /\ ~ In ","%char (list_ascii_of_string "test").
Proof.
  destruct (proj1 (tags_are_clean "drill, test ,,nyc") "test") as (Hne & Htrim & Hcomma & _).
  - right. left. reflexivity.
  - now repeat split.
Defined.

Lemma post_reports_witness :
  reports (snd (post_reports reliable (JObj numeric_report) sample_world))
  = reports sample_world
      ++ [sample_stored_report sample_world
            (report_payload (JStr "d1") (JStr "citizen1") (JNum (Fin 5)) JUndefined)]
  /\ fst (post_reports reliable (JObj numeric_report) sample_world)
     = Normal {| status := 500; body := error_body "Failed to create report" |}.
Proof.
  destruct (post_reports_outcome reliable numeric_report sample_world) as (_ & Hok & _).
  destruct (Hok eq_refl) as (Hstored & _ & Hfail).
  split; [exact Hstored|]. apply Hfail. discriminate.
Defined.

Lemma bulletins_witness :
  fst (get_official_updates online "d1" sample_world)
  = Normal {| status := 200; body := bulletins online 1000 |}
  /\ fst (get_official_updates online "d2"
            (advance 5000 (snd (get_official_updates online "d1" sample_world))))
     = Normal {| status := 200; body := bulletins online 1000 |}.
Proof.
  pose proof (bulletins_are_one_shared_snapshot online "d1" "d2" sample_world _ _ 5000
                eq_refl eq_refl eq_refl) as H.
  cbv zeta in H. destruct H as (H1 & H2 & _); [lia | reflexivity |].
  split; [exact H1 | exact H2].
Defined.

Lemma proximity_witness :
  get_resources online "d1" (JObj nearby_request) sample_world
  = (Normal {| status := 200; body := JArr [] |}, log (Pg nearby_rpc false) sample_world).
Proof.
  apply (proj1 (proximity_answer_is_passed_on online "d1" nearby_request sample_world));
    reflexivity.
Defined.

Lemma page_incident_witness :
  exists failed post,
    trace (snd (post_disasters online (createDisaster_body drill_form) sample_world))
    = trace sample_world
        ++ [Pg (InsertDisaster
                  (JObj [("title", JStr "Drill"); ("location_name", JStr "");
                         ("location", JNull); ("description", JStr "Exercise");
                         ("tags", JArr [JStr "drill"; JStr "test"; JStr "nyc"]);
                         ("owner_id", JStr "netrunnerX");
                         ("audit_trail",
                          JArr [JObj [("action", JStr "create");
                                      ("user_id", JStr "netrunnerX");
                                      ("timestamp", JStr "2025-06-01T00:00:00.000Z")]])]))
              failed] ++ post.
Proof.
  assert (Hpoint : point_converts online (JStr (form_location_name drill_form)) sample_world).
  { intros coords Hcoords _. vm_compute in Hcoords. injection Hcoords as <-. reflexivity. }
  destruct (page_incident_is_owned_by_netrunnerX online drill_form sample_world Hpoint)
    as (pre & location & failed & post & Ht & _ & Hnone & _).
  destruct (Hnone eq_refl) as [-> ->]. exists failed, post. exact Ht.
Defined.

Lemma page_report_witness :
  fst (post_reports reliable (createReport_body (JStr "d1") rising_form) sample_world)
  = Normal {| status := 200;
              body := report_payload (JStr "d1") (JStr "citizen1")
                        (JStr "Water rising on 5th") (JStr "") |}
  /\ reports (snd (post_reports reliable (createReport_body (JStr "d1") rising_form)
                     sample_world))
     = reports sample_world
         ++ [sample_stored_report sample_world
               (report_payload (JStr "d1") (JStr "citizen1")
                  (JStr "Water rising on 5th") (JStr ""))].
Proof.
  apply (page_report_is_stored_as_pending reliable (JStr "d1") rising_form sample_world).
  reflexivity.
Defined.

Lemma empty_cache_truthy : cache_truthy sample_world.
Proof. intros k row H. cbn [cache sample_world] in H. now rewrite lookup_empty in H. Defined.

Lemma requests_truthy_witness : cache_truthy (serve online reliable sample_requests sample_world).
Proof.
  apply (requests_keep_the_cache_truthy online reliable sample_requests sample_world).
  exact empty_cache_truthy.
Defined.

Lemma sample_statuses_ok : statuses_ok sample_world.
Proof.
  intros r Hr. cbn [reports sample_world sample_reports] in Hr.
  repeat (apply elem_of_cons in Hr as [-> | Hr]); [now right | now left | now left |].
  now apply elem_of_nil in Hr.
Defined.

Lemma statuses_witness :
  verifications_ok (serve online reliable sample_requests sample_world)
  /\ statuses_ok (serve online reliable sample_requests sample_world).
Proof.
  apply (statuses_stay_pending_or_verified online reliable sample_requests sample_world).
  - intros w a b c d. reflexivity.
  - intros k row H. cbn [cache sample_world] in H. now rewrite lookup_empty in H.
  - exact sample_statuses_ok.
Defined.
